(** * Retrieval-and-answer pipeline of the insurance policy query system

  A shallow embedding of [document_parser.py], [groq_service.py],
  [embedding_service_vercel.py] and [api_routes.py], and the properties
  of the chunker, the fallback heuristics, the surrogate embedder, the
  vector-index wrapper and the [/hackrx/run] handler.

  Conventions of the embedding.
  - A Python [str] is a [string] whose characters are the code points
    0..255; [str.lower], [str.isspace] and UTF-8 encoding are the Python
    ones restricted to that range.
  - A Python [float] that the code obtains as a quotient of two small
    integers is the exact rational [Q]; the comparisons the code makes on
    such quotients ([> 0.3], [min(_, 1.0)]) agree with the exact ones
    whenever the denominator is below 2^50.
  - A call that can raise returns an [outcome]; a call on a backend
    (HTTP, Pinecone, Groq) threads an abstract world. *)

From Stdlib Require Import ZArith QArith Ascii String List Lia DecimalString
  DecimalNat.
From stdpp Require Import base gmap sets list strings.

Local Open Scope Z_scope.

(** ** Python string primitives *)

Module Py.

Definition nl : ascii := "010".
Definition dot : ascii := ".".

(** [c.isspace()] on the code points below 256. *)
Definition isspace (c : ascii) : bool :=
  let n := N_of_ascii c in
  ((9 <=? n) && (n <=? 13) || (28 <=? n) && (n <=? 32)
   || (n =? 133) || (n =? 160))%N.

(** [c.lower()] on the code points below 256. *)
Definition lower_char (c : ascii) : ascii :=
  let n := N_of_ascii c in
  if ((65 <=? n) && (n <=? 90) || (192 <=? n) && (n <=? 214)
      || (216 <=? n) && (n <=? 222))%N
  then ascii_of_N (n + 32) else c.

Fixpoint lower (s : string) : string :=
  match s with
  | EmptyString => EmptyString
  | String c r => String (lower_char c) (lower r)
  end.

(** Truth value of a string in a condition: non-empty. *)
Definition truthy (s : string) : bool :=
  match s with EmptyString => false | String _ _ => true end.

Fixpoint lstrip (s : string) : string :=
  match s with
  | EmptyString => EmptyString
  | String c r => if isspace c then lstrip r else s
  end.

Fixpoint rstrip (s : string) : string :=
  match s with
  | EmptyString => EmptyString
  | String c r =>
      match rstrip r with
      | EmptyString => if isspace c then EmptyString else String c EmptyString
      | r' => String c r'
      end
  end.

(** [s.strip()] *)
Definition strip (s : string) : string := lstrip (rstrip s).

(** [s.split(sep)] for a separator of one character. *)
Fixpoint split_on (sep : ascii) (s : string) : list string :=
  match s with
  | EmptyString => [EmptyString]
  | String c r =>
      if Ascii.eqb c sep then EmptyString :: split_on sep r
      else match split_on sep r with
           | w :: ws => String c w :: ws
           | [] => [String c EmptyString]
           end
  end.

(** [s.split()]: the maximal runs of non-space characters. *)
Fixpoint split (s : string) : list string :=
  match s with
  | EmptyString => []
  | String c r =>
      if isspace c then split r
      else match r with
           | EmptyString => [String c EmptyString]
           | String c' _ =>
               if isspace c' then String c EmptyString :: split r
               else match split r with
                    | w :: ws => String c w :: ws
                    | [] => [String c EmptyString]
                    end
           end
  end.

(** [needle in hay] *)
Fixpoint contains (needle hay : string) : bool :=
  String.prefix needle hay
  || match hay with
     | EmptyString => false
     | String _ r => contains needle r
     end.

(** [sep.join(l)] *)
Fixpoint join (sep : string) (l : list string) : string :=
  match l with
  | [] => EmptyString
  | x :: r =>
      match r with
      | [] => x
      | _ :: _ => x +:+ sep +:+ join sep r
      end
  end.

(** [s[:n]] for [n >= 0] *)
Fixpoint slice_to (n : nat) (s : string) : string :=
  match n, s with
  | S n', String c r => String c (slice_to n' r)
  | _, _ => EmptyString
  end.

(** [s.endswith(c)] for a suffix of one character. *)
Fixpoint endswith_char (c : ascii) (s : string) : bool :=
  match s with
  | EmptyString => false
  | String a EmptyString => Ascii.eqb a c
  | String _ r => endswith_char c r
  end.

Definition len (s : string) : Z := Z.of_nat (String.length s).

(** [l[:n]] on a list, [n >= 0] *)
Definition list_slice_to {A} (n : nat) (l : list A) : list A := firstn n l.

(** [any(p(x) for x in l)] *)
Definition any {A} (p : A -> bool) (l : list A) : bool := existsb p l.

End Py.

(** Decimal rendering of integers, as f-strings do. *)
Definition str_of_nat (n : nat) : string :=
  NilEmpty.string_of_uint (Nat.to_uint n).

Definition str_of_Z (z : Z) : string :=
  NilEmpty.string_of_int (Z.to_int z).

(** ** Exceptions and backend effects *)

Module Effects.

Inductive exn :=
| HTTPException (status_code : Z) (detail : string)
| OtherException (msg : string).

Inductive outcome (A : Type) :=
| Returned (a : A)
| Raised (e : exn).
Arguments Returned {A} a.
Arguments Raised {A} e.

(** A computation that reads and updates a state and may raise; the
    updates made before a raise persist, as in Python. *)
Definition M (St A : Type) : Type := St -> outcome A * St.

#[global] Instance M_ret {St} : MRet (M St) :=
  fun A a s => (Returned a, s).

#[global] Instance M_bind {St} : MBind (M St) :=
  fun A B f m s =>
    match m s with
    | (Returned a, s') => f a s'
    | (Raised e, s') => (Raised e, s')
    end.

Definition raise {St A} (e : exn) : M St A := fun s => (Raised e, s).

(** [try: body  except Exception as e: handler e] *)
Definition try_except {St A} (body : M St A) (handler : exn -> M St A)
  : M St A :=
  fun s =>
    match body s with
    | (Returned a, s') => (Returned a, s')
    | (Raised e, s') => handler e s'
    end.

(** [try: body  finally: cleanup] *)
Definition try_finally {St A} (body : M St A) (cleanup : M St unit)
  : M St A :=
  fun s =>
    let '(r, s') := body s in
    match cleanup s' with
    | (Returned _, s'') => (r, s'')
    | (Raised e, s'') => (Raised e, s'')
    end.

(** [str(e)] *)
Definition exn_str (e : exn) : string :=
  match e with
  | HTTPException _ detail => detail
  | OtherException msg => msg
  end.

(** A Python value held in a [Dict[str, Any]] of this program. *)
Inductive value :=
| VStr (s : string)
| VInt (z : Z).

(** [d[key]] *)
Definition subscript {St} (d : gmap string value) (key : string)
  : M St value :=
  match d !! key with
  | Some v => mret v
  | None => raise (OtherException "KeyError")
  end.

(** The items of a list that [sep.join] accepts: it raises TypeError
    unless every item is a str. *)
Definition str_items (l : list value) : option (list string) :=
  mapM (fun v => match v with VStr s => Some s | VInt _ => None end) l.

(** [d.get(key, default)] *)
Definition dict_get {V} (d : gmap string V) (key : string) (default : V) : V :=
  match d !! key with
  | Some v => v
  | None => default
  end.

End Effects.
Import Effects.

(** ** document_parser.py *)

Module DocumentParser.
Section Chunker.

(** [count_tokens text = len(self.tokenizer.encode(text))]; the tokenizer
    is tiktoken's, an external library. *)
Variable count_tokens : string -> nat.
Variable max_tokens_per_chunk : Z.

Definition paragraphs (text : string) : list string :=
  map Py.strip
    (List.filter (fun p => Py.truthy (Py.strip p)) (Py.split_on Py.nl text)).

Record loop_state := LoopState {
  chunks : list string;
  current_chunk : string;
  current_tokens : Z
}.

Definition loop_init : loop_state := LoopState [] EmptyString 0.

Definition loop_body (st : loop_state) (paragraph : string) : loop_state :=
  let paragraph_tokens := Z.of_nat (count_tokens paragraph) in
  if (current_tokens st + paragraph_tokens >? max_tokens_per_chunk)
     && Py.truthy (current_chunk st)
  then LoopState (chunks st ++ [Py.strip (current_chunk st)])
                 paragraph paragraph_tokens
  else LoopState (chunks st)
                 (current_chunk st +:+
                    (if Py.truthy (current_chunk st)
                     then String Py.nl paragraph else paragraph))
                 (current_tokens st + paragraph_tokens).

Definition split_into_chunks (text : string) : list string :=
  let st := fold_left loop_body (paragraphs text) loop_init in
  if Py.truthy (current_chunk st)
  then chunks st ++ [Py.strip (current_chunk st)]
  else chunks st.

End Chunker.

Section Processing.

Context {St : Type}.
Variable count_tokens : string -> nat.
Variable max_tokens_per_chunk : Z.

(** Collaborators: aiohttp's GET (status and body), the temporary file,
    PyMuPDF and python-docx reading it, and the UTF-8 codec. *)
Variable http_get : string -> M St (Z * list Z).
Variable tmp_write : list Z -> string -> M St string.
Variable tmp_remove : string -> M St unit.
Variable fitz_text : string -> M St string.
Variable docx_text : string -> M St string.
Variable decode_utf8_ignore : list Z -> string.

Definition download_document (url : string) : M St (list Z) :=
  '(status, body) ← http_get url;
  if negb (status =? 200)
  then raise (OtherException
                ("Failed to download document: " +:+ str_of_Z status))
  else mret body.

Definition parse_pdf (file_path : string) : M St string :=
  try_except (fitz_text file_path) (fun e => raise e).

Definition parse_docx (file_path : string) : M St string :=
  try_except (docx_text file_path) (fun e => raise e).

(** The [for i, line in enumerate(lines)] loop of [parse_email]: the
    value of [body_start] when the loop ends. *)
Fixpoint body_start_from (i : nat) (lines : list string) : nat :=
  match lines with
  | [] => 0%nat
  | line :: rest =>
      if Py.truthy (Py.strip line) then body_start_from (S i) rest
      else S i
  end.

Definition parse_email (content : string) : string :=
  let lines := Py.split_on Py.nl content in
  let body_start := body_start_from 0 lines in
  Py.join (String Py.nl EmptyString) (skipn body_start lines).

(** [url.split('?')[0].split('.')[-1].lower()] *)
Definition file_extension_of (url : string) : string :=
  Py.lower
    (List.last (Py.split_on Py.dot (List.hd EmptyString (Py.split_on "?" url)))
               EmptyString).

Definition chunk_metadata_entry (url file_extension : string)
    (total : nat) (i : nat) (chunk : string) : gmap string value :=
  <["text" := VStr chunk]>
  (<["chunk_id" := VStr ("chunk_" +:+ str_of_nat i)]>
  (<["doc_source" := VStr url]>
  (<["file_type" := VStr file_extension]>
  (<["token_count" := VInt (Z.of_nat (count_tokens chunk))]>
  (<["chunk_index" := VInt (Z.of_nat i)]>
  (<["total_chunks" := VInt (Z.of_nat total)]> ∅)))))).

Definition process_document_from_url (url : string)
  : M St (list (gmap string value)) :=
  content ← download_document url;
  let file_extension := file_extension_of url in
  tmp_path ← tmp_write content ("." +:+ file_extension);
  try_finally
    (text ←
       (if String.eqb file_extension "pdf" then parse_pdf tmp_path
        else if String.eqb file_extension "docx"
                || String.eqb file_extension "doc"
        then parse_docx tmp_path
        else mret (parse_email (decode_utf8_ignore content)));
     let chunks :=
       split_into_chunks count_tokens max_tokens_per_chunk text in
     mret (imap (chunk_metadata_entry url file_extension (length chunks))
                chunks))
    (tmp_remove tmp_path).

End Processing.

(** *** [clean_text] *)

(** [re.sub(r'\s+', ' ', s)]: every maximal run of white space becomes
    one space. [in_run] tells that the character before was white space,
    so that the run has its space already. *)
Fixpoint sub_spaces (in_run : bool) (s : string) : string :=
  match s with
  | EmptyString => EmptyString
  | String c r =>
      if Py.isspace c
      then if in_run then sub_spaces true r
           else String " " (sub_spaces true r)
      else String c (sub_spaces false r)
  end.

(** The class [\w] on the code points below 256: letters, digits and
    other numeric characters, and the underscore. *)
Definition word_char (c : ascii) : bool :=
  let n := N_of_ascii c in
  ((48 <=? n) && (n <=? 57) || (65 <=? n) && (n <=? 90) || (n =? 95)
   || (97 <=? n) && (n <=? 122) || (n =? 170) || (n =? 178) || (n =? 179)
   || (n =? 181) || (n =? 185) || (n =? 186) || (188 <=? n) && (n <=? 190)
   || (192 <=? n) && (n <=? 214) || (216 <=? n) && (n <=? 246)
   || (248 <=? n) && (n <=? 255))%N.

(** The characters the class [[^\w\s\.\,\;\:\!\?\-\(\)]] does not
    match, which the second substitution leaves in place. *)
Definition kept_char (c : ascii) : bool :=
  word_char c || Py.isspace c
  || existsb (Ascii.eqb c) [ "."; ","; ";"; ":"; "!"; "?"; "-"; "("; ")" ]%char.

(** [re.sub(r'[^\w\s\.\,\;\:\!\?\-\(\)]', '', s)] *)
Fixpoint sub_special (s : string) : string :=
  match s with
  | EmptyString => EmptyString
  | String c r =>
      if kept_char c then String c (sub_special r) else sub_special r
  end.

Definition clean_text (text : string) : string :=
  let text := sub_spaces false text in
  let text := sub_special text in
  Py.strip text.

End DocumentParser.

(** ** groq_service.py: the deterministic fallbacks *)

Module GroqService.

Record ParsedQuery := {
  intent : string;
  entities : list string;
  conditions : list string
}.

(** [if kw in query_lower: keywords.append(kw)] *)
Definition append_if (found : bool) (kw : string) (keywords : list string)
  : list string :=
  if found then keywords ++ [kw] else keywords.

Definition _fallback_parse_query (query : string) : ParsedQuery :=
  let query_lower := Py.lower query in
  let has kw := Py.contains kw query_lower in
  let keywords := [] in
  let keywords := append_if (has "grace period") "grace period" keywords in
  let keywords := append_if (has "waiting period") "waiting period" keywords in
  let keywords := append_if (has "premium") "premium" keywords in
  let keywords := append_if (has "coverage") "coverage" keywords in
  let keywords := append_if (has "hospital") "hospital" keywords in
  let keywords := append_if (has "maternity") "maternity" keywords in
  let keywords := append_if (has "claim") "claim" keywords in
  let keywords :=
    append_if (has "ncd" || has "no claim discount") "ncd" keywords in
  let keywords := append_if (has "deductible") "deductible" keywords in
  let keywords := append_if (has "exclusion") "exclusion" keywords in
  let keywords := append_if (has "benefit") "benefit" keywords in
  let keywords := append_if (has "policy") "policy" keywords in
  let keywords := append_if (has "term") "term" keywords in
  let keywords := append_if (has "renewal") "renewal" keywords in
  let keywords := append_if (has "cancellation") "cancellation" keywords in
  let intent :=
    if Py.any has ["grace"; "waiting"] then "find_period"
    else if Py.any has ["premium"; "payment"] then "find_payment_info"
    else if Py.any has ["coverage"; "benefit"] then "find_coverage"
    else if Py.any has ["claim"; "ncd"] then "find_claim_info"
    else "general_query" in
  {| intent := intent; entities := keywords; conditions := [] |}.

Record ClauseEvaluation := {
  answer : string;
  direct_answer : string;
  explanation : string;
  confidence : Q
}.

(** [min(x, 1.0)]: the second argument wins only when strictly smaller. *)
Definition min_1 (x : Q) : Q := if Qle_bool x 1 then x else 1%Q.

(** [x > 0.3] *)
Definition gt_0_3 (x : Q) : bool := negb (Qle_bool x (3 # 10)).

Definition _fallback_evaluate_clause (query clause : string)
  : ClauseEvaluation :=
  let query_lower := Py.lower query in
  let clause_lower := Py.lower clause in
  let query_words : gset string := list_to_set (Py.split query_lower) in
  let clause_words : gset string := list_to_set (Py.split clause_lower) in
  let overlap := size (query_words ∩ clause_words) in
  let total_query_words := size query_words in
  let confidence :=
    if (total_query_words =? 0)%nat then 0%Q
    else min_1 (Z.of_nat overlap # Pos.of_nat total_query_words) in
  if gt_0_3 confidence then
    {| answer := "yes";
       direct_answer :=
         if Py.len clause >? 200 then Py.slice_to 200 clause +:+ "..."
         else clause;
       explanation :=
         "Clause contains " +:+ str_of_nat overlap +:+ " relevant keywords";
       confidence := confidence |}
  else
    {| answer := "no";
       direct_answer := "No relevant information found";
       explanation := "Clause doesn't contain relevant keywords";
       confidence := confidence |}.

(** The [for sentence in sentences] loop body. *)
Definition collect_sentence (query_lower : string)
    (relevant_sentences : list string) (sentence : string) : list string :=
  let sentence_lower := Py.lower sentence in
  if Py.any (fun word => Py.contains word sentence_lower)
            (Py.split query_lower)
  then relevant_sentences ++ [Py.strip sentence]
  else relevant_sentences.

Definition _fallback_generate_answer (query : string)
    (relevant_texts : list string) : string :=
  match relevant_texts with
  | [] => "No relevant information found in the document."
  | _ :: _ =>
      let combined_text := Py.join " " relevant_texts in
      let query_lower := Py.lower query in
      let sentences := Py.split_on Py.dot combined_text in
      let relevant_sentences :=
        fold_left (collect_sentence query_lower) sentences [] in
      match relevant_sentences with
      | _ :: _ =>
          let answer :=
            Py.join ". " (Py.list_slice_to 3 relevant_sentences) in
          if negb (Py.endswith_char Py.dot answer) then answer +:+ "."
          else answer
      | [] =>
          if Py.len combined_text >? 500
          then Py.slice_to 500 combined_text +:+ "..."
          else combined_text
      end
  end.


(** *** The LLM paths *)

(** What a prompt is built from; the literal wording of the f-strings is
    not reproduced. *)
Inductive llm_request :=
| ParsePrompt (query : string)
| EvaluatePrompt (query clause : string)
| AnswerPrompt (query context : string).

Inductive or_json (Json A : Type) :=
| FromLLM (j : Json)
| FromFallback (a : A).
Arguments FromLLM {Json A} j.
Arguments FromFallback {Json A} a.

Section Service.

Context {St : Type}.
Variable groq_client : Type.
Variable Json : Type.

(** [self.client.chat.completions.create(model="llama3-8b-8192",
    messages=[...], temperature=0.1, max_tokens=n)] followed by
    [response.choices[0].message.content]. *)
Variable chat_completion : groq_client -> llm_request -> Z -> M St string.

(** [json.loads]; [None] stands for any exception it raises. *)
Variable json_loads : string -> option Json.

Definition parse_query (client : option groq_client) (query : string)
  : M St (or_json Json ParsedQuery) :=
  match client with
  | None => mret (FromFallback (_fallback_parse_query query))
  | Some c =>
      try_except
        (content ← chat_completion c (ParsePrompt query) 200;
         let content := Py.strip content in
         match json_loads content with
         | Some result => mret (FromLLM result)
         | None => mret (FromFallback (_fallback_parse_query query))
         end)
        (fun _ => mret (FromFallback (_fallback_parse_query query)))
  end.

Definition evaluate_clause (client : option groq_client)
    (query clause : string) : M St (or_json Json ClauseEvaluation) :=
  match client with
  | None => mret (FromFallback (_fallback_evaluate_clause query clause))
  | Some c =>
      try_except
        (content ← chat_completion c (EvaluatePrompt query clause) 300;
         let content := Py.strip content in
         match json_loads content with
         | Some result => mret (FromLLM result)
         | None =>
             mret (FromFallback (_fallback_evaluate_clause query clause))
         end)
        (fun _ =>
           mret (FromFallback (_fallback_evaluate_clause query clause)))
  end.

(** [self._fallback_generate_answer(query, relevant_texts)] on texts of
    any type: past the test for the empty list, [" ".join] raises TypeError
    unless every text is a str. *)
Definition fallback_generate_answer_of (query : string)
    (relevant_texts : list value) : M St string :=
  match str_items relevant_texts with
  | Some texts => mret (_fallback_generate_answer query texts)
  | None => raise (OtherException "TypeError")
  end.

Definition generate_detailed_answer (client : option groq_client)
    (query : string) (relevant_texts : list value) : M St string :=
  match client with
  | None => fallback_generate_answer_of query relevant_texts
  | Some c =>
      try_except
        (match str_items (Py.list_slice_to 5 relevant_texts) with
         | Some texts =>
             let context :=
               Py.join (String Py.nl (String Py.nl EmptyString)) texts in
             content ← chat_completion c (AnswerPrompt query context) 500;
             mret (Py.strip content)
         | None => raise (OtherException "TypeError")
         end)
        (fun _ => fallback_generate_answer_of query relevant_texts)
  end.

(** [[await self.parse_query(query) for query in queries]] *)
Definition batch_parse_queries (client : option groq_client)
    (queries : list string) : M St (list (or_json Json ParsedQuery)) :=
  mapM (parse_query client) queries.

Definition batch_evaluate_clauses (client : option groq_client)
    (query : string) (clauses : list string)
  : M St (list (or_json Json ClauseEvaluation)) :=
  mapM (evaluate_clause client query) clauses.

(** The [for query, relevant_texts in zip(...)] loop, appending each
    answer. *)
Definition batch_generate_answers (client : option groq_client)
    (queries : list string) (relevant_texts_list : list (list value))
  : M St (list string) :=
  mapM (fun '(query, relevant_texts) =>
          generate_detailed_answer client query relevant_texts)
       (zip queries relevant_texts_list).

End Service.
End GroqService.

(** ** hashlib.md5 (RFC 1321) and str.encode *)

Module Hashlib.

(** [s.encode()]: UTF-8, one byte below 128 and two bytes from 128 to 255. *)
Fixpoint encode (s : string) : list Z :=
  match s with
  | EmptyString => []
  | String c r =>
      let n := Z.of_N (N_of_ascii c) in
      if n <? 128 then n :: encode r
      else Z.lor 192 (Z.shiftr n 6) :: Z.lor 128 (Z.land n 63) :: encode r
  end.

Definition add32 (a b : Z) : Z := (a + b) mod 2 ^ 32.
Definition not32 (a : Z) : Z := Z.lxor a 0xFFFFFFFF.
Definition rotl32 (x c : Z) : Z :=
  Z.lor (Z.shiftl x c mod 2 ^ 32) (Z.shiftr x (32 - c)).

Definition K : list Z :=
  [ 0xd76aa478; 0xe8c7b756; 0x242070db; 0xc1bdceee;
    0xf57c0faf; 0x4787c62a; 0xa8304613; 0xfd469501;
    0x698098d8; 0x8b44f7af; 0xffff5bb1; 0x895cd7be;
    0x6b901122; 0xfd987193; 0xa679438e; 0x49b40821;
    0xf61e2562; 0xc040b340; 0x265e5a51; 0xe9b6c7aa;
    0xd62f105d; 0x02441453; 0xd8a1e681; 0xe7d3fbc8;
    0x21e1cde6; 0xc33707d6; 0xf4d50d87; 0x455a14ed;
    0xa9e3e905; 0xfcefa3f8; 0x676f02d9; 0x8d2a4c8a;
    0xfffa3942; 0x8771f681; 0x6d9d6122; 0xfde5380c;
    0xa4beea44; 0x4bdecfa9; 0xf6bb4b60; 0xbebfbc70;
    0x289b7ec6; 0xeaa127fa; 0xd4ef3085; 0x04881d05;
    0xd9d4d039; 0xe6db99e5; 0x1fa27cf8; 0xc4ac5665;
    0xf4292244; 0x432aff97; 0xab9423a7; 0xfc93a039;
    0x655b59c3; 0x8f0ccc92; 0xffeff47d; 0x85845dd1;
    0x6fa87e4f; 0xfe2ce6e0; 0xa3014314; 0x4e0811a1;
    0xf7537e82; 0xbd3af235; 0x2ad7d2bb; 0xeb86d391 ].

Definition shifts : list Z :=
  [ 7; 12; 17; 22; 7; 12; 17; 22; 7; 12; 17; 22; 7; 12; 17; 22;
    5; 9; 14; 20; 5; 9; 14; 20; 5; 9; 14; 20; 5; 9; 14; 20;
    4; 11; 16; 23; 4; 11; 16; 23; 4; 11; 16; 23; 4; 11; 16; 23;
    6; 10; 15; 21; 6; 10; 15; 21; 6; 10; 15; 21; 6; 10; 15; 21 ].

Record state := State { sa : Z; sb : Z; sc : Z; sd : Z }.

Definition init : state :=
  State 0x67452301 0xefcdab89 0x98badcfe 0x10325476.

(** Little-endian 32-bit word of four bytes. *)
Definition word_at (block : list Z) (g : nat) : Z :=
  let b k := nth (4 * g + k) block 0 in
  b 0%nat + 2 ^ 8 * b 1%nat + 2 ^ 16 * b 2%nat + 2 ^ 24 * b 3%nat.

Definition step (block : list Z) (st : state) (i : nat) : state :=
  let '(State a b c d) := st in
  let '(f, g) :=
    if (i <? 16)%nat then
      (Z.lor (Z.land b c) (Z.land (not32 b) d), i)
    else if (i <? 32)%nat then
      (Z.lor (Z.land d b) (Z.land (not32 d) c), (5 * i + 1) mod 16)%nat
    else if (i <? 48)%nat then
      (Z.lxor b (Z.lxor c d), (3 * i + 5) mod 16)%nat
    else
      (Z.lxor c (Z.lor b (not32 d)), (7 * i) mod 16)%nat in
  let f' := add32 (add32 (add32 f a) (nth i K 0)) (word_at block g) in
  State d (add32 b (rotl32 f' (nth i shifts 0))) b c.

Definition compress (st : state) (block : list Z) : state :=
  let '(State a b c d) := fold_left (step block) (seq 0 64) st in
  State (add32 (sa st) a) (add32 (sb st) b)
        (add32 (sc st) c) (add32 (sd st) d).

Fixpoint blocks (n : nat) (msg : list Z) : list (list Z) :=
  match n with
  | O => []
  | S n' => firstn 64 msg :: blocks n' (skipn 64 msg)
  end.

Definition le_bytes (n : nat) (x : Z) : list Z :=
  map (fun k => Z.shiftr x (8 * Z.of_nat k) mod 256) (seq 0 n).

Definition pad (msg : list Z) : list Z :=
  let len := Z.of_nat (length msg) in
  msg ++ [128] ++ repeat 0 (Z.to_nat ((55 - len) mod 64))
      ++ le_bytes 8 ((8 * len) mod 2 ^ 64).

(** [hashlib.md5(msg).digest()] *)
Definition md5 (msg : list Z) : list Z :=
  let padded := pad msg in
  let st := fold_left compress (blocks (length padded / 64) padded) init in
  le_bytes 4 (sa st) ++ le_bytes 4 (sb st)
    ++ le_bytes 4 (sc st) ++ le_bytes 4 (sd st).

Definition hex_digit (n : Z) : ascii :=
  nth (Z.to_nat n)
    (list_ascii_of_string "0123456789abcdef") "0"%char.

Fixpoint hex (bytes : list Z) : string :=
  match bytes with
  | [] => EmptyString
  | b :: r => String (hex_digit (b / 16)) (String (hex_digit (b mod 16)) (hex r))
  end.

(** [hashlib.md5(msg).hexdigest()] *)
Definition md5_hexdigest (msg : list Z) : string := hex (md5 msg).

End Hashlib.

(** ** embedding_service_vercel.py *)

Module EmbeddingServiceVercel.

(** [int(hex_pair, 16)] on strings of hexadecimal digits, the only ones a
    hex digest holds; [None] stands for [ValueError]. *)
Definition hex_value (c : ascii) : option Z :=
  let n := Z.of_N (N_of_ascii c) in
  if (48 <=? n) && (n <=? 57) then Some (n - 48)
  else if (97 <=? n) && (n <=? 102) then Some (n - 87)
  else if (65 <=? n) && (n <=? 70) then Some (n - 55)
  else None.

Fixpoint int16_from (acc : Z) (s : string) : option Z :=
  match s with
  | EmptyString => Some acc
  | String c r =>
      match hex_value c with
      | Some d => int16_from (16 * acc + d) r
      | None => None
      end
  end.

Definition int16 (s : string) : option Z :=
  match s with
  | EmptyString => None
  | String _ _ => int16_from 0 s
  end.

(** The [for i in range(0, len(text_hash), 2)] loop: [text_hash] is the
    part of the digest from index [i] on. *)
Fixpoint hash_loop (text_hash : string) (vector : list Q) : option (list Q) :=
  match text_hash with
  | EmptyString => Some vector
  | String a rest =>
      if (128 <=? length vector)%nat then Some vector
      else match rest with
           | EmptyString =>
               match int16 (String a EmptyString) with
               | Some n => Some (vector ++ [n # 255])
               | None => None
               end
           | String b rest' =>
               match int16 (String a (String b EmptyString)) with
               | Some n => hash_loop rest' (vector ++ [n # 255])
               | None => None
               end
           end
  end.

(** [while len(vector) < 128: vector.append(0.0)] *)
Definition pad_to_128 (vector : list Q) : list Q :=
  vector ++ repeat 0%Q (128 - length vector).

Definition vector_of_hash (text_hash : string) : option (list Q) :=
  match hash_loop text_hash [] with
  | Some vector => Some (firstn 128 (pad_to_128 vector))
  | None => None
  end.

Definition _simple_text_to_vector (text : string) : option (list Q) :=
  vector_of_hash (Hashlib.md5_hexdigest (Hashlib.encode text)).


(** *** The Pinecone-backed service *)

Record vector_record := {
  vec_id : string;
  vec_values : list Q;
  vec_metadata : gmap string value
}.

(** A match of [index.query]; its metadata, when it has some, maps keys
    to values of any type. *)
Record query_match := {
  match_id : string;
  match_score : Q;
  match_metadata : option (gmap string value)
}.

Record search_doc := {
  doc_id : string;
  doc_score : Q;
  doc_text : value;
  doc_source : value;
  doc_timestamp : value
}.

Record index_stats := {
  total_vector_count : Z;
  dimension : Z;
  index_fullness : Q;
  namespaces : list string
}.

Inductive stats_result :=
| StatsError (error : string)
| Stats (s : index_stats).

Definition index_name : string := "hackrx-index".

(** [os.getenv] gives [None] or a string; both [None] and the empty
    string are false in a condition. *)
Definition env_truthy (v : option string) : bool :=
  match v with
  | Some s => Py.truthy s
  | None => false
  end.

Definition text_to_vector (text : value) : option (list Q) :=
  match text with
  | VStr s => _simple_text_to_vector s
  | VInt _ => None
  end.

(** The [try] of [get_embeddings] returns [[]] on any exception. *)
Definition get_embeddings (texts : list value) : list (list Q) :=
  match mapM text_to_vector texts with
  | Some embeddings => embeddings
  | None => []
  end.

Definition enumerate {A} (l : list A) : list (nat * A) :=
  imap (fun i x => (i, x)) l.

Section Service.

Context {St : Type}.
Variable client : Type.

(** The Pinecone client library. *)
Variable Pinecone : string -> M St client.
Variable list_indexes : client -> M St (list string).
Variable create_index : client -> string -> Z -> string -> M St unit.
Variable index_upsert : client -> string -> list vector_record -> M St unit.
Variable index_query :
  client -> string -> list Q -> Z -> M St (list query_match).
Variable index_delete_all : client -> string -> M St unit.
Variable describe_index_stats : client -> string -> M St index_stats.

(** The built-in [hash] on [str] of the running interpreter: CPython keys
    it with a seed drawn when the process starts. *)
Variable str_hash : string -> Z.

Definition _ensure_index_exists (pc : client) : M St unit :=
  try_except
    (existing_indexes ← list_indexes pc;
     if negb (bool_decide (index_name ∈ existing_indexes))
     then create_index pc index_name 128 "cosine"
     else mret tt)
    (fun _ => mret tt).

(** [__init__]: the value of [self.pc]. *)
Definition __init__ (pinecone_api_key pinecone_environment : option string)
  : M St (option client) :=
  match pinecone_api_key with
  | Some api_key =>
      if Py.truthy api_key && env_truthy pinecone_environment then
        try_except
          (pc ← Pinecone api_key;
           _ensure_index_exists pc;;
           mret (Some pc))
          (fun _ => mret None)
      else mret None
  | None => mret None
  end.

Definition make_vector (entry : nat * (gmap string value * list Q))
  : M St vector_record :=
  let '(i, (doc, embedding)) := entry in
  text ← subscript doc "text";
  match text with
  | VStr s =>
      mret {| vec_id :=
                "doc_" +:+ str_of_nat i +:+ "_"
                +:+ str_of_Z (str_hash (Py.slice_to 100 s));
              vec_values := embedding;
              vec_metadata :=
                <["text" := VStr (Py.slice_to 1000 s)]>
                (<["source" := dict_get doc "source" (VStr "unknown")]>
                (<["timestamp" := dict_get doc "timestamp" (VStr "")]> ∅))
           |}
  | VInt _ => raise (OtherException "TypeError")
  end.

Definition index_documents (pc : option client)
    (documents : list (gmap string value)) : M St bool :=
  match pc with
  | None => mret false
  | Some c =>
      try_except
        (texts ← mapM (fun doc => subscript doc "text") documents;
         let embeddings := get_embeddings texts in
         match embeddings with
         | [] => mret false
         | _ :: _ =>
             vectors ← mapM make_vector (enumerate (zip documents embeddings));
             index_upsert c index_name vectors;;
             mret true
         end)
        (fun _ => mret false)
  end.

Definition format_match (m : query_match) : M St search_doc :=
  match match_metadata m with
  | Some metadata =>
      mret {| doc_id := match_id m;
              doc_score := match_score m;
              doc_text := dict_get metadata "text" (VStr "");
              doc_source := dict_get metadata "source" (VStr "");
              doc_timestamp := dict_get metadata "timestamp" (VStr "") |}
  | None => raise (OtherException "AttributeError")
  end.

Definition search_similar (pc : option client) (query : string) (top_k : Z)
  : M St (list search_doc) :=
  match pc with
  | None => mret []
  | Some c =>
      try_except
        (let query_embedding := get_embeddings [VStr query] in
         match query_embedding with
         | [] => mret []
         | embedding :: _ =>
             results ← index_query c index_name embedding top_k;
             mapM format_match results
         end)
        (fun _ => mret [])
  end.

Definition clear_index (pc : option client) : M St bool :=
  match pc with
  | None => mret false
  | Some c =>
      try_except
        (index_delete_all c index_name;; mret true)
        (fun _ => mret false)
  end.

Definition get_index_stats (pc : option client) : M St stats_result :=
  match pc with
  | None => mret (StatsError "Pinecone not initialized")
  | Some c =>
      try_except
        (stats ← describe_index_stats c index_name; mret (Stats stats))
        (fun e => mret (StatsError (exn_str e)))
  end.

End Service.
End EmbeddingServiceVercel.

(** ** utils.py: the performance monitor *)

Module Utils.

Record PerformanceMonitor := {
  request_times : list Q;
  request_count : Z;
  error_count : Z
}.

(** [deque(maxlen=n).append(x)]: the oldest entry leaves a full deque. *)
Definition deque_append (maxlen : nat) (x : Q) (d : list Q) : list Q :=
  let d' := d ++ [x] in
  if (maxlen <? length d')%nat then List.tl d' else d'.

Definition max_requests : nat := 1000.

Definition timed (duration : Q) (pm : PerformanceMonitor)
  : PerformanceMonitor :=
  {| request_times := deque_append max_requests duration (request_times pm);
     request_count := request_count pm;
     error_count := error_count pm |}.

Definition recorded (duration : Q) (pm : PerformanceMonitor)
  : PerformanceMonitor :=
  {| request_times := deque_append max_requests duration (request_times pm);
     request_count := request_count pm + 1;
     error_count := error_count pm |}.

(** [range(start, stop, step)], which raises ValueError on a zero step. *)
Definition range (start stop step : Z) : outcome (list Z) :=
  if step =? 0
  then Raised (OtherException "range() arg 3 must not be zero")
  else
    let n := if 0 <? step then (stop - start + step - 1) / step
             else (start - stop - step - 1) / (- step) in
    Returned (map (fun k => start + Z.of_nat k * step) (seq 0 (Z.to_nat n))).

(** [l[lo:hi]]: a negative index counts from the end, and both are cut to
    the bounds of the list. *)
Definition slice {A} (l : list A) (lo hi : Z) : list A :=
  let n := Z.of_nat (length l) in
  let clamp (i : Z) := if i <? 0 then Z.max 0 (i + n) else Z.min i n in
  firstn (Z.to_nat (clamp hi - clamp lo)) (skipn (Z.to_nat (clamp lo)) l).

Definition batch_process {A} (items : list A) (batch_size : Z)
  : outcome (list (list A)) :=
  match range 0 (Z.of_nat (length items)) batch_size with
  | Returned starts =>
      Returned (map (fun i => slice items i (i + batch_size)) starts)
  | Raised e => Raised e
  end.

End Utils.

(** ** api_routes.py *)

Module ApiRoutes.

Record HackrxRequest := {
  documents : string;
  questions : list string
}.

Record HackrxResponse := {
  answers : list string
}.

Definition expected_key : string :=
  "4a7809a665f2f39b1f2fa7c7073518e6baa4ebe9309eea30dae92adba5772d8c".

(** The process: the outside world, the shared performance monitor and the
    webhook submissions handed to the event loop and not awaited. *)
Record app (W : Type) := App {
  world : W;
  performance_monitor : Utils.PerformanceMonitor;
  webhook_tasks : list (list string)
}.
Arguments App {W} world performance_monitor webhook_tasks.
Arguments world {W} a.
Arguments performance_monitor {W} a.
Arguments webhook_tasks {W} a.

(** A backend call, run on the world of the process. *)
Definition on_world {W A} (m : M W A) : M (app W) A :=
  fun st =>
    let '(r, w') := m (world st) in
    (r, App w' (performance_monitor st) (webhook_tasks st)).

Section Routes.

Context {W : Type}.

(** The backends. *)
Variable count_tokens : string -> nat.
Variable http_get : string -> M W (Z * list Z).
Variable tmp_write : list Z -> string -> M W string.
Variable tmp_remove : string -> M W unit.
Variable fitz_text : string -> M W string.
Variable docx_text : string -> M W string.
Variable decode_utf8_ignore : list Z -> string.
Variable client : Type.
Variable index_upsert :
  client -> string -> list EmbeddingServiceVercel.vector_record -> M W unit.
Variable index_query :
  client -> string -> list Q -> Z
  -> M W (list EmbeddingServiceVercel.query_match).
Variable str_hash : string -> Z.
Variable groq_client : Type.
Variable Json : Type.
Variable chat_completion :
  groq_client -> GroqService.llm_request -> Z -> M W string.
Variable json_loads : string -> option Json.
(** [time.time()]: reads the clock, does not raise. *)
Variable time_time : W -> Q * W.

(** The module-level service objects: [embedding_service.pc] and
    [groq_service.client]; [document_parser] has the default limit. *)
Variable pc : option client.
Variable groq : option groq_client.

Definition document_parser_process (url : string)
  : M (app W) (list (gmap string value)) :=
  DocumentParser.process_document_from_url count_tokens 1000
    (fun u => on_world (http_get u))
    (fun c suffix => on_world (tmp_write c suffix))
    (fun path => on_world (tmp_remove path))
    (fun path => on_world (fitz_text path))
    (fun path => on_world (docx_text path))
    decode_utf8_ignore url.

Definition embedding_index_documents (docs : list (gmap string value))
  : M (app W) bool :=
  EmbeddingServiceVercel.index_documents client
    (fun c name vs => on_world (index_upsert c name vs)) str_hash pc docs.

Definition embedding_search_similar (query : string) (top_k : Z)
  : M (app W) (list EmbeddingServiceVercel.search_doc) :=
  EmbeddingServiceVercel.search_similar client
    (fun c name v k => on_world (index_query c name v k)) pc query top_k.

Definition groq_parse_query (query : string)
  : M (app W) (GroqService.or_json Json GroqService.ParsedQuery) :=
  GroqService.parse_query groq_client Json
    (fun c r n => on_world (chat_completion c r n)) json_loads groq query.

Definition groq_generate_detailed_answer (query : string)
    (relevant_texts : list value) : M (app W) string :=
  GroqService.generate_detailed_answer groq_client
    (fun c r n => on_world (chat_completion c r n)) groq query relevant_texts.

Definition get_current_user (credentials : string) : M (app W) string :=
  let api_key := credentials in
  if negb (String.eqb api_key expected_key)
  then raise (HTTPException 401 "Invalid API key")
  else mret api_key.

Definition clock : M (app W) Q :=
  on_world (fun w => let '(t, w') := time_time w in (Returned t, w')).

Definition start_timer : M (app W) Q := clock.

(** An update of the shared performance monitor. *)
Definition update_monitor
    (f : Utils.PerformanceMonitor -> Utils.PerformanceMonitor)
  : M (app W) unit :=
  fun st =>
    (Returned tt,
     App (world st) (f (performance_monitor st)) (webhook_tasks st)).

Definition end_timer (start_time : Q) : M (app W) Q :=
  now ← clock;
  let duration := (now - start_time)%Q in
  update_monitor (Utils.timed duration);;
  mret duration.

Definition record_request (duration : Q) : M (app W) unit :=
  update_monitor (Utils.recorded duration).

(** [asyncio.create_task(submit_to_webhook(answers))] *)
Definition create_webhook_task (results : list string) : M (app W) unit :=
  fun st =>
    (Returned tt,
     App (world st) (performance_monitor st) (webhook_tasks st ++ [results])).

(** The body of [for question in request.questions]: the appended answer. *)
Definition answer_question (question : string) : M (app W) string :=
  parsed_query ← groq_parse_query question;
  similar_clauses ← embedding_search_similar question 5;
  match similar_clauses with
  | [] => mret "No relevant information found in the document."
  | _ :: _ =>
      let relevant_texts :=
        map EmbeddingServiceVercel.doc_text similar_clauses in
      groq_generate_detailed_answer question relevant_texts
  end.

Fixpoint question_loop (questions : list string) (answers : list string)
  : M (app W) (list string) :=
  match questions with
  | [] => mret answers
  | question :: rest =>
      answer ← answer_question question;
      question_loop rest (answers ++ [answer])
  end.

Definition hackrx_run (request : HackrxRequest) (token : string)
  : M (app W) HackrxResponse :=
  start_time ← start_timer;
  try_except
    (document_chunks ← document_parser_process (documents request);
     match document_chunks with
     | [] => raise (HTTPException 400 "Failed to process document")
     | _ :: _ =>
         indexing_success ← embedding_index_documents document_chunks;
         if negb indexing_success
         then raise (HTTPException 500 "Failed to index document")
         else
           answers ← question_loop (questions request) [];
           create_webhook_task answers;;
           processing_time ← end_timer start_time;
           record_request processing_time;;
           mret {| answers := answers |}
     end)
    (fun e =>
       match e with
       | HTTPException _ _ => raise e
       | OtherException _ => raise (HTTPException 500 "Internal server error")
       end).

(** [POST /hackrx/run]: the [Depends(get_current_user)] dependency runs
    before the handler. *)
Definition post_hackrx_run (credentials : string) (request : HackrxRequest)
  : M (app W) HackrxResponse :=
  token ← get_current_user credentials;
  hackrx_run request token.

(** *** The other routes *)

Variable index_delete_all : client -> string -> M W unit.

Definition embedding_clear_index : M (app W) bool :=
  EmbeddingServiceVercel.clear_index client
    (fun c name => on_world (index_delete_all c name)) pc.

Definition clear_index (token : string) : M (app W) (gmap string value) :=
  try_except
    (success ← embedding_clear_index;
     if (success : bool)
     then mret {[ "message" := VStr "Index cleared successfully" ]}
     else raise (HTTPException 500 "Failed to clear index"))
    (fun e =>
       match e with
       | HTTPException _ _ => raise e
       | OtherException _ => raise (HTTPException 500 "Error clearing index")
       end).

(** [DELETE /api/v1/clear-index] *)
Definition delete_clear_index (credentials : string)
  : M (app W) (gmap string value) :=
  token ← get_current_user credentials;
  clear_index token.

End Routes.
End ApiRoutes.

(** ** Vocabulary of the statements *)

(** The characters of a string that are not white space, in order. *)
Fixpoint non_space (s : string) : string :=
  match s with
  | EmptyString => EmptyString
  | String c r => if Py.isspace c then non_space r else String c (non_space r)
  end.

(** [c in s] for a character. *)
Fixpoint has_char (c : ascii) (s : string) : bool :=
  match s with
  | EmptyString => false
  | String a r => Ascii.eqb a c || has_char c r
  end.

(** All the strings of a list, one after the other. *)
Definition concat_strings (l : list string) : string :=
  fold_right String.append EmptyString l.

(** A string as [strip] leaves it when it is not empty: no white space at
    either end. *)
Definition trimmed (s : string) : Prop :=
  s <> EmptyString /\ Py.lstrip s = s /\ Py.rstrip s = s.

(** The running estimate of a chunk: the token counts of its paragraphs,
    added up; the separators between them are not counted. *)
Definition sum_tokens (count_tokens : string -> nat) (g : list string) : Z :=
  fold_right (fun p acc => Z.of_nat (count_tokens p) + acc) 0 g.

(** The text of the chunk made of the paragraphs [g]. *)
Definition chunk_of (g : list string) : string :=
  Py.join (String Py.nl EmptyString) g.

(** What the chunker guarantees of the paragraphs [g] of one chunk. *)
Definition group_ok (count_tokens : string -> nat) (max_tokens : Z)
    (g : list string) : Prop :=
  g <> [] /\
  (sum_tokens count_tokens g <= max_tokens
   \/ exists p, g = [p] /\ max_tokens < Z.of_nat (count_tokens p)).

(** The bound on the chunks of [text] read on the chunk itself: the token
    count of the chunk is within the limit, unless the chunk is one
    paragraph that alone exceeds it. *)
Definition chunk_bound (count_tokens : string -> nat) (max_tokens : Z)
    (text : string) : Prop :=
  forall chunk : string,
    In chunk (DocumentParser.split_into_chunks count_tokens max_tokens text) ->
    Z.of_nat (count_tokens chunk) <= max_tokens
    \/ (In chunk (DocumentParser.paragraphs text)
        /\ max_tokens < Z.of_nat (count_tokens chunk)).

(** The set of lowercase words of a text. *)
Definition word_set (s : string) : gset string :=
  list_to_set (Py.split (Py.lower s)).

(** [|question words ∩ clause words| / |question words|], and 0 for a
    question without words. *)
Definition overlap_ratio (query clause : string) : Q :=
  if (size (word_set query) =? 0)%nat then 0%Q
  else Z.of_nat (size (word_set query ∩ word_set clause))
       # Pos.of_nat (size (word_set query)).

(** The fixed vocabulary of the fallback query parser, in the order in
    which it is scanned. *)
Definition vocabulary : list string :=
  [ "grace period"; "waiting period"; "premium"; "coverage"; "hospital";
    "maternity"; "claim"; "ncd"; "deductible"; "exclusion"; "benefit";
    "policy"; "term"; "renewal"; "cancellation" ].

(** A term occurs in the question, whatever the case of the question. *)
Definition found (term query : string) : bool :=
  Py.contains term (Py.lower query).

(** When a keyword of the vocabulary is reported: when it occurs, and for
    "ncd" also when its long form occurs. *)
Definition listed (query kw : string) : bool :=
  if String.eqb kw "ncd"
  then found "ncd" query || found "no claim discount" query
  else found kw query.

(** The intents and the terms that select them, by decreasing priority. *)
Definition intent_table : list (list string * string) :=
  [ (["grace"; "waiting"], "find_period");
    (["premium"; "payment"], "find_payment_info");
    (["coverage"; "benefit"], "find_coverage");
    (["claim"; "ncd"], "find_claim_info") ].

Fixpoint first_intent (query : string) (table : list (list string * string))
  : string :=
  match table with
  | [] => "general_query"
  | (terms, intent) :: rest =>
      if existsb (fun t => found t query) terms then intent
      else first_intent query rest
  end.

(** A sentence mentions the question: some lowercase word of the question
    occurs in the lowercased sentence. *)
Definition mentions (query sentence : string) : bool :=
  existsb (fun word => Py.contains word (Py.lower sentence))
          (Py.split (Py.lower query)).

(** The stripped period-split sentences of the concatenated texts that
    mention the question, in order. *)
Definition matching_sentences (query : string) (texts : list string)
  : list string :=
  map Py.strip
    (List.filter (mentions query) (Py.split_on Py.dot (Py.join " " texts))).

(** Reading back the two hexadecimal digits of a byte. *)
Definition pair_reads_back (n : nat) : bool :=
  let b := Z.of_nat n in
  match EmbeddingServiceVercel.int16 (String (Hashlib.hex_digit (b / 16))
                 (String (Hashlib.hex_digit (b mod 16)) EmptyString)) with
  | Some v => v =? b
  | None => false
  end.

(** Modelled from the spec: the vector store behind [index.upsert] is
    Pinecone's and is not code of the repository; the spec has it that
    "existing records sharing an id are overwritten". The store is the map
    from ids to records. *)
Definition store_upsert (vectors : list EmbeddingServiceVercel.vector_record)
    (store : gmap string EmbeddingServiceVercel.vector_record)
  : gmap string EmbeddingServiceVercel.vector_record :=
  fold_left (fun m v => <[EmbeddingServiceVercel.vec_id v := v]> m)
            vectors store.

(** [index.upsert] on that store. *)
Definition stored_upsert (c : unit) (name : string)
    (vectors : list EmbeddingServiceVercel.vector_record)
  : M (gmap string EmbeddingServiceVercel.vector_record) unit :=
  fun store => (Returned tt, store_upsert vectors store).

(** The store after [index_documents] has run on it in a process whose
    built-in string hash is [str_hash]. *)
Definition index_run (str_hash : string -> Z)
    (documents : list (gmap string value))
    (store : gmap string EmbeddingServiceVercel.vector_record)
  : gmap string EmbeddingServiceVercel.vector_record :=
  snd (EmbeddingServiceVercel.index_documents unit stored_upsert str_hash
         (Some tt) documents store).

(** A keyed string hash, standing for CPython's: the value depends on the
    seed the process drew at start (here the multiplicative hash CPython
    used before SipHash, on 64 bits). *)
Definition keyed_hash (seed : Z) (s : string) : Z :=
  let step x c := Z.lxor ((1000003 * x) mod 2 ^ 64) (Z.of_N (N_of_ascii c)) in
  Z.lxor
    (fold_left step (list_ascii_of_string s) seed)
    (Z.of_nat (String.length s)).

(** Indexing in a process with hash [h1] and again in a process with hash
    [h2] leaves the store as the first run left it. *)
Definition reindex_overwrites (h1 h2 : string -> Z)
    (documents : list (gmap string value)) : Prop :=
  forall store : gmap string EmbeddingServiceVercel.vector_record,
    index_run h2 documents (index_run h1 documents store)
    = index_run h1 documents store.

(** A computation that leaves the state alone and whose result does not
    depend on it. *)
Definition stateless {St A} (m : M St A) : Prop :=
  exists r : outcome A, forall s : St, m s = (r, s).

(** A small world to run the services on: one document of two
    paragraphs behind every URL, an index that accepts every upsert and
    answers every query with one clause, no LLM, a clock that stands
    still. *)
Module Demo.

Definition document_text : string :=
  String.append "The grace period is 30 days."
    (String Py.nl (String Py.nl "Premium is due monthly.")).

Definition http_get (url : string) : M unit (Z * list Z) :=
  mret (200, Hashlib.encode document_text).

Definition tmp_write (content : list Z) (suffix : string) : M unit string :=
  mret ("/tmp/document" +:+ suffix).

Definition tmp_remove (path : string) : M unit unit := mret tt.

Definition no_reader (path : string) : M unit string :=
  raise (OtherException "not a PDF or DOCX file").

Definition decode (bytes : list Z) : string :=
  string_of_list_ascii (map (fun b => ascii_of_N (Z.to_N b)) bytes).

Definition index_upsert (c : unit) (name : string)
    (vectors : list EmbeddingServiceVercel.vector_record) : M unit unit :=
  mret tt.

Definition clause : EmbeddingServiceVercel.query_match :=
  {| EmbeddingServiceVercel.match_id := "doc_0_0";
     EmbeddingServiceVercel.match_score := 1;
     EmbeddingServiceVercel.match_metadata :=
       Some {[ "text" :=
                 VStr "The grace period is 30 days. Premium is due monthly." ]}
  |}.

Definition index_query (c : unit) (name : string) (vector : list Q)
    (top_k : Z) : M unit (list EmbeddingServiceVercel.query_match) :=
  mret [clause].

Definition empty_query (c : unit) (name : string) (vector : list Q)
    (top_k : Z) : M unit (list EmbeddingServiceVercel.query_match) :=
  mret [].

Definition unreachable {A} (c : unit) (name : string) : M unit A :=
  raise (OtherException "connection refused").

Definition no_chat (c : Empty_set) (r : GroqService.llm_request) (n : Z)
  : M unit string :=
  raise (OtherException "no client").

Definition no_json (s : string) : option unit := None.

Definition time_time (w : unit) : Q * unit := (0%Q, w).

Definition request : ApiRoutes.HackrxRequest :=
  {| ApiRoutes.documents := "https://example.org/policy.txt";
     ApiRoutes.questions :=
       ["What is the grace period?"; "When is the premium due?"] |}.

Definition start : ApiRoutes.app unit :=
  ApiRoutes.App tt
    {| Utils.request_times := []; Utils.request_count := 0;
       Utils.error_count := 0 |} [].

(** The handler on that world, with and without an index client. *)
Definition run (pc : option unit) (credentials : string)
  : M (ApiRoutes.app unit) ApiRoutes.HackrxResponse :=
  ApiRoutes.post_hackrx_run String.length http_get tmp_write tmp_remove
    no_reader no_reader decode unit index_upsert index_query (keyed_hash 0)
    Empty_set unit no_chat no_json time_time pc None credentials request.

(** The same handler on a world whose server has no document: every
    download is answered 404. *)
Definition not_found (url : string) : M unit (Z * list Z) :=
  mret (404, []).

Definition run_not_found (credentials : string)
  : M (ApiRoutes.app unit) ApiRoutes.HackrxResponse :=
  ApiRoutes.post_hackrx_run String.length not_found tmp_write tmp_remove
    no_reader no_reader decode unit index_upsert index_query (keyed_hash 0)
    Empty_set unit no_chat no_json time_time (Some tt) None credentials
    request.

End Demo.

(** The state of the chunker loop after the paragraphs [done]: the closed
    chunks are the groups [gs], the open one holds the paragraphs [cur]. *)
Definition loop_inv (count_tokens : string -> nat) (max_tokens : Z)
    (done : list string) (st : DocumentParser.loop_state) : Prop :=
  exists (gs : list (list string)) (cur : list string),
    DocumentParser.chunks st = map chunk_of gs
    /\ Forall (group_ok count_tokens max_tokens) gs
    /\ Forall (Forall trimmed) gs
    /\ DocumentParser.current_chunk st = chunk_of cur
    /\ DocumentParser.current_tokens st = sum_tokens count_tokens cur
    /\ Forall trimmed cur
    /\ (cur = [] \/ group_ok count_tokens max_tokens cur)
    /\ concat gs ++ cur = done.

(** The surrogate vector of a text: the bytes of its MD5 digest over 255,
    then zeros up to 128 components. *)
Definition surrogate_vector (text : string) : list Q :=
  map (fun b => b # 255) (Hashlib.md5 (Hashlib.encode text))
  ++ repeat 0%Q 112.

(** The record written for the document [doc] at position [i] of a batch,
    [text] being the string under its "text" key. *)
Definition record_of (str_hash : string -> Z) (i : nat)
    (doc : gmap string value) (text : string)
  : EmbeddingServiceVercel.vector_record :=
  {| EmbeddingServiceVercel.vec_id :=
       "doc_" +:+ str_of_nat i +:+ "_"
       +:+ str_of_Z (str_hash (Py.slice_to 100 text));
     EmbeddingServiceVercel.vec_values := surrogate_vector text;
     EmbeddingServiceVercel.vec_metadata :=
       <["text" := VStr (Py.slice_to 1000 text)]>
       (<["source" := dict_get doc "source" (VStr "unknown")]>
       (<["timestamp" := dict_get doc "timestamp" (VStr "")]> ∅)) |}.

(** The records of a batch, from the documents paired with their texts. *)
Definition records_of (str_hash : string -> Z)
    (entries : list (gmap string value * string))
  : list EmbeddingServiceVercel.vector_record :=
  imap (fun i entry => record_of str_hash i (fst entry) (snd entry)) entries.

(** A computation only takes the state to states related to it by [R]. *)
Definition preserves {St A} (R : St -> St -> Prop) (m : M St A) : Prop :=
  forall (s : St) (r : outcome A) (s' : St), m s = (r, s') -> R s s'.

(** Two states of the process with the same performance monitor and the
    same scheduled webhook submissions. *)
Definition same_bookkeeping {W} (s s' : ApiRoutes.app W) : Prop :=
  ApiRoutes.performance_monitor s' = ApiRoutes.performance_monitor s
  /\ ApiRoutes.webhook_tasks s' = ApiRoutes.webhook_tasks s.

(** From the state [s] the questions [qs], taken in order and each in the
    state the one before it left, get the answers [given] and leave the
    state [s']: [answered answer s qs given s']. *)
Inductive answered {St} (answer : string -> M St string)
  : St -> list string -> list string -> St -> Prop :=
| answered_nil (s : St) : answered answer s [] [] s
| answered_cons (s s1 s2 : St) (q a : string) (qs given : list string) :
    answer q s = (Returned a, s1) ->
    answered answer s1 qs given s2 ->
    answered answer s (q :: qs) (a :: given) s2.

(** What leaves the handler for an exception raised inside its [try]: an
    HTTP error as it is, anything else as HTTP 500. *)
Definition as_http_error (e : exn) : exn :=
  match e with
  | HTTPException _ _ => e
  | OtherException _ => HTTPException 500 "Internal server error"
  end.

(** The outcome C5 lists for a request with the valid token, from how
    processing went and, when it ran, how indexing went: HTTP 400 when
    processing yielded no chunks, HTTP 500 when indexing reported
    failure, and otherwise one answer per question. *)
Definition outcome_as_listed
    (processed : outcome (list (gmap string value)))
    (indexed : option (outcome bool)) (questions : list string)
    (r : outcome ApiRoutes.HackrxResponse) : Prop :=
  match processed, indexed with
  | Returned [], _ => exists detail, r = Raised (HTTPException 400 detail)
  | _, Some (Returned false) =>
      exists detail, r = Raised (HTTPException 500 detail)
  | _, _ =>
      exists response,
        r = Returned response
        /\ length (ApiRoutes.answers response) = length questions
  end.

(** * Properties *)

(** ** Strings *)

Section StringFacts.

Lemma append_cons (c : ascii) (a b : string) :
  String c a +:+ b = String c (a +:+ b).
Proof. reflexivity. Qed.

Lemma append_nil_l (b : string) : "" +:+ b = b.
Proof. reflexivity. Qed.


Lemma append_assoc (a b c : string) : (a +:+ b) +:+ c = a +:+ (b +:+ c).
Proof.
  induction a as [|x a IH]; [reflexivity|].
  now rewrite !append_cons, IH.
Qed.

Lemma append_eq_nil (a b : string) : a +:+ b = "" -> a = "" /\ b = "".
Proof. destruct a; [now rewrite append_nil_l | now rewrite append_cons]. Qed.

Lemma non_space_app (a b : string) :
  non_space (a +:+ b) = non_space a +:+ non_space b.
Proof.
  induction a as [|c a IH]; [reflexivity|].
  rewrite append_cons. simpl.
  destruct (Py.isspace c); rewrite ?append_cons; now rewrite IH.
Qed.

Lemma non_space_lstrip (s : string) : non_space (Py.lstrip s) = non_space s.
Proof.
  induction s as [|c r IH]; simpl; [reflexivity|].
  destruct (Py.isspace c) eqn:E; simpl; [exact IH | now rewrite E].
Qed.

Lemma non_space_rstrip (s : string) : non_space (Py.rstrip s) = non_space s.
Proof.
  induction s as [|c r IH]; simpl; [reflexivity|].
  destruct (Py.rstrip r) as [|c' r'] eqn:E.
  - simpl in IH. destruct (Py.isspace c) eqn:Ec; simpl; rewrite ?Ec; now rewrite <- IH.
  - change (non_space (String c (String c' r'))) with
      (if Py.isspace c then non_space (String c' r')
       else String c (non_space (String c' r'))).
    now rewrite IH.
Qed.

Lemma non_space_strip (s : string) : non_space (Py.strip s) = non_space s.
Proof. unfold Py.strip. now rewrite non_space_lstrip, non_space_rstrip. Qed.

Lemma lstrip_idem (s : string) : Py.lstrip (Py.lstrip s) = Py.lstrip s.
Proof.
  induction s as [|c r IH]; simpl; [reflexivity|].
  destruct (Py.isspace c) eqn:E; [exact IH | simpl; now rewrite E].
Qed.

Lemma rstrip_tail (c : ascii) (r : string) :
  Py.rstrip (String c r) = String c r -> Py.rstrip r = r.
Proof.
  simpl. destruct (Py.rstrip r) as [|c' r'] eqn:E.
  - destruct (Py.isspace c); intros H; [discriminate | now inversion H].
  - intros H. now inversion H.
Qed.

Lemma rstrip_lstrip_fixed (s : string) :
  Py.rstrip s = s -> Py.rstrip (Py.lstrip s) = Py.lstrip s.
Proof.
  induction s as [|c r IH]; intros H; simpl; [reflexivity|].
  destruct (Py.isspace c); [apply IH; eapply rstrip_tail; eauto | exact H].
Qed.

Lemma rstrip_idem (s : string) : Py.rstrip (Py.rstrip s) = Py.rstrip s.
Proof.
  induction s as [|c r IH]; simpl; [reflexivity|].
  destruct (Py.rstrip r) as [|c' r'] eqn:E.
  - destruct (Py.isspace c) eqn:Ec; simpl; [reflexivity | now rewrite Ec].
  - change (Py.rstrip (String c (String c' r'))) with
      (match Py.rstrip (String c' r') with
       | EmptyString =>
           if Py.isspace c then EmptyString else String c EmptyString
       | x => String c x
       end).
    now rewrite IH.
Qed.

Lemma strip_trimmed (s : string) :
  Py.truthy (Py.strip s) = true -> trimmed (Py.strip s).
Proof.
  intros H. split; [|split].
  - intros E. rewrite E in H. discriminate.
  - apply lstrip_idem.
  - apply rstrip_lstrip_fixed, rstrip_idem.
Qed.

Lemma trimmed_strip (s : string) : trimmed s -> Py.strip s = s.
Proof. intros (_ & Hl & Hr). unfold Py.strip. now rewrite Hr. Qed.

Lemma rstrip_app (a b : string) :
  b <> EmptyString -> Py.rstrip b = b -> Py.rstrip (a +:+ b) = a +:+ b.
Proof.
  intros Hb Hr. induction a as [|c a IH]; [exact Hr|].
  rewrite append_cons. simpl. rewrite IH.
  destruct (a +:+ b) eqn:E; [|reflexivity].
  apply append_eq_nil in E. tauto.
Qed.

Lemma lstrip_length (a : string) :
  (String.length (Py.lstrip a) <= String.length a)%nat.
Proof.
  induction a as [|x a IH]; simpl; [lia|].
  destruct (Py.isspace x); simpl; lia.
Qed.

Lemma lstrip_app (a b : string) :
  a <> EmptyString -> Py.lstrip a = a -> Py.lstrip (a +:+ b) = a +:+ b.
Proof.
  intros Ha Hl. destruct a as [|c a]; [contradiction|].
  rewrite append_cons. simpl in *.
  destruct (Py.isspace c) eqn:E; [|reflexivity].
  exfalso. pose proof (lstrip_length a) as Hlen.
  rewrite Hl in Hlen. simpl in Hlen. lia.
Qed.

Lemma trimmed_app (a b : string) (c : ascii) :
  trimmed a -> trimmed b -> trimmed (a +:+ String c b).
Proof.
  intros (Ha & Hal & Har) (Hb & Hbl & Hbr). split; [|split].
  - intros E. apply append_eq_nil in E. tauto.
  - now apply lstrip_app.
  - change (String c b) with (String c "" +:+ b).
    rewrite <- append_assoc. now apply rstrip_app.
Qed.

End StringFacts.

Section SplitJoinFacts.

Variable sep : ascii.

Lemma split_on_not_nil (s : string) : Py.split_on sep s <> [].
Proof.
  destruct s as [|c r]; simpl; [discriminate|].
  destruct (Ascii.eqb c sep); [discriminate|].
  destruct (Py.split_on sep r); discriminate.
Qed.

Lemma split_on_no_sep (s : string) :
  Forall (fun w => has_char sep w = false) (Py.split_on sep s).
Proof.
  induction s as [|c r IH]; simpl; [repeat constructor|].
  destruct (Ascii.eqb c sep) eqn:E; [constructor; [reflexivity | exact IH]|].
  destruct (Py.split_on sep r) as [|w ws]; inversion IH; subst;
    constructor; simpl; rewrite ?E; auto.
Qed.

Lemma split_on_without (s : string) :
  has_char sep s = false -> Py.split_on sep s = [s].
Proof.
  induction s as [|c r IH]; simpl; [reflexivity|].
  intros H. apply orb_false_iff in H as [Hc Hr].
  rewrite Hc, (IH Hr). reflexivity.
Qed.

Lemma split_on_app (a b : string) :
  has_char sep a = false ->
  Py.split_on sep (a +:+ String sep b) = a :: Py.split_on sep b.
Proof.
  induction a as [|c a IH]; intros H.
  - rewrite append_nil_l. simpl. now rewrite Ascii.eqb_refl.
  - simpl in H. apply orb_false_iff in H as [Hc Ha].
    rewrite append_cons. simpl. rewrite Hc, (IH Ha). reflexivity.
Qed.

Lemma join_cons2 (s x y : string) (r : list string) :
  Py.join s (x :: y :: r) = x +:+ s +:+ Py.join s (y :: r).
Proof. reflexivity. Qed.

Lemma join_snoc (s p : string) (g : list string) :
  g <> [] -> Py.join s (g ++ [p]) = Py.join s g +:+ s +:+ p.
Proof.
  induction g as [|x g IH]; intros H; [contradiction|].
  destruct g as [|y g]; [reflexivity|].
  change ((x :: y :: g) ++ [p]) with (x :: y :: (g ++ [p])).
  rewrite !join_cons2. change (y :: g ++ [p]) with ((y :: g) ++ [p]).
  rewrite IH by discriminate. now rewrite !append_assoc.
Qed.

Lemma split_on_join (g : list string) :
  g <> [] -> Forall (fun w => has_char sep w = false) g ->
  Py.split_on sep (Py.join (String sep EmptyString) g) = g.
Proof.
  induction g as [|x g IH]; intros Hne Hg; [contradiction|].
  inversion Hg as [|? ? Hx Hg']; subst.
  destruct g as [|y g]; [now apply split_on_without|].
  rewrite join_cons2, append_cons, append_nil_l.
  rewrite split_on_app by assumption. f_equal.
  apply IH; [discriminate | assumption].
Qed.

Lemma non_space_split_on (s : string) :
  Py.isspace sep = true ->
  concat_strings (map non_space (Py.split_on sep s)) = non_space s.
Proof.
  intros Hsp. induction s as [|c r IH]; simpl; [reflexivity|].
  destruct (Ascii.eqb c sep) eqn:E.
  - apply Ascii.eqb_eq in E. subst c. rewrite Hsp. simpl. exact IH.
  - pose proof (split_on_not_nil r) as Hne.
    destruct (Py.split_on sep r) as [|w ws]; [contradiction|].
    simpl in *. rewrite <- IH.
    destruct (Py.isspace c); rewrite ?append_cons; reflexivity.
Qed.


Lemma trimmed_join (g : list string) :
  g <> [] -> Forall trimmed g ->
  trimmed (Py.join (String sep EmptyString) g).
Proof.
  induction g as [|x g IH]; intros Hne Hg; [contradiction|].
  inversion Hg as [|? ? Hx Hg']; subst.
  destruct g as [|y g]; [exact Hx|].
  rewrite join_cons2, append_cons, append_nil_l.
  apply trimmed_app; [exact Hx | apply IH; [discriminate | assumption]].
Qed.

End SplitJoinFacts.

Lemma has_char_lstrip (c : ascii) (s : string) :
  has_char c s = false -> has_char c (Py.lstrip s) = false.
Proof.
  induction s as [|a r IH]; simpl; [reflexivity|].
  intros H. destruct (Py.isspace a); [|exact H].
  apply orb_false_iff in H as [_ Hr]. auto.
Qed.

Lemma has_char_rstrip (c : ascii) (s : string) :
  has_char c s = false -> has_char c (Py.rstrip s) = false.
Proof.
  induction s as [|a r IH]; simpl; [reflexivity|].
  intros H. apply orb_false_iff in H as [Ha Hr]. specialize (IH Hr).
  destruct (Py.rstrip r) as [|a' r'].
  - destruct (Py.isspace a); simpl; [reflexivity | now rewrite Ha].
  - simpl in *. now rewrite Ha.
Qed.

Lemma has_char_strip (c : ascii) (s : string) :
  has_char c s = false -> has_char c (Py.strip s) = false.
Proof. intros H. now apply has_char_lstrip, has_char_rstrip. Qed.

Lemma strip_falsy_non_space (s : string) :
  Py.truthy (Py.strip s) = false -> non_space s = "".
Proof.
  intros H. rewrite <- non_space_strip.
  destruct (Py.strip s); [reflexivity | discriminate].
Qed.

(** ** The chunker *)

Section ChunkerFacts.

Import DocumentParser.

Variable count_tokens : string -> nat.
Variable max_tokens : Z.

Abbreviation body := (loop_body count_tokens max_tokens).
Abbreviation ok := (group_ok count_tokens max_tokens).
Abbreviation inv := (loop_inv count_tokens max_tokens).

Lemma paragraphs_trimmed (text : string) : Forall trimmed (paragraphs text).
Proof.
  unfold paragraphs. induction (Py.split_on Py.nl text) as [|l ls IH];
    simpl; [constructor|].
  destruct (Py.truthy (Py.strip l)) eqn:E; [|exact IH].
  constructor; [now apply strip_trimmed | exact IH].
Qed.


Lemma paragraphs_non_space (text : string) :
  concat_strings (map non_space (paragraphs text)) = non_space text.
Proof.
  rewrite <- (non_space_split_on Py.nl text) by reflexivity.
  unfold paragraphs. induction (Py.split_on Py.nl text) as [|l ls IH];
    simpl; [reflexivity|].
  destruct (Py.truthy (Py.strip l)) eqn:E; simpl.
  - now rewrite non_space_strip, IH.
  - now rewrite (strip_falsy_non_space l E), IH.
Qed.

Lemma chunk_of_truthy (cur : list string) :
  Forall trimmed cur -> Py.truthy (chunk_of cur) = negb (bool_decide (cur = [])).
Proof.
  intros H. destruct cur as [|x cur]; [reflexivity|].
  destruct (trimmed_join Py.nl (x :: cur)) as (Hne & _); [discriminate | exact H|].
  fold (chunk_of (x :: cur)) in Hne.
  destruct (chunk_of (x :: cur)); [contradiction | reflexivity].
Qed.

Lemma chunk_of_strip (cur : list string) :
  cur <> [] -> Forall trimmed cur -> Py.strip (chunk_of cur) = chunk_of cur.
Proof. intros Hne H. now apply trimmed_strip, trimmed_join. Qed.

Lemma sum_tokens_snoc (g : list string) (p : string) :
  sum_tokens count_tokens (g ++ [p])
  = sum_tokens count_tokens g + Z.of_nat (count_tokens p).
Proof. induction g as [|x g IH]; simpl; [lia | rewrite IH; lia]. Qed.

Lemma singleton_ok (p : string) : ok [p].
Proof.
  split; [discriminate|]. simpl.
  destruct (Z_le_gt_dec (Z.of_nat (count_tokens p)) max_tokens);
    [left; lia | right; exists p; split; [reflexivity | lia]].
Qed.

Lemma loop_body_inv (done : list string) (st : loop_state) (p : string) :
  trimmed p -> inv done st -> inv (done ++ [p]) (body st p).
Proof.
  intros Hp (gs & cur & Hch & Hgs & Htr & Hcur & Htok & Hct & Hok & Hdone).
  unfold loop_body. rewrite Hcur, Htok, (chunk_of_truthy cur Hct).
  destruct (decide (cur = [])) as [->|Hne].
  - (* nothing open: the paragraph opens a chunk *)
    rewrite andb_false_r. exists gs, [p]. simpl. split_and!.
    + exact Hch.
    + exact Hgs.
    + exact Htr.
    + reflexivity.
    + lia.
    + constructor; [exact Hp | constructor].
    + right. apply singleton_ok.
    + now rewrite <- Hdone, app_nil_r.
  - destruct Hok as [Hok|Hok]; [contradiction|].
    rewrite bool_decide_eq_false_2 by assumption.
    simpl negb. rewrite andb_true_r.
    destruct (sum_tokens count_tokens cur + Z.of_nat (count_tokens p)
              >? max_tokens) eqn:E; cbv iota.
    + (* the open chunk is closed, the paragraph opens the next *)
      exists (gs ++ [cur]), [p]. cbn [chunks current_chunk current_tokens].
      rewrite chunk_of_strip by assumption. split_and!.
      * rewrite Hch, map_app. reflexivity.
      * apply Forall_app; split; [exact Hgs | constructor; [exact Hok | constructor]].
      * apply Forall_app; split; [exact Htr | constructor; [exact Hct | constructor]].
      * reflexivity.
      * simpl. lia.
      * constructor; [exact Hp | constructor].
      * right. apply singleton_ok.
      * rewrite concat_app, <- Hdone. simpl concat.
        now rewrite app_nil_r.
    + (* the paragraph joins the open chunk *)
      exists gs, (cur ++ [p]). cbn [chunks current_chunk current_tokens].
      split_and!.
      * exact Hch.
      * exact Hgs.
      * exact Htr.
      * unfold chunk_of. rewrite join_snoc by assumption.
        now rewrite append_cons, append_nil_l.
      * now rewrite sum_tokens_snoc.
      * apply Forall_app; split; [exact Hct | constructor; [exact Hp | constructor]].
      * right. split; [now destruct cur|]. left.
        rewrite sum_tokens_snoc. lia.
      * rewrite <- Hdone. now rewrite <- app_assoc.
Qed.

Lemma loop_inv_fold (ps done : list string) (st : loop_state) :
  Forall trimmed ps -> inv done st ->
  inv (done ++ ps) (fold_left body ps st).
Proof.
  revert done st. induction ps as [|p ps IH]; intros done st Hps Hinv; simpl.
  - now rewrite app_nil_r.
  - inversion Hps; subst.
    replace (done ++ p :: ps) with ((done ++ [p]) ++ ps)
      by now rewrite <- app_assoc.
    apply IH; [assumption | now apply loop_body_inv].
Qed.

Lemma loop_inv_init : inv [] loop_init.
Proof.
  exists [], []. split_and!; auto; constructor.
Qed.

(** The chunks are the groups of a partition of the paragraphs into runs. *)
Lemma split_into_chunks_groups (text : string) :
  exists gs : list (list string),
    split_into_chunks count_tokens max_tokens text = map chunk_of gs
    /\ concat gs = paragraphs text
    /\ Forall ok gs
    /\ Forall (Forall trimmed) gs.
Proof.
  unfold split_into_chunks.
  destruct (loop_inv_fold (paragraphs text) [] loop_init
              (paragraphs_trimmed text) loop_inv_init)
    as (gs & cur & Hch & Hgs & Htr & Hcur & _ & Hct & Hok & Hdone).
  cbv zeta. rewrite Hcur, (chunk_of_truthy cur Hct).
  destruct (decide (cur = [])) as [->|Hne].
  - exists gs. simpl. rewrite app_nil_r in Hdone. auto.
  - destruct Hok as [Hok|Hok]; [contradiction|].
    rewrite bool_decide_eq_false_2 by assumption.
    exists (gs ++ [cur]). simpl negb. cbv iota.
    rewrite chunk_of_strip by assumption.
    rewrite Hch, map_app, concat_app. simpl. rewrite app_nil_r. split_and!.
    + reflexivity.
    + exact Hdone.
    + apply Forall_app; split; [exact Hgs | constructor; [exact Hok | constructor]].
    + apply Forall_app; split; [exact Htr | constructor; [exact Hct | constructor]].
Qed.

End ChunkerFacts.


Lemma non_space_concat_strings (l : list string) :
  non_space (concat_strings l) = concat_strings (map non_space l).
Proof.
  induction l as [|x l IH]; [reflexivity|].
  simpl. now rewrite non_space_app, IH.
Qed.



(** C1, as amended. Whatever the tokenizer and the limit, the chunks of a
    text are the newline-joined runs of a partition of its paragraphs (the
    stripped non-blank lines, in order), and for every chunk the running
    estimate the chunker keeps, the sum of the token counts of its
    paragraphs, is at most the limit, unless the chunk is a single
    paragraph whose own token count exceeds the limit. *)
Theorem split_into_chunks_running_estimate
    (count_tokens : string -> nat) (max_tokens : Z) (text : string) :
  exists gs : list (list string),
    DocumentParser.split_into_chunks count_tokens max_tokens text
    = map chunk_of gs
    /\ concat gs = DocumentParser.paragraphs text
    /\ Forall (fun g =>
                 g <> [] /\
                 (sum_tokens count_tokens g <= max_tokens
                  \/ exists p, g = [p] /\ chunk_of g = p
                               /\ max_tokens < Z.of_nat (count_tokens p)))
              gs.
Proof.
  destruct (split_into_chunks_groups count_tokens max_tokens text)
    as (gs & Hch & Hcat & Hok & _).
  exists gs. split_and!; [exact Hch | exact Hcat |].
  eapply Forall_impl; [exact Hok|].
  intros g (Hne & [Hsum | (p & -> & Hp)]); split; auto.
  right. exists p. auto.
Qed.

(** C1, as stated, fails: with a limit of 2 tokens and a tokenizer that
    spends one token per character (as cl100k_base does on the three
    strings involved), the lines "a" and "b" have estimate 1 + 1 = 2 and
    are joined into one chunk of 3 tokens, which is not a single
    paragraph. *)
Lemma chunk_bound_fails :
  ~ chunk_bound String.length 2 (String "a" (String Py.nl "b")).
Proof.
  intros H.
  destruct (H (String "a" (String Py.nl "b"))) as [Hle | [Hin _]].
  - vm_compute. auto.
  - vm_compute in Hle. apply Hle. reflexivity.
  - vm_compute in Hin. destruct Hin as [E | [E | []]]; discriminate.
Qed.


(** ** The fallback clause evaluation *)

Lemma ratio_le_1 (a b : nat) :
  (a <= b)%nat -> (0 < b)%nat ->
  Qle_bool (Z.of_nat a # Pos.of_nat b) 1 = true.
Proof.
  intros Hab Hb. apply Qle_bool_iff. unfold Qle. simpl.
  rewrite Z.mul_1_r, Z.mul_1_l.
  rewrite <- positive_nat_Z, Nat2Pos.id by lia. lia.
Qed.

Lemma overlap_le (query clause : string) :
  (size (word_set query ∩ word_set clause) <= size (word_set query))%nat.
Proof. apply subseteq_size, intersection_subseteq_l. Qed.

Lemma fallback_evaluate_clause_unfold (query clause : string) :
  GroqService._fallback_evaluate_clause query clause
  = let confidence := overlap_ratio query clause in
    let overlap := size (word_set query ∩ word_set clause) in
    if GroqService.gt_0_3 confidence then
      {| GroqService.answer := "yes";
         GroqService.direct_answer :=
           if Py.len clause >? 200 then Py.slice_to 200 clause +:+ "..."
           else clause;
         GroqService.explanation :=
           "Clause contains " +:+ str_of_nat overlap +:+ " relevant keywords";
         GroqService.confidence := confidence |}
    else
      {| GroqService.answer := "no";
         GroqService.direct_answer := "No relevant information found";
         GroqService.explanation := "Clause doesn't contain relevant keywords";
         GroqService.confidence := confidence |}.
Proof.
  unfold GroqService._fallback_evaluate_clause, overlap_ratio.
  fold (word_set query). fold (word_set clause). cbv zeta.
  destruct (Nat.eqb_spec (size (word_set query)) 0); [reflexivity|].
  unfold GroqService.min_1.
  rewrite ratio_le_1; [reflexivity | apply overlap_le | lia].
Qed.

Lemma overlap_ratio_range (query clause : string) :
  (0 <= overlap_ratio query clause <= 1)%Q.
Proof.
  unfold overlap_ratio.
  destruct (Nat.eqb_spec (size (word_set query)) 0); [split; discriminate|].
  split.
  - unfold Qle. simpl. lia.
  - apply Qle_bool_iff, ratio_le_1; [apply overlap_le | lia].
Qed.

Lemma gt_0_3_iff (x : Q) : GroqService.gt_0_3 x = true <-> (3 # 10 < x)%Q.
Proof.
  unfold GroqService.gt_0_3. rewrite negb_true_iff.
  destruct (Qle_bool x (3 # 10)) eqn:E.
  - apply Qle_bool_iff in E. split; [discriminate|].
    intros H. exfalso. eapply Qlt_not_le; eauto.
  - split; [intros _ | reflexivity]. apply Qnot_le_lt. intros H.
    apply Qle_bool_iff in H. congruence.
Qed.

(** C2. The fallback evaluation of a clause has as confidence the number
    of distinct lowercase question words that are also clause words over
    the number of distinct question words (0 for a question without
    words), a value between 0 and 1; its answer is "yes" exactly when the
    confidence is above 0.3 and "no" otherwise; with "yes" the direct
    answer is the clause, cut to its first 200 characters followed by
    "..." when it is longer than 200, and with "no" it is the fixed
    sentence. On "Is knee surgery covered?" and "Knee surgery is covered
    under this policy." the confidence is 3/4 and the answer "yes". *)
Theorem fallback_evaluate_clause_spec (query clause : string) :
  let r := GroqService._fallback_evaluate_clause query clause in
  GroqService.confidence r = overlap_ratio query clause
  /\ (0 <= GroqService.confidence r <= 1)%Q
  /\ (GroqService.answer r = "yes" <-> (3 # 10 < GroqService.confidence r)%Q)
  /\ (GroqService.answer r = "yes" \/ GroqService.answer r = "no")
  /\ (GroqService.answer r = "yes" ->
      GroqService.direct_answer r
      = if Py.len clause >? 200 then Py.slice_to 200 clause +:+ "..."
        else clause)
  /\ (GroqService.answer r = "no" ->
      GroqService.direct_answer r = "No relevant information found")
  /\ (let e := GroqService._fallback_evaluate_clause
                 "Is knee surgery covered?"
                 "Knee surgery is covered under this policy." in
      (3 # 10 < GroqService.confidence e)%Q /\ GroqService.answer e = "yes").
Proof.
  intros r. subst r. rewrite fallback_evaluate_clause_unfold. cbv zeta.
  pose proof (gt_0_3_iff (overlap_ratio query clause)) as Hgt.
  destruct (overlap_ratio_range query clause) as [Hlo Hhi].
  split; [|split; [|split; [|split; [|split; [|split]]]]].
  - now destruct (GroqService.gt_0_3 _).
  - now destruct (GroqService.gt_0_3 _).
  - destruct (GroqService.gt_0_3 _); cbn [GroqService.answer GroqService.confidence].
    + split; [intros _; now apply Hgt | reflexivity].
    + split; [intros H; discriminate H | intros H; apply Hgt in H; discriminate H].
  - destruct (GroqService.gt_0_3 _); auto.
  - destruct (GroqService.gt_0_3 _); [reflexivity | discriminate].
  - destruct (GroqService.gt_0_3 _); [discriminate | reflexivity].
  - vm_compute. split; reflexivity.
Qed.

(** ** The fallback query parser *)

Lemma append_if_fold (P : string -> bool) (l acc : list string) :
  fold_left (fun acc kw => GroqService.append_if (P kw) kw acc) l acc
  = acc ++ List.filter P l.
Proof.
  revert acc. induction l as [|kw l IH]; intros acc; simpl.
  - now rewrite app_nil_r.
  - rewrite IH. unfold GroqService.append_if.
    destruct (P kw); [now rewrite <- app_assoc | reflexivity].
Qed.

Lemma fallback_entities (query : string) :
  GroqService.entities (GroqService._fallback_parse_query query)
  = List.filter (listed query) vocabulary.
Proof.
  rewrite <- (app_nil_l (List.filter _ _)), <- append_if_fold.
  reflexivity.
Qed.

Lemma fallback_intent (query : string) :
  GroqService.intent (GroqService._fallback_parse_query query)
  = first_intent query intent_table.
Proof.
  unfold GroqService._fallback_parse_query, first_intent, intent_table,
    Py.any, found.
  cbn [GroqService.intent existsb].
  repeat match goal with
         | |- context [Py.contains ?t ?q] =>
             destruct (Py.contains t q); cbn [orb]; try reflexivity
         end.
Qed.

(** C7, as stated, fails on the entities: for "What is the no claim
    discount?" the parser reports "ncd", which does not occur in the
    question. *)
Lemma fallback_entities_not_only_found :
  GroqService.entities
    (GroqService._fallback_parse_query "What is the no claim discount?")
  <> List.filter (fun kw => found kw "What is the no claim discount?")
       vocabulary.
Proof. vm_compute. discriminate. Qed.

(** C7, as amended. The fallback query parser returns no conditions; its
    entities are the keywords of the fixed vocabulary, in vocabulary order,
    that occur in the lowercased question, where "ncd" is reported also
    when "no claim discount" occurs; its intent is the one of the first
    group of terms, in the order period, payment, coverage, claim, one of
    whose terms occurs in the lowercased question, and general_query when
    none does. For "What is the grace period for premium payment?" the
    entities are "grace period" and "premium" and the intent is
    find_period. *)
Theorem fallback_parse_query_spec (query : string) :
  let r := GroqService._fallback_parse_query query in
  GroqService.conditions r = []
  /\ GroqService.entities r = List.filter (listed query) vocabulary
  /\ GroqService.intent r = first_intent query intent_table
  /\ (let e := GroqService._fallback_parse_query
                 "What is the grace period for premium payment?" in
      In "grace period" (GroqService.entities e)
      /\ In "premium" (GroqService.entities e)
      /\ GroqService.intent e = "find_period").
Proof.
  intros r. subst r.
  split; [reflexivity|].
  split; [apply fallback_entities|].
  split; [apply fallback_intent|].
  vm_compute. tauto.
Qed.

(** ** The fallback answer *)

Lemma collect_sentence_fold (query : string) (sentences acc : list string) :
  fold_left (GroqService.collect_sentence (Py.lower query)) sentences acc
  = acc ++ map Py.strip (List.filter (mentions query) sentences).
Proof.
  revert acc. induction sentences as [|x l IH]; intros acc; simpl.
  - now rewrite app_nil_r.
  - rewrite IH. unfold GroqService.collect_sentence, Py.any.
    fold (mentions query x).
    destruct (mentions query x); simpl; [now rewrite <- app_assoc | reflexivity].
Qed.

Lemma endswith_char_app (c : ascii) (a b : string) :
  b <> "" -> Py.endswith_char c (a +:+ b) = Py.endswith_char c b.
Proof.
  intros Hb. induction a as [|x a IH]; [reflexivity|].
  rewrite append_cons. simpl. rewrite IH.
  destruct (a +:+ b) eqn:E; [|reflexivity].
  apply append_eq_nil in E. tauto.
Qed.

Lemma endswith_char_absent (c : ascii) (s : string) :
  has_char c s = false -> Py.endswith_char c s = false.
Proof.
  induction s as [|x s IH]; [reflexivity|]. simpl.
  intros H. apply orb_false_iff in H as [Hx Hs].
  destruct s; [exact Hx | auto].
Qed.

Lemma join_no_trailing_dot (l : list string) :
  Forall (fun w => has_char Py.dot w = false) l ->
  Py.endswith_char Py.dot (Py.join ". " l) = false.
Proof.
  induction 1 as [|x l Hx Hl IH]; [reflexivity|].
  destruct l as [|y l]; [now apply endswith_char_absent|].
  rewrite join_cons2, endswith_char_app.
  - change (". " +:+ Py.join ". " (y :: l))
      with (String "." (String " " (Py.join ". " (y :: l)))).
    destruct (Py.join ". " (y :: l)) as [|a r]; [reflexivity|].
    exact IH.
  - discriminate.
Qed.

Lemma matching_sentences_no_dot (query : string) (texts : list string) :
  Forall (fun w => has_char Py.dot w = false) (matching_sentences query texts).
Proof.
  unfold matching_sentences.
  pose proof (split_on_no_sep Py.dot (Py.join " " texts)) as H.
  induction H as [|x l Hx _ IH]; simpl; [constructor|].
  destruct (mentions query x); [|exact IH].
  constructor; [now apply has_char_strip | exact IH].
Qed.

(** C8. Without relevant texts the fallback answer is the fixed sentence.
    Otherwise, with the texts joined by a space and split at the periods:
    when some sentence contains a lowercase word of the question, the
    answer is the first three such sentences at most, stripped, joined by
    ". " and closed by a period; when none does, the answer is the joined
    text, cut to its first 500 characters followed by "..." when it is
    longer than 500. *)
Theorem fallback_generate_answer_spec (query : string) (texts : list string) :
  GroqService._fallback_generate_answer query [] =
    "No relevant information found in the document."
  /\ (texts <> [] ->
      matching_sentences query texts <> [] ->
      GroqService._fallback_generate_answer query texts
      = Py.join ". " (firstn 3 (matching_sentences query texts)) +:+ "."
      /\ Py.endswith_char Py.dot
           (GroqService._fallback_generate_answer query texts) = true)
  /\ (texts <> [] ->
      matching_sentences query texts = [] ->
      GroqService._fallback_generate_answer query texts
      = if Py.len (Py.join " " texts) >? 500
        then Py.slice_to 500 (Py.join " " texts) +:+ "..."
        else Py.join " " texts).
Proof.
  assert (Hun : texts <> [] ->
    GroqService._fallback_generate_answer query texts
    = match matching_sentences query texts with
      | _ :: _ =>
          let a := Py.join ". " (firstn 3 (matching_sentences query texts)) in
          if negb (Py.endswith_char Py.dot a) then a +:+ "." else a
      | [] =>
          if Py.len (Py.join " " texts) >? 500
          then Py.slice_to 500 (Py.join " " texts) +:+ "..."
          else Py.join " " texts
      end).
  { intros Hne. destruct texts as [|t ts]; [contradiction|].
    unfold GroqService._fallback_generate_answer. cbv zeta.
    rewrite collect_sentence_fold. reflexivity. }
  split; [reflexivity|]. split.
  - intros Hne Hms. rewrite (Hun Hne).
    destruct (matching_sentences query texts) as [|m ms] eqn:E;
      [contradiction|].
    cbv zeta. rewrite join_no_trailing_dot.
    + simpl negb. cbv iota. split; [reflexivity|].
      rewrite endswith_char_app by discriminate. reflexivity.
    + apply Forall_take. rewrite <- E. apply matching_sentences_no_dot.
  - intros Hne Hms. rewrite (Hun Hne), Hms. reflexivity.
Qed.

(** A run of C8: two of the three sentences mention the question. *)
Lemma fallback_generate_answer_run :
  [ "The Grace Period is 30 days. Premium is due. No grace." ] <> []
  /\ matching_sentences "grace period"
       [ "The Grace Period is 30 days. Premium is due. No grace." ] <> []
  /\ GroqService._fallback_generate_answer "grace period"
       [ "The Grace Period is 30 days. Premium is due. No grace." ]
     = "The Grace Period is 30 days. No grace.".
Proof.
  split; [discriminate|]. split; [vm_compute; discriminate|].
  destruct (fallback_generate_answer_spec "grace period"
              [ "The Grace Period is 30 days. Premium is due. No grace." ])
    as (_ & H & _).
  destruct H as [-> _]; [discriminate | vm_compute; discriminate|].
  vm_compute. reflexivity.
Defined.

(** ** The surrogate embedder *)

Section EmbedderFacts.

Import EmbeddingServiceVercel.

Lemma le_bytes_length (n : nat) (x : Z) : length (Hashlib.le_bytes n x) = n.
Proof. unfold Hashlib.le_bytes. now rewrite length_map, length_seq. Qed.

Lemma le_bytes_range (n : nat) (x : Z) :
  Forall (fun b => 0 <= b < 256) (Hashlib.le_bytes n x).
Proof.
  unfold Hashlib.le_bytes. apply Forall_forall. intros b Hb.
  apply list_elem_of_In, in_map_iff in Hb as (k & <- & _).
  apply Z.mod_pos_bound. lia.
Qed.

Lemma md5_length (msg : list Z) : length (Hashlib.md5 msg) = 16%nat.
Proof.
  unfold Hashlib.md5. cbv zeta.
  now rewrite !length_app, !le_bytes_length.
Qed.

Lemma md5_range (msg : list Z) :
  Forall (fun b => 0 <= b < 256) (Hashlib.md5 msg).
Proof.
  unfold Hashlib.md5. cbv zeta.
  repeat (apply Forall_app; split); apply le_bytes_range.
Qed.

Lemma int16_hex_pair (b : Z) :
  0 <= b < 256 ->
  int16 (String (Hashlib.hex_digit (b / 16))
           (String (Hashlib.hex_digit (b mod 16)) EmptyString)) = Some b.
Proof.
  intros Hb.
  assert (Hall : forallb pair_reads_back (seq 0 256) = true)
    by (vm_compute; reflexivity).
  rewrite forallb_forall in Hall.
  assert (Hin : In (Z.to_nat b) (seq 0 256)) by (apply in_seq; lia).
  specialize (Hall (Z.to_nat b) Hin).
  unfold pair_reads_back in Hall. rewrite Z2Nat.id in Hall by lia.
  cbv zeta in Hall.
  destruct (int16 _) as [v|]; [|discriminate Hall].
  f_equal. now apply Z.eqb_eq.
Qed.

Lemma hash_loop_hex (bytes : list Z) (vector : list Q) :
  Forall (fun b => 0 <= b < 256) bytes ->
  (length vector + length bytes <= 128)%nat ->
  hash_loop (Hashlib.hex bytes) vector
  = Some (vector ++ map (fun b => b # 255) bytes).
Proof.
  intros Hr. revert vector.
  induction Hr as [|b bytes Hb _ IH]; intros vector Hlen.
  - simpl. now rewrite app_nil_r.
  - cbn [Hashlib.hex hash_loop]. simpl length in Hlen.
    destruct (Nat.leb_spec 128 (length vector)); [lia|].
    rewrite (int16_hex_pair b Hb), IH.
    + now rewrite <- app_assoc.
    + rewrite length_app. simpl. lia.
Qed.

(** The vector of a text: the 16 bytes of its digest over 255, then 112
    zeros. *)
Lemma simple_text_to_vector_eq (text : string) :
  _simple_text_to_vector text
  = Some (map (fun b => b # 255) (Hashlib.md5 (Hashlib.encode text))
          ++ repeat 0%Q 112).
Proof.
  unfold _simple_text_to_vector, vector_of_hash, Hashlib.md5_hexdigest.
  pose proof (md5_length (Hashlib.encode text)) as Hl.
  rewrite hash_loop_hex; [|apply md5_range | simpl; lia].
  reflexivity.
Qed.

Lemma byte_ratio_range (b : Z) : 0 <= b < 256 -> (0 <= b # 255 <= 1)%Q.
Proof. intros Hb. unfold Qle. simpl. lia. Qed.

Lemma byte_ratio_inj (l k : list Z) :
  map (fun b => b # 255) l = map (fun b => b # 255) k -> l = k.
Proof.
  revert k. induction l as [|x l IH]; intros [|y k] H; try discriminate;
    [reflexivity|].
  simpl in H. inversion H; subst. f_equal. auto.
Qed.

End EmbedderFacts.

(** C3. The surrogate embedding of a text never raises and is a vector
    of 128 components, each between 0 and 1; embedding the text twice in
    one batch gives that vector twice; and two texts have the same vector
    exactly when the MD5 digests of their UTF-8 encodings are the same. *)
Theorem simple_text_to_vector_pure (text other : string) :
  (exists v : list Q,
     EmbeddingServiceVercel._simple_text_to_vector text = Some v
     /\ length v = 128%nat
     /\ Forall (fun x => (0 <= x <= 1)%Q) v
     /\ EmbeddingServiceVercel.get_embeddings [VStr text; VStr text]
        = [v; v])
  /\ (EmbeddingServiceVercel._simple_text_to_vector text
      = EmbeddingServiceVercel._simple_text_to_vector other
      <-> Hashlib.md5_hexdigest (Hashlib.encode text)
          = Hashlib.md5_hexdigest (Hashlib.encode other)).
Proof.
  split.
  - eexists. split; [apply simple_text_to_vector_eq|]. split; [|split].
    + rewrite length_app, length_map, md5_length, repeat_length. reflexivity.
    + apply Forall_app. split.
      * apply Forall_map. eapply Forall_impl; [apply md5_range|].
        intros b Hb. now apply byte_ratio_range.
      * apply Forall_forall. intros x Hx.
        apply list_elem_of_In, repeat_spec in Hx. subst x.
        split; discriminate.
    + unfold EmbeddingServiceVercel.get_embeddings. simpl.
      now rewrite simple_text_to_vector_eq.
  - split.
    + rewrite !simple_text_to_vector_eq. intros H.
      apply (inj Some), app_inv_tail, byte_ratio_inj in H.
      unfold Hashlib.md5_hexdigest. now rewrite H.
    + unfold EmbeddingServiceVercel._simple_text_to_vector. now intros ->.
Qed.

(** C10. In the surrogate embedding of any text the components at
    indices 16 to 127 are 0.0: the digest gives 16 byte pairs and the
    padding the other 112; so the components from index 16 on are the same
    for all texts. *)
Theorem simple_text_to_vector_zero_tail (text : string) :
  exists v : list Q,
    EmbeddingServiceVercel._simple_text_to_vector text = Some v
    /\ skipn 16 v = repeat 0%Q 112
    /\ (forall i : nat, (16 <= i < 128)%nat -> nth_error v i = Some 0%Q)
    /\ (forall other : string,
          exists w : list Q,
            EmbeddingServiceVercel._simple_text_to_vector other = Some w
            /\ skipn 16 w = skipn 16 v).
Proof.
  assert (Htail : forall t,
    skipn 16 (map (fun b => b # 255) (Hashlib.md5 (Hashlib.encode t))
              ++ repeat 0%Q 112) = repeat 0%Q 112).
  { intros t. rewrite skipn_app, length_map, md5_length.
    rewrite skipn_all2 by (rewrite length_map, md5_length; lia).
    reflexivity. }
  eexists. split; [apply simple_text_to_vector_eq|]. split; [|split].
  - apply Htail.
  - intros i Hi. rewrite nth_error_app2
      by (rewrite length_map, md5_length; lia).
    rewrite length_map, md5_length. apply nth_error_repeat. lia.
  - intros other. eexists. split; [apply simple_text_to_vector_eq|].
    now rewrite !Htail.
Qed.

(** A run of C10: component 16 of the embedding of "abc". *)
Lemma simple_text_to_vector_zero_tail_run :
  exists v : list Q,
    EmbeddingServiceVercel._simple_text_to_vector "abc" = Some v
    /\ nth_error v 16 = Some 0%Q.
Proof.
  destruct (simple_text_to_vector_zero_tail "abc") as (v & Hv & _ & Hz & _).
  exists v. split; [exact Hv | apply Hz; lia].
Defined.

(** ** The vector-index service without its backend *)

Lemma try_except_default {St A} (body : M St A) (d : A) (s : St) :
  exists (r : A) (s' : St),
    try_except body (fun _ => mret d) s = (Returned r, s').
Proof.
  unfold try_except. destruct (body s) as [[a|e] s']; eauto.
Qed.

Lemma get_embeddings_one (text : string) :
  exists v : list Q, EmbeddingServiceVercel.get_embeddings [VStr text] = [v].
Proof.
  unfold EmbeddingServiceVercel.get_embeddings. simpl.
  rewrite simple_text_to_vector_eq. eauto.
Qed.

Section DisabledService.

Import EmbeddingServiceVercel.

Context {St : Type}.
Variable client : Type.
Variable Pinecone : string -> M St client.
Variable list_indexes : client -> M St (list string).
Variable create_index : client -> string -> Z -> string -> M St unit.
Variable index_upsert : client -> string -> list vector_record -> M St unit.
Variable index_query :
  client -> string -> list Q -> Z -> M St (list query_match).
Variable index_delete_all : client -> string -> M St unit.
Variable describe_index_stats : client -> string -> M St index_stats.
Variable str_hash : string -> Z.

Lemma init_without_credentials (key env : option string) (st : St) :
  env_truthy key && env_truthy env = false ->
  __init__ client Pinecone list_indexes create_index key env st
  = (Returned None, st).
Proof.
  unfold __init__. destruct key as [k|]; [|reflexivity].
  simpl. now intros ->.
Qed.

Lemma init_failure (key : string) (env : option string) (st st' : St)
    (e : exn) :
  Pinecone key st = (Raised e, st') ->
  Py.truthy key && env_truthy env = true ->
  __init__ client Pinecone list_indexes create_index (Some key) env st
  = (Returned None, st').
Proof.
  intros Hp Hc. unfold __init__. rewrite Hc.
  unfold try_except, mbind, M_bind. now rewrite Hp.
Qed.

Lemma search_similar_empty_index (c : client) (query : string) (top_k : Z)
    (st st' : St) :
  (forall v, index_query c index_name v top_k st = (Returned [], st')) ->
  search_similar client index_query (Some c) query top_k st
  = (Returned [], st').
Proof.
  intros Hq. unfold search_similar.
  destruct (get_embeddings_one query) as [v ->].
  unfold try_except, mbind, M_bind. now rewrite Hq.
Qed.

End DisabledService.

(** C9. With the client not initialized, [index_documents] and
    [clear_index] return False, [search_similar] returns the empty list
    and [get_index_stats] returns an error mapping, none touching the
    backend; the client is not initialized when a credential is missing
    or empty, or when constructing it raises. Whatever the backend does,
    no operation of the service raises; and a search on which the backend
    finds no match returns the empty list. *)
Theorem disabled_service_never_raises
    {St : Type} (client : Type)
    (Pinecone : string -> M St client)
    (list_indexes : client -> M St (list string))
    (create_index : client -> string -> Z -> string -> M St unit)
    (index_upsert :
       client -> string -> list EmbeddingServiceVercel.vector_record
       -> M St unit)
    (index_query :
       client -> string -> list Q -> Z
       -> M St (list EmbeddingServiceVercel.query_match))
    (index_delete_all : client -> string -> M St unit)
    (describe_index_stats :
       client -> string -> M St EmbeddingServiceVercel.index_stats)
    (str_hash : string -> Z)
    (pc : option client) (documents : list (gmap string value))
    (query : string) (top_k : Z) (st : St) :
  let index_documents :=
    EmbeddingServiceVercel.index_documents client index_upsert str_hash in
  let search_similar :=
    EmbeddingServiceVercel.search_similar client index_query in
  let clear_index :=
    EmbeddingServiceVercel.clear_index client index_delete_all in
  let get_index_stats :=
    EmbeddingServiceVercel.get_index_stats client describe_index_stats in
  let init :=
    EmbeddingServiceVercel.__init__ client Pinecone list_indexes
      create_index in
  (index_documents None documents st = (Returned false, st)
   /\ clear_index None st = (Returned false, st)
   /\ search_similar None query top_k st = (Returned [], st)
   /\ get_index_stats None st
      = (Returned (EmbeddingServiceVercel.StatsError
                     "Pinecone not initialized"), st))
  /\ (forall key env : option string,
        EmbeddingServiceVercel.env_truthy key
        && EmbeddingServiceVercel.env_truthy env = false ->
        init key env st = (Returned None, st))
  /\ (forall (key : string) (env : option string) (e : exn) (st' : St),
        Py.truthy key && EmbeddingServiceVercel.env_truthy env = true ->
        Pinecone key st = (Raised e, st') ->
        init (Some key) env st = (Returned None, st'))
  /\ ((exists r s', index_documents pc documents st = (Returned r, s'))
      /\ (exists r s', clear_index pc st = (Returned r, s'))
      /\ (exists r s', search_similar pc query top_k st = (Returned r, s'))
      /\ (exists r s', get_index_stats pc st = (Returned r, s')))
  /\ (forall (c : client) (st' : St),
        (forall v,
           index_query c EmbeddingServiceVercel.index_name v top_k st
           = (Returned [], st')) ->
        search_similar (Some c) query top_k st = (Returned [], st')).
Proof.
  cbv zeta. split; [|split; [|split; [|split]]].
  - repeat split.
  - intros key env H. now apply init_without_credentials.
  - intros key env e st' Hc Hp. eapply init_failure; eauto.
  - destruct pc as [c|]; [|repeat split; eauto]. split; [|split; [|split]].
    + apply try_except_default.
    + apply try_except_default.
    + apply try_except_default.
    + unfold EmbeddingServiceVercel.get_index_stats, try_except, mbind, M_bind.
      destruct (describe_index_stats c _ st) as [[a|e] s']; eauto.
  - intros c st' H. now apply search_similar_empty_index.
Qed.

(** ** Record ids and re-indexing *)

Section IndexingFacts.

Import EmbeddingServiceVercel.

Lemma stateless_ret {St A} (a : A) : stateless (mret a : M St A).
Proof. exists (Returned a). reflexivity. Qed.

Lemma stateless_raise {St A} (e : exn) : stateless (raise e : M St A).
Proof. exists (Raised e). reflexivity. Qed.

Lemma stateless_bind {St A B} (m : M St A) (f : A -> M St B) :
  stateless m -> (forall a, stateless (f a)) -> stateless (m ≫= f).
Proof.
  intros [[a|e] Hm] Hf.
  - destruct (Hf a) as [r Hr]. exists r. intros s.
    unfold mbind, M_bind. now rewrite Hm.
  - exists (Raised e). intros s. unfold mbind, M_bind. now rewrite Hm.
Qed.

Lemma stateless_mapM {St A B} (f : A -> M St B) (l : list A) :
  (forall a, stateless (f a)) -> stateless (mapM f l).
Proof.
  intros Hf. induction l as [|a l IH]; simpl.
  - apply stateless_ret.
  - apply stateless_bind; [apply Hf|]. intros b.
    apply stateless_bind; [exact IH|]. intros k. apply stateless_ret.
Qed.

Lemma stateless_subscript {St} (d : gmap string value) (key : string) :
  stateless (subscript d key : M St value).
Proof.
  unfold subscript. destruct (d !! key);
    [apply stateless_ret | apply stateless_raise].
Qed.

Lemma stateless_make_vector {St} (str_hash : string -> Z)
    (entry : nat * (gmap string value * list Q)) :
  stateless (make_vector str_hash entry : M St vector_record).
Proof.
  destruct entry as [i [doc e]]. unfold make_vector.
  apply stateless_bind; [apply stateless_subscript|].
  intros [s|z]; [apply stateless_ret | apply stateless_raise].
Qed.

Lemma store_upsert_snoc (vs : list vector_record) (v : vector_record)
    (store : gmap string vector_record) :
  store_upsert (vs ++ [v]) store = <[vec_id v := v]> (store_upsert vs store).
Proof. unfold store_upsert. now rewrite fold_left_app. Qed.

Lemma store_upsert_union (vs : list vector_record)
    (store : gmap string vector_record) :
  store_upsert vs store = store_upsert vs ∅ ∪ store.
Proof.
  induction vs as [|v vs IH] using rev_ind.
  - simpl. now rewrite (left_id_L ∅ (∪)).
  - rewrite !store_upsert_snoc, IH. now rewrite insert_union_l.
Qed.

Lemma store_upsert_twice (vs : list vector_record)
    (store : gmap string vector_record) :
  store_upsert vs (store_upsert vs store) = store_upsert vs store.
Proof.
  rewrite (store_upsert_union vs (store_upsert vs store)).
  rewrite (store_upsert_union vs store).
  now rewrite (assoc_L (∪)), (idemp_L (∪)).
Qed.

(** What a run does to the store is an upsert of records that depend on
    the documents and on the hash of the process only. *)
Lemma index_run_upsert (str_hash : string -> Z)
    (documents : list (gmap string value)) :
  exists vs : list vector_record,
    forall store, index_run str_hash documents store = store_upsert vs store.
Proof.
  unfold index_run, index_documents.
  destruct (stateless_mapM (St := gmap string vector_record)
              (fun doc => subscript doc "text") documents
              (fun doc => stateless_subscript doc "text")) as [[texts|e] Ht].
  - destruct (get_embeddings texts) as [|e0 es] eqn:Hemb.
    + exists []. intros store.
      unfold try_except, mbind, M_bind. now rewrite Ht, Hemb.
    + destruct (stateless_mapM (St := gmap string vector_record)
                  (make_vector str_hash)
                  (enumerate (zip documents (e0 :: es)))
                  (stateless_make_vector str_hash)) as [[vs|e] Hv].
      * exists vs. intros store.
        unfold try_except, mbind, M_bind. rewrite Ht, Hemb, Hv. reflexivity.
      * exists []. intros store.
        unfold try_except, mbind, M_bind. now rewrite Ht, Hemb, Hv.
  - exists []. intros store.
    unfold try_except, mbind, M_bind. now rewrite Ht.
Qed.

End IndexingFacts.

(** C6, as amended. In one interpreter process, whose built-in string
    hash is fixed, indexing the same documents a second time leaves the
    store as the first run left it: the records are written under the same
    ids and overwrite. The id of a record is "doc_", the position of the
    chunk in the batch, "_" and the built-in hash of the first 100
    characters of the chunk text; that hash is keyed per process, and
    nothing is claimed of runs in two processes. *)
Theorem reindex_same_process (str_hash : string -> Z)
    (documents : list (gmap string value)) :
  reindex_overwrites str_hash str_hash documents
  /\ (forall (i : nat) (doc : gmap string value) (embedding : list Q)
             (text : string)
             (store : gmap string EmbeddingServiceVercel.vector_record),
        doc !! "text" = Some (VStr text) ->
        exists v : EmbeddingServiceVercel.vector_record,
          EmbeddingServiceVercel.make_vector str_hash (i, (doc, embedding))
            store = (Returned v, store)
          /\ EmbeddingServiceVercel.vec_id v
             = "doc_" +:+ str_of_nat i +:+ "_"
               +:+ str_of_Z (str_hash (Py.slice_to 100 text))).
Proof.
  split.
  - intros store.
    destruct (index_run_upsert str_hash documents) as [vs Hvs].
    rewrite !Hvs. apply store_upsert_twice.
  - intros i doc embedding text store Hdoc. eexists. split.
    + unfold EmbeddingServiceVercel.make_vector, subscript, mbind, M_bind.
      rewrite Hdoc. reflexivity.
    + reflexivity.
Qed.

(** C6, as stated, fails across processes: a one-chunk document indexed
    in a process with hash seed 0 and again in a process with hash seed 1
    is stored twice, under two ids. *)
Lemma reindex_across_processes_duplicates :
  ~ reindex_overwrites (keyed_hash 0) (keyed_hash 1)
      [ {[ "text" := VStr "a" ]} ].
Proof.
  intros H. specialize (H ∅). apply (f_equal size) in H.
  vm_compute in H. discriminate H.
Qed.

(** A run of C6: the id of the first record of a batch. *)
Lemma reindex_same_process_run :
  ({[ "text" := VStr "a" ]} : gmap string value) !! "text" = Some (VStr "a")
  /\ exists v : EmbeddingServiceVercel.vector_record,
       EmbeddingServiceVercel.make_vector (keyed_hash 0)
         (0%nat, ({[ "text" := VStr "a" ]}, []))
         (∅ : gmap string EmbeddingServiceVercel.vector_record)
       = (Returned v, ∅)
       /\ EmbeddingServiceVercel.vec_id v = "doc_0_96".
Proof.
  split; [reflexivity|].
  destruct (reindex_same_process (keyed_hash 0) []) as [_ H].
  destruct (H 0%nat {[ "text" := VStr "a" ]} [] "a" ∅) as (v & Hv & Hid);
    [reflexivity|].
  exists v. split; [exact Hv|]. rewrite Hid. vm_compute. reflexivity.
Defined.

(** ** The [/hackrx/run] handler *)

Section HandlerFacts.

Import ApiRoutes.

Context {W : Type}.
Variable count_tokens : string -> nat.
Variable http_get : string -> M W (Z * list Z).
Variable tmp_write : list Z -> string -> M W string.
Variable tmp_remove : string -> M W unit.
Variable fitz_text : string -> M W string.
Variable docx_text : string -> M W string.
Variable decode_utf8_ignore : list Z -> string.
Variable client : Type.
Variable index_upsert :
  client -> string -> list EmbeddingServiceVercel.vector_record -> M W unit.
Variable index_query :
  client -> string -> list Q -> Z
  -> M W (list EmbeddingServiceVercel.query_match).
Variable str_hash : string -> Z.
Variable groq_client : Type.
Variable Json : Type.
Variable chat_completion :
  groq_client -> GroqService.llm_request -> Z -> M W string.
Variable json_loads : string -> option Json.
Variable time_time : W -> Q * W.
Variable pc : option client.
Variable groq : option groq_client.

Abbreviation answer_of :=
  (answer_question client index_query groq_client Json chat_completion
     json_loads pc groq).
Abbreviation loop_of :=
  (question_loop client index_query groq_client Json chat_completion
     json_loads pc groq).

Lemma parse_query_returns (query : string) (s : app W) :
  exists r s',
    groq_parse_query groq_client Json chat_completion json_loads groq query s
    = (Returned r, s').
Proof.
  unfold groq_parse_query, GroqService.parse_query.
  destruct groq as [c|]; [apply try_except_default | eauto].
Qed.

Lemma search_similar_returns (query : string) (top_k : Z) (s : app W) :
  exists r s',
    embedding_search_similar client index_query pc query top_k s
    = (Returned r, s').
Proof.
  unfold embedding_search_similar, EmbeddingServiceVercel.search_similar.
  destruct pc as [c|]; [apply try_except_default | eauto].
Qed.

Lemma fallback_generate_answer_of_cases {St} (query : string)
    (texts : list value) (s : St) :
  (exists ts, str_items texts = Some ts
     /\ GroqService.fallback_generate_answer_of query texts s
        = (Returned (GroqService._fallback_generate_answer query ts), s))
  \/ (str_items texts = None
      /\ GroqService.fallback_generate_answer_of query texts s
         = (Raised (OtherException "TypeError"), s)).
Proof.
  unfold GroqService.fallback_generate_answer_of.
  destruct (str_items texts) as [ts|]; [left; eauto | right; eauto].
Qed.

(** An answer is generated unless some text is not a string; and then the
    exception is the TypeError of the fallback. *)
Lemma generate_detailed_answer_cases (query : string)
    (texts : list value) (s : app W) :
  (exists a s',
     groq_generate_detailed_answer groq_client chat_completion groq query
       texts s = (Returned a, s'))
  \/ (str_items texts = None
      /\ exists s',
           groq_generate_detailed_answer groq_client chat_completion groq
             query texts s = (Raised (OtherException "TypeError"), s')).
Proof.
  unfold groq_generate_detailed_answer, GroqService.generate_detailed_answer.
  destruct groq as [c|].
  - unfold try_except.
    match goal with |- context [let '(_, _) := ?m s in _] =>
      destruct (m s) as [[a|e] s1] end; [left; eauto|].
    destruct (fallback_generate_answer_of_cases query texts s1)
      as [(ts & _ & ->) | (Hn & ->)]; [left; eauto | right; eauto].
  - destruct (fallback_generate_answer_of_cases query texts s)
      as [(ts & _ & ->) | (Hn & ->)]; [left; eauto | right; eauto].
Qed.

(** A question is answered unless the search found clauses one of whose
    texts is not a string. *)
Lemma answer_question_cases (question : string) (s : app W) :
  (exists a s', answer_of question s = (Returned a, s'))
  \/ (exists parsed s1 docs s2 s',
        groq_parse_query groq_client Json chat_completion json_loads groq
          question s = (Returned parsed, s1)
        /\ embedding_search_similar client index_query pc question 5 s1
           = (Returned docs, s2)
        /\ str_items (map EmbeddingServiceVercel.doc_text docs) = None
        /\ answer_of question s = (Raised (OtherException "TypeError"), s')).
Proof.
  unfold answer_question.
  destruct (parse_query_returns question s) as (r & s1 & H1).
  destruct (search_similar_returns question 5 s1) as (docs & s2 & H2).
  unfold mbind, M_bind. rewrite H1, H2.
  destruct docs as [|d docs]; [left; eauto|].
  destruct (generate_detailed_answer_cases question
              (map EmbeddingServiceVercel.doc_text (d :: docs)) s2)
    as [(a & s' & ->) | (Hn & s' & ->)]; [left; eauto|].
  right. exists r, s1, (d :: docs), s2, s'. eauto.
Qed.

Lemma answered_length (s s' : app W) (qs given : list string) :
  answered answer_of s qs given s' -> length given = length qs.
Proof. induction 1; simpl; congruence. Qed.

Lemma question_loop_answered (s s' : app W) (qs given acc : list string) :
  answered answer_of s qs given s' ->
  loop_of qs acc s = (Returned (acc ++ given), s').
Proof.
  intros H. revert acc. induction H as [s | s s1 s2 q a qs given Ha _ IH];
    intros acc.
  - simpl. now rewrite app_nil_r.
  - cbn [question_loop]. unfold mbind, M_bind. rewrite Ha, IH.
    now rewrite <- app_assoc.
Qed.

Lemma question_loop_fails (s s3 s4 : app W)
    (before after given acc : list string) (q : string) (e : exn) :
  answered answer_of s before given s3 ->
  answer_of q s3 = (Raised e, s4) ->
  loop_of (before ++ q :: after) acc s = (Raised e, s4).
Proof.
  intros H He. revert acc.
  induction H as [s | s s1 s2 q' a qs given Ha _ IH]; intros acc.
  - cbn [List.app question_loop]. unfold mbind, M_bind. now rewrite He.
  - cbn [List.app question_loop]. unfold mbind, M_bind. rewrite Ha.
    now apply IH.
Qed.

(** The questions are all answered, or one of them, after those before it
    were answered, is not. *)
Lemma questions_answered_or_not (qs : list string) (s : app W) :
  (exists given s', answered answer_of s qs given s')
  \/ (exists before q after given s3 s4,
        qs = before ++ q :: after
        /\ answered answer_of s before given s3
        /\ answer_of q s3 = (Raised (OtherException "TypeError"), s4)).
Proof.
  revert s. induction qs as [|q qs IH]; intros s.
  - left. exists [], s. constructor.
  - destruct (answer_question_cases q s)
      as [(a & s1 & Ha) | (_ & _ & _ & _ & s' & _ & _ & _ & He)].
    + destruct (IH s1)
        as [(given & s' & H)
           | (before & q' & after & given & s3 & s4 & -> & H & He)].
      * left. exists (a :: given), s'. econstructor; eauto.
      * right. exists (q :: before), q', after, (a :: given), s3, s4.
        split; [reflexivity|]. split; [econstructor; eauto | exact He].
    + right. exists [], q, qs, [], s, s'.
      split; [reflexivity|]. split; [constructor | exact He].
Qed.

Abbreviation run_of :=
  (post_hackrx_run count_tokens http_get tmp_write tmp_remove fitz_text
     docx_text decode_utf8_ignore client index_upsert index_query str_hash
     groq_client Json chat_completion json_loads time_time pc groq).
Abbreviation process_of :=
  (document_parser_process count_tokens http_get tmp_write tmp_remove
     fitz_text docx_text decode_utf8_ignore).
Abbreviation index_of :=
  (embedding_index_documents client index_upsert str_hash pc).

Lemma index_documents_returns (chunks : list (gmap string value))
    (s : app W) :
  exists b s', index_of chunks s = (Returned b, s').
Proof.
  unfold embedding_index_documents, EmbeddingServiceVercel.index_documents.
  destruct pc as [c|]; [apply try_except_default | eauto].
Qed.

(** C5. A request to POST /hackrx/run with the valid token, whatever the
    backends do. When processing the document returns no chunk the
    handler raises HTTP 400. When it returns chunks and indexing them
    returns False the handler raises HTTP 500. When indexing returns True
    and the questions, taken in order, each in the state the one before
    it left, all get their answer, the handler returns these answers: one
    per question, in the order of the questions. The handler fails in two
    more ways: when processing raises (a download that is refused, a file
    that cannot be read), with HTTP 500 "Internal server error" unless the
    exception is an HTTP error already; and when a question cannot be
    answered, which happens only when a clause found for it has a text
    that is not a string, with HTTP 500 "Internal server error". These
    cases are all there are: indexing never raises, and the questions are
    all answered or one of them is not. A response is returned only in
    the third case. With another token the handler raises HTTP 401 and
    nothing else happens. *)
Theorem hackrx_run_outcomes (request : HackrxRequest) (st : app W) :
  let st0 :=
    App (time_time (world st)).2 (performance_monitor st) (webhook_tasks st) in
  (forall st1,
     process_of (documents request) st0 = (Returned [], st1) ->
     run_of expected_key request st
     = (Raised (HTTPException 400 "Failed to process document"), st1))
  /\ (forall chunks st1 st2,
        chunks <> [] ->
        process_of (documents request) st0 = (Returned chunks, st1) ->
        index_of chunks st1 = (Returned false, st2) ->
        run_of expected_key request st
        = (Raised (HTTPException 500 "Failed to index document"), st2))
  /\ (forall chunks st1 st2 given st3,
        chunks <> [] ->
        process_of (documents request) st0 = (Returned chunks, st1) ->
        index_of chunks st1 = (Returned true, st2) ->
        answered answer_of st2 (questions request) given st3 ->
        length given = length (questions request)
        /\ exists st4 : app W,
             run_of expected_key request st
             = (Returned {| answers := given |}, st4))
  /\ (forall e st1,
        process_of (documents request) st0 = (Raised e, st1) ->
        run_of expected_key request st = (Raised (as_http_error e), st1))
  /\ (forall chunks st1 st2 before q after given st3 e st4,
        chunks <> [] ->
        process_of (documents request) st0 = (Returned chunks, st1) ->
        index_of chunks st1 = (Returned true, st2) ->
        questions request = before ++ q :: after ->
        answered answer_of st2 before given st3 ->
        answer_of q st3 = (Raised e, st4) ->
        run_of expected_key request st
        = (Raised (HTTPException 500 "Internal server error"), st4)
        /\ e = OtherException "TypeError"
        /\ exists parsed s1 docs s2,
             groq_parse_query groq_client Json chat_completion json_loads
               groq q st3 = (Returned parsed, s1)
             /\ embedding_search_similar client index_query pc q 5 s1
                = (Returned docs, s2)
             /\ str_items (map EmbeddingServiceVercel.doc_text docs) = None)
  /\ (forall chunks st1, exists b st2, index_of chunks st1 = (Returned b, st2))
  /\ (forall st2,
        (exists given st3, answered answer_of st2 (questions request) given st3)
        \/ (exists before q after given st3 e st4,
              questions request = before ++ q :: after
              /\ answered answer_of st2 before given st3
              /\ answer_of q st3 = (Raised e, st4)))
  /\ (forall response st',
        run_of expected_key request st = (Returned response, st') ->
        exists chunks st1 st2 st3,
          chunks <> []
          /\ process_of (documents request) st0 = (Returned chunks, st1)
          /\ index_of chunks st1 = (Returned true, st2)
          /\ answered answer_of st2 (questions request) (answers response)
               st3)
  /\ (forall credentials,
        credentials <> expected_key ->
        run_of credentials request st
        = (Raised (HTTPException 401 "Invalid API key"), st)).
Proof.
  intros st0.
  assert (Hrun : forall r, run_of expected_key request st = r <->
            hackrx_run count_tokens http_get tmp_write tmp_remove fitz_text
              docx_text decode_utf8_ignore client index_upsert index_query
              str_hash groq_client Json chat_completion json_loads time_time
              pc groq request expected_key st = r).
  { intros r. unfold post_hackrx_run, get_current_user.
    rewrite String.eqb_refl. reflexivity. }
  assert (Hstart : start_timer time_time st
                   = (Returned (time_time (world st)).1, st0)).
  { unfold start_timer, clock, on_world. subst st0.
    now destruct (time_time (world st)). }
  assert (Hfail : forall chunks st1 st2 before q after given st3 e st4,
    chunks <> [] ->
    process_of (documents request) st0 = (Returned chunks, st1) ->
    index_of chunks st1 = (Returned true, st2) ->
    questions request = before ++ q :: after ->
    answered answer_of st2 before given st3 ->
    answer_of q st3 = (Raised e, st4) ->
    run_of expected_key request st = (Raised (as_http_error e), st4)).
  { intros chunks st1 st2 before q after given st3 e st4 Hne Hp Hi Hq Ha He.
    apply Hrun. unfold hackrx_run, try_except, mbind, M_bind.
    rewrite Hstart, Hp. destruct chunks as [|c cs]; [contradiction|].
    rewrite Hi. change (negb true) with false. cbv beta iota.
    rewrite Hq, (question_loop_fails st2 st3 st4 before after given [] q e Ha He).
    now destruct e. }
  split; [|split; [|split; [|split; [|split; [|split; [|split; [|split]]]]]]].
  - intros st1 Hp. apply Hrun.
    unfold hackrx_run, try_except, mbind, M_bind.
    rewrite Hstart, Hp. reflexivity.
  - intros chunks st1 st2 Hne Hp Hi. apply Hrun.
    unfold hackrx_run, try_except, mbind, M_bind.
    rewrite Hstart, Hp. destruct chunks as [|c cs]; [contradiction|].
    rewrite Hi. reflexivity.
  - intros chunks st1 st2 given st3 Hne Hp Hi Ha.
    split; [eapply answered_length; eauto|].
    pose proof (question_loop_answered _ _ _ _ [] Ha) as Hloop.
    simpl in Hloop.
    destruct (time_time (world st3)) as [t w'] eqn:Ht.
    eexists. apply Hrun.
    unfold hackrx_run, try_except, mbind, M_bind.
    rewrite Hstart, Hp. destruct chunks as [|c cs]; [contradiction|].
    rewrite Hi. change (negb true) with false. cbv beta iota.
    rewrite Hloop.
    unfold create_webhook_task, end_timer, record_request, update_monitor,
      clock, on_world, mbind, M_bind, mret, M_ret.
    cbn [world performance_monitor webhook_tasks].
    rewrite Ht. reflexivity.
  - intros e st1 Hp. apply Hrun.
    unfold hackrx_run, try_except, mbind, M_bind.
    rewrite Hstart, Hp. now destruct e.
  - intros chunks st1 st2 before q after given st3 e st4 Hne Hp Hi Hq Ha He.
    destruct (answer_question_cases q st3)
      as [(a & s' & Hr) | (parsed & s1 & docs & s2 & s' & H1 & H2 & Hn & Hr)];
      rewrite Hr in He; [discriminate|].
    injection He as <- <-.
    split; [|split; [reflexivity | eauto 10]].
    rewrite (Hfail chunks st1 st2 before q after given st3 _ s' Hne Hp Hi Hq
               Ha Hr).
    reflexivity.
  - intros chunks st1. apply index_documents_returns.
  - intros st2.
    destruct (questions_answered_or_not (questions request) st2)
      as [H | (before & q & after & given & s3 & s4 & H)];
      [left; exact H | right; eauto 10].
  - intros response st' H. apply (proj1 (Hrun _)) in H.
    unfold hackrx_run, try_except, mbind, M_bind in H.
    rewrite Hstart in H.
    destruct (process_of (documents request) st0) as [[chunks | e] st1] eqn:Hp;
      [|destruct e; discriminate H].
    destruct chunks as [|c cs]; [discriminate H|].
    destruct (index_documents_returns (c :: cs) st1) as (b & st2 & Hi).
    rewrite Hi in H. destruct b; [|discriminate H].
    change (negb true) with false in H. cbv beta iota in H.
    exists (c :: cs), st1, st2.
    destruct (questions_answered_or_not (questions request) st2)
      as [(given & st3 & Ha)
         | (before & q & after & given & s3 & s4 & Hq & Ha & He)].
    + exists st3. split; [discriminate|]. split; [reflexivity|].
      split; [exact Hi|].
      rewrite (question_loop_answered _ _ _ _ [] Ha) in H.
      unfold create_webhook_task, end_timer, record_request, update_monitor,
        clock, on_world, mbind, M_bind, mret, M_ret in H.
      cbn [world performance_monitor webhook_tasks] in H.
      destruct (time_time (world st3)) as [t w'].
      injection H as <- _. exact Ha.
    + rewrite Hq, (question_loop_fails st2 s3 s4 before after given [] q _
                     Ha He) in H.
      discriminate H.
  - intros credentials Hne. unfold post_hackrx_run, get_current_user.
    unfold mbind, M_bind.
    destruct (String.eqb_spec credentials expected_key); [contradiction|].
    reflexivity.
Qed.

End HandlerFacts.

(** A run of C5: on the demo world the two questions get two answers. *)
Lemma hackrx_run_outcomes_run :
  exists (given : list string) (st4 : ApiRoutes.app unit),
    Demo.run (Some tt) ApiRoutes.expected_key Demo.start
    = (Returned {| ApiRoutes.answers := given |}, st4)
    /\ length given = 2%nat.
Proof.
  destruct (hackrx_run_outcomes String.length Demo.http_get Demo.tmp_write
              Demo.tmp_remove Demo.no_reader Demo.no_reader Demo.decode unit
              Demo.index_upsert Demo.index_query (keyed_hash 0) Empty_set
              unit Demo.no_chat Demo.no_json Demo.time_time (Some tt) None
              Demo.request Demo.start) as (_ & _ & H & _).
  edestruct H as (Hlen & st4 & Hrun).
  2: { vm_compute. reflexivity. }
  - discriminate.
  - vm_compute. reflexivity.
  - eapply answered_cons; [vm_compute; reflexivity|].
    eapply answered_cons; [vm_compute; reflexivity|]. apply answered_nil.
  - eexists _, st4. split; [exact Hrun | exact Hlen].
Defined.

(** The outcomes C5 lists leave out a processing that raises: when the
    download of the document is answered 404, no chunk list is yielded
    and indexing does not run, yet the request with the valid token gets
    no answers but HTTP 500. *)
Lemma hackrx_run_download_failure_unlisted :
  fst (Demo.run_not_found ApiRoutes.expected_key Demo.start)
  = Raised (HTTPException 500 "Internal server error")
  /\ ~ outcome_as_listed
         (fst (ApiRoutes.document_parser_process String.length Demo.not_found
                 Demo.tmp_write Demo.tmp_remove Demo.no_reader Demo.no_reader
                 Demo.decode (ApiRoutes.documents Demo.request) Demo.start))
         None (ApiRoutes.questions Demo.request)
         (fst (Demo.run_not_found ApiRoutes.expected_key Demo.start)).
Proof.
  split; [vm_compute; reflexivity|].
  vm_compute. intros (response & H & _). discriminate H.
Qed.

(** A run of C5 without the index client: indexing reports failure. *)
Lemma hackrx_run_index_failure_run :
  fst (Demo.run None ApiRoutes.expected_key Demo.start)
  = Raised (HTTPException 500 "Failed to index document").
Proof. vm_compute. reflexivity. Qed.

(** A run of C9: a search that finds no match, and operations on a
    backend that refuses every call. *)
Lemma disabled_service_never_raises_run :
  EmbeddingServiceVercel.search_similar unit Demo.empty_query (Some tt)
    "What is the grace period?" 5 tt = (Returned [], tt)
  /\ EmbeddingServiceVercel.clear_index unit Demo.unreachable (Some tt) tt
     = (Returned false, tt)
  /\ EmbeddingServiceVercel.__init__ unit (fun _ => mret tt)
       (fun _ => mret []) (fun _ _ _ _ => mret tt) (Some "key") (Some "") tt
     = (Returned None, tt).
Proof.
  destruct (disabled_service_never_raises (St := unit) unit
              (fun _ => mret tt) (fun _ => mret []) (fun _ _ _ _ => mret tt)
              Demo.index_upsert Demo.empty_query Demo.unreachable
              Demo.unreachable (keyed_hash 0) (Some tt) []
              "What is the grace period?" 5 tt)
    as (_ & Hinit & _ & _ & Hempty).
  split; [|split].
  - apply Hempty. intros v. reflexivity.
  - vm_compute. reflexivity.
  - apply Hinit. reflexivity.
Defined.

(** A run of C2: the clause of the example is short and is returned whole. *)
Lemma fallback_evaluate_clause_run :
  GroqService.answer
    (GroqService._fallback_evaluate_clause "Is knee surgery covered?"
       "Knee surgery is covered under this policy.") = "yes"
  /\ GroqService.direct_answer
       (GroqService._fallback_evaluate_clause "Is knee surgery covered?"
          "Knee surgery is covered under this policy.")
     = "Knee surgery is covered under this policy.".
Proof.
  destruct (fallback_evaluate_clause_spec "Is knee surgery covered?"
              "Knee surgery is covered under this policy.")
    as (_ & _ & _ & _ & Hyes & _).
  assert (Hans : GroqService.answer
            (GroqService._fallback_evaluate_clause "Is knee surgery covered?"
               "Knee surgery is covered under this policy.") = "yes")
    by (vm_compute; reflexivity).
  split; [exact Hans|]. rewrite (Hyes Hans). vm_compute. reflexivity.
Defined.

(** ** When the bound holds on the chunk itself *)

Lemma chunk_tokens_subadditive (count_tokens : string -> nat)
    (g : list string) :
  (forall a b : string,
     (count_tokens (a +:+ String Py.nl b)
      <= count_tokens a + count_tokens b)%nat) ->
  g <> [] ->
  Z.of_nat (count_tokens (chunk_of g)) <= sum_tokens count_tokens g.
Proof.
  intros Hsub. induction g as [|x g IH]; intros Hne; [contradiction|].
  destruct g as [|y g]; [unfold chunk_of; simpl; lia|].
  unfold chunk_of in *. rewrite join_cons2, append_cons, append_nil_l.
  specialize (IH ltac:(discriminate)).
  specialize (Hsub x (Py.join (String Py.nl "") (y :: g))).
  change (sum_tokens count_tokens (x :: y :: g))
    with (Z.of_nat (count_tokens x) + sum_tokens count_tokens (y :: g)).
  lia.
Qed.

(** For a tokenizer that spends nothing on the joining newline, such as a
    count of white-space separated words, the bound of C1 holds on the
    chunks themselves. *)
Lemma chunk_bound_of_subadditive (count_tokens : string -> nat)
    (max_tokens : Z) (text : string) :
  (forall a b : string,
     (count_tokens (a +:+ String Py.nl b)
      <= count_tokens a + count_tokens b)%nat) ->
  chunk_bound count_tokens max_tokens text.
Proof.
  intros Hsub chunk Hin.
  destruct (split_into_chunks_groups count_tokens max_tokens text)
    as (gs & Hch & Hcat & Hok & _).
  rewrite Hch in Hin. apply in_map_iff in Hin as (g & <- & Hg).
  rewrite Forall_forall in Hok.
  destruct (Hok g) as (Hne & [Hsum | (p & -> & Hp)]).
  - now apply list_elem_of_In.
  - left. pose proof (chunk_tokens_subadditive count_tokens g Hsub Hne). lia.
  - right. split; [|exact Hp]. rewrite <- Hcat.
    apply in_concat. exists [p]. split; [exact Hg | now left].
Qed.

(** * Further properties of the code *)

(** ** The chunker: shape of the result *)

Lemma trimmed_non_space (s : string) : trimmed s -> non_space s <> "".
Proof.
  intros (Hne & Hl & _). destruct s as [|c r]; [contradiction|].
  simpl in *. destruct (Py.isspace c) eqn:E; [|discriminate].
  exfalso. pose proof (lstrip_length r) as Hlen.
  rewrite Hl in Hlen. simpl in Hlen. lia.
Qed.

Lemma paragraphs_nil_iff (text : string) :
  DocumentParser.paragraphs text = [] <-> non_space text = "".
Proof.
  pose proof (paragraphs_non_space text) as Hns.
  pose proof (paragraphs_trimmed text) as Htr.
  split.
  - intros E. rewrite E in Hns. now rewrite <- Hns.
  - intros E. destruct (DocumentParser.paragraphs text) as [|p ps];
      [reflexivity|].
    exfalso. inversion Htr as [|? ? Hp _]; subst.
    simpl in Hns. rewrite E in Hns. apply append_eq_nil in Hns as [Hp' _].
    now apply (trimmed_non_space p).
Qed.

Lemma groups_length (gs : list (list string)) :
  Forall (fun g => g <> []) gs -> (length gs <= length (concat gs))%nat.
Proof.
  induction 1 as [|g gs Hg _ IH]; simpl; [lia|].
  rewrite length_app. destruct g; [contradiction | simpl; lia].
Qed.

(** X1. Every chunk is non-empty and has no white space at either end;
    there are at most as many chunks as non-blank lines; and there is no
    chunk at all exactly when the text has no character other than white
    space. *)
Theorem split_into_chunks_shape
    (count_tokens : string -> nat) (max_tokens : Z) (text : string) :
  let cs := DocumentParser.split_into_chunks count_tokens max_tokens text in
  Forall trimmed cs
  /\ (length cs <= length (DocumentParser.paragraphs text))%nat
  /\ (cs = [] <-> non_space text = "").
Proof.
  intros cs. subst cs.
  destruct (split_into_chunks_groups count_tokens max_tokens text)
    as (gs & Hch & Hcat & Hok & Htr).
  assert (Hne : Forall (fun g => g <> []) gs).
  { eapply Forall_impl; [exact Hok|]. now intros g [H _]. }
  rewrite Hch. split; [|split].
  - apply Forall_map. rewrite Forall_forall in Hne, Htr.
    apply Forall_forall. intros g Hg. apply trimmed_join; auto.
  - rewrite length_map, <- Hcat. now apply groups_length.
  - rewrite <- paragraphs_nil_iff, <- Hcat. split.
    + intros E. destruct gs; [reflexivity | discriminate].
    + intros E. destruct gs as [|g gs]; [reflexivity|]. exfalso.
      inversion Hne; subst. simpl in E. destruct g; [contradiction|discriminate].
Qed.

Section ChunkerRuns.

Import DocumentParser.

Variable count_tokens : string -> nat.
Variable max_tokens : Z.

Lemma sum_tokens_nonneg (g : list string) : 0 <= sum_tokens count_tokens g.
Proof. induction g; simpl; lia. Qed.

Lemma sum_tokens_app (g h : list string) :
  sum_tokens count_tokens (g ++ h)
  = sum_tokens count_tokens g + sum_tokens count_tokens h.
Proof. induction g as [|x g IH]; simpl; [lia | rewrite IH; lia]. Qed.

Lemma loop_under_limit (ps done : list string) :
  Forall trimmed done -> Forall trimmed ps ->
  sum_tokens count_tokens (done ++ ps) <= max_tokens ->
  fold_left (loop_body count_tokens max_tokens) ps
    (LoopState [] (chunk_of done) (sum_tokens count_tokens done))
  = LoopState [] (chunk_of (done ++ ps))
      (sum_tokens count_tokens (done ++ ps)).
Proof.
  revert done. induction ps as [|p ps IH]; intros done Hd Hps Hsum.
  - now rewrite app_nil_r.
  - inversion Hps as [|? ? Hp Hps']; subst. simpl fold_left.
    replace (done ++ p :: ps) with ((done ++ [p]) ++ ps) in *
      by now rewrite <- app_assoc.
    assert (Hle : sum_tokens count_tokens (done ++ [p]) <= max_tokens).
    { rewrite sum_tokens_app in Hsum.
      pose proof (sum_tokens_nonneg ps). lia. }
    rewrite <- IH; [|apply Forall_app; split; [exact Hd | now constructor]
                   |exact Hps' | exact Hsum].
    f_equal. unfold loop_body. cbn [current_tokens current_chunk chunks].
    rewrite sum_tokens_snoc in Hle.
    replace (sum_tokens count_tokens done + Z.of_nat (count_tokens p)
             >? max_tokens) with false by (symmetry; rewrite Z.gtb_ltb; apply Z.ltb_ge; lia).
    cbn [andb]. rewrite sum_tokens_snoc. f_equal.
    rewrite (chunk_of_truthy done Hd).
    destruct (decide (done = [])) as [->|Hne]; [reflexivity|].
    rewrite bool_decide_eq_false_2 by assumption. simpl negb. cbv iota.
    unfold chunk_of. rewrite join_snoc by assumption.
    now rewrite append_cons, append_nil_l.
Qed.

Lemma loop_all_oversized (ps cs : list string) (cur : string) (t : Z) :
  Forall (fun p => trimmed p /\ max_tokens < Z.of_nat (count_tokens p)) ps ->
  trimmed cur -> max_tokens < t ->
  let st := fold_left (loop_body count_tokens max_tokens) ps
              (LoopState cs cur t) in
  chunks st ++ [current_chunk st] = cs ++ cur :: ps
  /\ Py.truthy (current_chunk st) = true
  /\ Py.strip (current_chunk st) = current_chunk st.
Proof.
  revert cs cur t. induction ps as [|p ps IH]; intros cs cur t Hps Hc Ht.
  - simpl. split; [reflexivity|]. split.
    + destruct Hc as [Hne _]. destruct cur; [contradiction | reflexivity].
    + now apply trimmed_strip.
  - inversion Hps as [|? ? [Hp Hbig] Hps']; subst. simpl fold_left.
    unfold loop_body at 2. cbn [current_tokens current_chunk chunks].
    replace (t + Z.of_nat (count_tokens p) >? max_tokens) with true
      by (symmetry; rewrite Z.gtb_ltb; apply Z.ltb_lt; lia).
    assert (Htc : Py.truthy cur = true)
      by (destruct Hc as [Hne _]; destruct cur; [contradiction | reflexivity]).
    rewrite Htc. cbn [andb]. rewrite (trimmed_strip cur Hc).
    destruct (IH (cs ++ [cur]) p (Z.of_nat (count_tokens p)) Hps' Hp Hbig)
      as (H1 & H2 & H3).
    split; [|split]; [|exact H2 | exact H3].
    rewrite H1. now rewrite <- app_assoc.
Qed.

End ChunkerRuns.

(** X2. When the token counts of all the paragraphs of a text add up to
    at most the limit, the text gives one chunk: its non-blank lines,
    stripped and joined by newlines. *)
Theorem split_into_chunks_under_limit
    (count_tokens : string -> nat) (max_tokens : Z) (text : string) :
  DocumentParser.paragraphs text <> [] ->
  sum_tokens count_tokens (DocumentParser.paragraphs text) <= max_tokens ->
  DocumentParser.split_into_chunks count_tokens max_tokens text
  = [chunk_of (DocumentParser.paragraphs text)].
Proof.
  intros Hne Hsum. unfold DocumentParser.split_into_chunks.
  pose proof (paragraphs_trimmed text) as Htr.
  change DocumentParser.loop_init
    with (DocumentParser.LoopState [] (chunk_of [])
            (sum_tokens count_tokens [])).
  rewrite loop_under_limit; [|constructor | exact Htr | exact Hsum].
  cbv zeta. cbn [DocumentParser.current_chunk DocumentParser.chunks app].
  rewrite (chunk_of_truthy _ Htr).
  rewrite bool_decide_eq_false_2 by assumption. simpl negb. cbv iota.
  now rewrite chunk_of_strip.
Qed.

Lemma loop_body_first (count_tokens : string -> nat) (max_tokens : Z)
    (p : string) :
  DocumentParser.loop_body count_tokens max_tokens DocumentParser.loop_init p
  = DocumentParser.LoopState [] p (Z.of_nat (count_tokens p)).
Proof.
  unfold DocumentParser.loop_body, DocumentParser.loop_init.
  cbn [DocumentParser.current_tokens DocumentParser.current_chunk
       DocumentParser.chunks Py.truthy].
  now rewrite andb_false_r.
Qed.

(** X3. When every paragraph of a text alone exceeds the limit, each
    paragraph is a chunk of its own: the chunks are the stripped non-blank
    lines. *)
Theorem split_into_chunks_all_oversized
    (count_tokens : string -> nat) (max_tokens : Z) (text : string) :
  Forall (fun p => max_tokens < Z.of_nat (count_tokens p))
         (DocumentParser.paragraphs text) ->
  DocumentParser.split_into_chunks count_tokens max_tokens text
  = DocumentParser.paragraphs text.
Proof.
  intros Hbig. unfold DocumentParser.split_into_chunks.
  pose proof (paragraphs_trimmed text) as Htr.
  destruct (DocumentParser.paragraphs text) as [|p ps]; [reflexivity|].
  inversion Hbig as [|? ? Hp Hps]; subst.
  inversion Htr as [|? ? Htp Htps]; subst.
  simpl fold_left. rewrite loop_body_first.
  destruct (loop_all_oversized count_tokens max_tokens ps [] p
              (Z.of_nat (count_tokens p))) as (H1 & H2 & H3); auto.
  { rewrite Forall_forall in *. intros q Hq. split; auto. }
  cbv zeta in *. rewrite H2, H3. exact H1.
Qed.

(** ** E-mail bodies and file types *)

Lemma join_cons_char (sep : string) (c : ascii) (w : string)
    (ws : list string) :
  Py.join sep (String c w :: ws) = String c (Py.join sep (w :: ws)).
Proof. destruct ws; reflexivity. Qed.

(** Joining what [split] gave with the separator gives the string back. *)
Lemma join_split_on (sep : ascii) (s : string) :
  Py.join (String sep EmptyString) (Py.split_on sep s) = s.
Proof.
  induction s as [|c r IH]; [reflexivity|]. simpl.
  pose proof (split_on_not_nil sep r) as Hne.
  destruct (Ascii.eqb c sep) eqn:E.
  - apply Ascii.eqb_eq in E. subst c.
    destruct (Py.split_on sep r) as [|w ws]; [contradiction|].
    rewrite join_cons2, IH. reflexivity.
  - destruct (Py.split_on sep r) as [|w ws]; [contradiction|].
    now rewrite join_cons_char, IH.
Qed.

Lemma body_start_none (i : nat) (lines : list string) :
  Forall (fun l => Py.truthy (Py.strip l) = true) lines ->
  DocumentParser.body_start_from i lines = 0%nat.
Proof.
  intros H. revert i. induction H as [|l ls Hl _ IH]; intros i; simpl;
    [reflexivity|]. now rewrite Hl.
Qed.

Lemma body_start_found (i : nat) (hs : list string) (blank : string)
    (rest : list string) :
  Forall (fun l => Py.truthy (Py.strip l) = true) hs ->
  Py.truthy (Py.strip blank) = false ->
  DocumentParser.body_start_from i (hs ++ blank :: rest)
  = S (i + length hs).
Proof.
  intros H Hb. revert i. induction H as [|l ls Hl _ IH]; intros i; simpl.
  - rewrite Hb. lia.
  - rewrite Hl, IH. lia.
Qed.

(** X4. An e-mail whose first blank (empty or white-space only) line
    follows the header lines [hs] is reduced to the lines after that blank
    line, rejoined by newlines. *)
Theorem parse_email_drops_header (hs : list string) (blank : string)
    (rest : list string) :
  Forall (fun l => has_char Py.nl l = false) (hs ++ blank :: rest) ->
  Forall (fun l => Py.truthy (Py.strip l) = true) hs ->
  Py.truthy (Py.strip blank) = false ->
  DocumentParser.parse_email
    (Py.join (String Py.nl EmptyString) (hs ++ blank :: rest))
  = Py.join (String Py.nl EmptyString) rest.
Proof.
  intros Hnl Hhs Hb. unfold DocumentParser.parse_email. cbv zeta.
  rewrite split_on_join; [|now destruct hs | exact Hnl].
  rewrite (body_start_found 0 hs blank rest Hhs Hb). simpl plus.
  f_equal. replace (S (length hs)) with (length (hs ++ [blank]))
    by (rewrite length_app; simpl; lia).
  replace (hs ++ blank :: rest) with ((hs ++ [blank]) ++ rest)
    by now rewrite <- app_assoc.
  now rewrite skipn_app, skipn_all, Nat.sub_diag.
Qed.

(** X5. An e-mail without any blank line is returned whole, header lines
    included. *)
Theorem parse_email_without_blank_line (content : string) :
  Forall (fun l => Py.truthy (Py.strip l) = true)
         (Py.split_on Py.nl content) ->
  DocumentParser.parse_email content = content.
Proof.
  intros H. unfold DocumentParser.parse_email. cbv zeta.
  rewrite (body_start_none 0 _ H). simpl skipn. apply join_split_on.
Qed.

Lemma lower_char_idem (c : ascii) :
  Py.lower_char (Py.lower_char c) = Py.lower_char c.
Proof. destruct c as [[] [] [] [] [] [] [] []]; vm_compute; reflexivity. Qed.

Lemma lower_idem (s : string) : Py.lower (Py.lower s) = Py.lower s.
Proof.
  induction s as [|c r IH]; simpl; [reflexivity|].
  now rewrite lower_char_idem, IH.
Qed.

Lemma lower_char_dot (c : ascii) :
  Ascii.eqb (Py.lower_char c) Py.dot = Ascii.eqb c Py.dot.
Proof. destruct c as [[] [] [] [] [] [] [] []]; vm_compute; reflexivity. Qed.

Lemma has_dot_lower (s : string) :
  has_char Py.dot (Py.lower s) = has_char Py.dot s.
Proof.
  induction s as [|c r IH]; simpl; [reflexivity|].
  now rewrite lower_char_dot, IH.
Qed.

Lemma last_split_on_no_sep (sep : ascii) (s : string) :
  has_char sep (List.last (Py.split_on sep s) EmptyString) = false.
Proof.
  pose proof (split_on_no_sep sep s) as H.
  pose proof (split_on_not_nil sep s) as Hne.
  induction H as [|w ws Hw Hws IH]; [contradiction|].
  destruct ws as [|w' ws']; [exact Hw|].
  change (List.last (w :: w' :: ws') EmptyString)
    with (List.last (w' :: ws') EmptyString).
  apply IH. discriminate.
Qed.

(** X6. The file type read off a URL is lowercase and holds no period,
    and what follows the first question mark of the URL plays no part in
    it. *)
Theorem file_extension_of_url (url query : string) :
  Py.lower (DocumentParser.file_extension_of url)
  = DocumentParser.file_extension_of url
  /\ has_char Py.dot (DocumentParser.file_extension_of url) = false
  /\ (has_char "?" url = false ->
      DocumentParser.file_extension_of (url +:+ String "?" query)
      = DocumentParser.file_extension_of url).
Proof.
  unfold DocumentParser.file_extension_of. split; [|split].
  - apply lower_idem.
  - rewrite has_dot_lower. apply last_split_on_no_sep.
  - intros H.
    now rewrite (split_on_app "?" url query H), (split_on_without "?" url H).
Qed.

Lemma chunks_trimmed (count_tokens : string -> nat) (max_tokens : Z)
    (text : string) :
  Forall trimmed
    (DocumentParser.split_into_chunks count_tokens max_tokens text).
Proof.
  destruct (split_into_chunks_groups count_tokens max_tokens text)
    as (gs & Hch & _ & Hok & Htr).
  rewrite Hch. apply Forall_map.
  rewrite Forall_forall in Hok, Htr. apply Forall_forall. intros g Hg.
  apply trimmed_join; [apply (Hok g Hg) | apply (Htr g Hg)].
Qed.

(** ** Processing a document *)

Lemma bind_run {St A B} (m : M St A) (f : A -> M St B) (s s' : St) (a : A) :
  m s = (Returned a, s') -> (m ≫= f) s = f a s'.
Proof. intros H. unfold mbind, M_bind. now rewrite H. Qed.

Lemma bind_raise {St A B} (m : M St A) (f : A -> M St B) (s s' : St)
    (e : exn) :
  m s = (Raised e, s') -> (m ≫= f) s = (Raised e, s').
Proof. intros H. unfold mbind, M_bind. now rewrite H. Qed.

Lemma bind_returned {St A B} (m : M St A) (f : A -> M St B) (s s2 : St)
    (b : B) :
  (m ≫= f) s = (Returned b, s2) ->
  exists a s1, m s = (Returned a, s1) /\ f a s1 = (Returned b, s2).
Proof.
  unfold mbind, M_bind. destruct (m s) as [[a|e] s1]; [eauto | discriminate].
Qed.

Lemma try_finally_shape {St A} (body : M St A) (cleanup : M St unit)
    (s : St) :
  exists (r : outcome A) (s3 : St),
    try_finally body cleanup s
    = (match fst (cleanup s3) with
       | Returned _ => r
       | Raised e => Raised e
       end, snd (cleanup s3)).
Proof.
  unfold try_finally. destruct (body s) as [r s3]. exists r, s3.
  now destruct (cleanup s3) as [[[]|e] s4].
Qed.

Lemma try_finally_returned {St A} (body : M St A) (cleanup : M St unit)
    (s s4 : St) (a : A) :
  try_finally body cleanup s = (Returned a, s4) ->
  exists s3, body s = (Returned a, s3).
Proof.
  unfold try_finally. destruct (body s) as [r s3].
  destruct (cleanup s3) as [[[]|e] s']; [|discriminate].
  intros H. injection H as -> _. eauto.
Qed.

Section ProcessingFacts.

Import DocumentParser.

Context {St : Type}.
Variable count_tokens : string -> nat.
Variable max_tokens : Z.
Variable http_get : string -> M St (Z * list Z).
Variable tmp_write : list Z -> string -> M St string.
Variable tmp_remove : string -> M St unit.
Variable fitz_text : string -> M St string.
Variable docx_text : string -> M St string.
Variable decode_utf8_ignore : list Z -> string.

Abbreviation process :=
  (process_document_from_url count_tokens max_tokens http_get tmp_write
     tmp_remove fitz_text docx_text decode_utf8_ignore).

Lemma download_document_ok (url : string) (body : list Z) (st s1 : St) :
  http_get url st = (Returned (200, body), s1) ->
  download_document http_get url st = (Returned body, s1).
Proof.
  intros H. unfold download_document, mbind, M_bind. now rewrite H.
Qed.

(** X7. A response whose status is not 200 makes the processing raise
    the download failure, naming the status, straight after the request:
    no temporary file is written and no parser runs. A request that
    raises is passed on in the same way. *)
Theorem process_document_download_failure (url : string) (st st' : St) :
  (forall status body,
     http_get url st = (Returned (status, body), st') ->
     status <> 200 ->
     process url st
     = (Raised (OtherException
                  ("Failed to download document: " +:+ str_of_Z status)),
        st'))
  /\ (forall e,
        http_get url st = (Raised e, st') ->
        process url st = (Raised e, st')).
Proof.
  split.
  - intros status body Hget Hst.
    unfold process_document_from_url, download_document, mbind, M_bind.
    rewrite Hget. apply Z.eqb_neq in Hst. now rewrite Hst.
  - intros e Hget.
    unfold process_document_from_url, download_document, mbind, M_bind.
    now rewrite Hget.
Qed.

(** X8. Once the download has succeeded and the temporary file is
    written, the file is removed whatever the parser did: the processing
    ends in the state the removal leaves, and, when the removal does not
    raise, with the outcome of the parsing. *)
Theorem process_document_removes_temp_file (url : string) (body : list Z)
    (path : string) (st s1 s2 : St) :
  http_get url st = (Returned (200, body), s1) ->
  tmp_write body ("." +:+ file_extension_of url) s1 = (Returned path, s2) ->
  exists (parsed : outcome (list (gmap string value))) (s3 : St),
    process url st
    = (match fst (tmp_remove path s3) with
       | Returned _ => parsed
       | Raised e => Raised e
       end, snd (tmp_remove path s3)).
Proof.
  intros Hget Hw. unfold process_document_from_url.
  rewrite (bind_run _ _ _ _ _ (download_document_ok url body st s1 Hget)).
  cbv zeta. rewrite (bind_run _ _ _ _ _ Hw).
  apply try_finally_shape.
Qed.

Lemma process_document_returns (url : string) (st st' : St)
    (docs : list (gmap string value)) :
  process url st = (Returned docs, st') ->
  exists text : string,
    docs = imap (chunk_metadata_entry count_tokens url (file_extension_of url)
                   (length (split_into_chunks count_tokens max_tokens text)))
                (split_into_chunks count_tokens max_tokens text).
Proof.
  unfold process_document_from_url. intros H.
  apply bind_returned in H as (content & s1 & _ & H). cbv zeta in H.
  apply bind_returned in H as (path & s2 & _ & H).
  apply try_finally_returned in H as (s3 & H).
  apply bind_returned in H as (text & s4 & _ & H).
  injection H as <- _. eauto.
Qed.

Lemma imap_lookup {A B} (f : nat -> A -> B) (l : list A) (i : nat) :
  imap f l !! i = f i <$> (l !! i).
Proof.
  revert f i. induction l as [|x l IH]; intros f i; [reflexivity|].
  destruct i as [|i]; [reflexivity|]. simpl. now rewrite IH.
Qed.

(** X9. In the list a processing returns, the entry at position [i] has
    chunk_index [i], chunk_id "chunk_i", total_chunks the length of the
    list, doc_source the URL; its text is a non-empty chunk without white
    space at its ends and its token_count the token count of that text;
    it has no "source" and no "timestamp" key. *)
Theorem process_document_metadata (url : string) (st st' : St)
    (docs : list (gmap string value)) (i : nat) (d : gmap string value) :
  process url st = (Returned docs, st') ->
  docs !! i = Some d ->
  d !! "chunk_index" = Some (VInt (Z.of_nat i))
  /\ d !! "chunk_id" = Some (VStr ("chunk_" +:+ str_of_nat i))
  /\ d !! "total_chunks" = Some (VInt (Z.of_nat (length docs)))
  /\ d !! "doc_source" = Some (VStr url)
  /\ (exists chunk : string,
        d !! "text" = Some (VStr chunk)
        /\ trimmed chunk
        /\ d !! "token_count" = Some (VInt (Z.of_nat (count_tokens chunk))))
  /\ d !! "source" = None
  /\ d !! "timestamp" = None.
Proof.
  intros Hp Hd. destruct (process_document_returns url st st' docs Hp)
    as [text ->].
  rewrite length_imap. rewrite imap_lookup in Hd.
  destruct (split_into_chunks count_tokens max_tokens text !! i)
    as [chunk|] eqn:Hc; [|discriminate]. injection Hd as <-.
  assert (Htr : trimmed chunk).
  { pose proof (chunks_trimmed count_tokens max_tokens text) as Hall.
    rewrite Forall_forall in Hall. apply Hall.
    eapply list_elem_of_lookup_2; eauto. }
  unfold chunk_metadata_entry.
  repeat split; try (now vm_compute).
  exists chunk. repeat split; try apply Htr; now vm_compute.
Qed.

End ProcessingFacts.

(** ** Embeddings and indexing *)

(** X10. The embeddings of a list of strings are their surrogate
    vectors, one per text and in the same order; a list that holds a
    value that is not a string gets no embedding at all. *)
Theorem get_embeddings_all_or_nothing (texts : list string)
    (before after : list value) (z : Z) :
  Forall2 (fun s v => EmbeddingServiceVercel._simple_text_to_vector s = Some v)
          texts (EmbeddingServiceVercel.get_embeddings (map VStr texts))
  /\ EmbeddingServiceVercel.get_embeddings (before ++ VInt z :: after) = [].
Proof.
  unfold EmbeddingServiceVercel.get_embeddings. split.
  - destruct (mapM EmbeddingServiceVercel.text_to_vector (map VStr texts))
      as [vs|] eqn:E.
    + apply mapM_Some_1 in E. apply Forall2_fmap_l in E. exact E.
    + apply mapM_None_1, Exists_exists in E as (t & Ht & Hnone).
      apply list_elem_of_fmap in Ht as (s & -> & _). simpl in Hnone.
      rewrite simple_text_to_vector_eq in Hnone. discriminate.
  - rewrite (mapM_None_2 EmbeddingServiceVercel.text_to_vector); [reflexivity|].
    apply Exists_app. right. now constructor.
Qed.

Lemma mapM_subscript_text {St} (docs : list (gmap string value)) (s : St) :
  (exists texts,
     mapM (fun doc => subscript doc "text") docs s = (Returned texts, s)
     /\ Forall2 (fun d t => d !! "text" = Some t) docs texts)
  \/ (exists e,
        mapM (fun doc => subscript doc "text") docs s = (Raised e, s)).
Proof.
  induction docs as [|d docs IH];
    [left; exists []; split; [reflexivity | constructor]|].
  cbn [mapM]. destruct (d !! "text") as [t|] eqn:Ed.
  - assert (Hd : subscript d "text" s = (Returned t, s))
      by (unfold subscript; now rewrite Ed).
    rewrite (bind_run _ _ _ _ _ Hd).
    destruct IH as [(texts & Hm & Hall) | (e & Hm)].
    + left. exists (t :: texts). split; [|now constructor].
      now rewrite (bind_run _ _ _ _ _ Hm).
    + right. exists e. now rewrite (bind_raise _ _ _ _ _ Hm).
  - right. eexists. apply bind_raise. unfold subscript. now rewrite Ed.
Qed.

Section IndexDocumentsFacts.

Import EmbeddingServiceVercel.

Context {St : Type}.
Variable client : Type.
Variable index_upsert : client -> string -> list vector_record -> M St unit.
Variable str_hash : string -> Z.

(** X11. An empty batch, and a batch in which some document has no
    string under "text", are reported as failed (False) and leave the
    state as it was, whatever the backend would have done. *)
Theorem index_documents_rejects_batch (c : client)
    (documents : list (gmap string value)) (st : St) :
  documents = []
  \/ Exists (fun d => forall s, d !! "text" <> Some (VStr s)) documents ->
  index_documents client index_upsert str_hash (Some c) documents st
  = (Returned false, st).
Proof.
  intros Hbad. unfold index_documents, try_except.
  destruct (mapM_subscript_text documents st)
    as [(texts & Hm & Hall) | (e & Hm)].
  - rewrite (bind_run _ _ _ _ _ Hm).
    assert (Hemb : get_embeddings texts = []).
    { destruct Hbad as [-> | Hex].
      - inversion Hall. reflexivity.
      - unfold get_embeddings. rewrite (mapM_None_2 text_to_vector);
          [reflexivity|].
        apply Exists_exists in Hex as (d & Hd & Hno).
        apply list_elem_of_lookup in Hd as [i Hi].
        destruct (Forall2_lookup_l _ _ _ _ _ Hall Hi) as (t & Ht & Hdt).
        apply Exists_exists. exists t. split.
        + eapply list_elem_of_lookup_2; eauto.
        + destruct t as [s|z]; [now apply Hno in Hdt | reflexivity]. }
    now rewrite Hemb.
  - now rewrite (bind_raise _ _ _ _ _ Hm).
Qed.

End IndexDocumentsFacts.

Lemma get_embeddings_strings (texts : list string) :
  EmbeddingServiceVercel.get_embeddings (map VStr texts)
  = map surrogate_vector texts.
Proof.
  unfold EmbeddingServiceVercel.get_embeddings.
  rewrite (mapM_Some_2 EmbeddingServiceVercel.text_to_vector
             (map VStr texts) (map surrogate_vector texts)); [reflexivity|].
  apply Forall2_fmap. apply Forall_Forall2_diag, Forall_forall.
  intros s _. simpl. apply simple_text_to_vector_eq.
Qed.

Lemma mapM_subscript_strings {St} (docs : list (gmap string value))
    (texts : list string) (s : St) :
  Forall2 (fun d t => d !! "text" = Some (VStr t)) docs texts ->
  mapM (fun doc => subscript doc "text") docs s
  = (Returned (map VStr texts), s).
Proof.
  induction 1 as [|d t docs texts Hd _ IH]; [reflexivity|].
  cbn [mapM].
  assert (H : subscript d "text" s = (Returned (VStr t), s))
    by (unfold subscript; now rewrite Hd).
  rewrite (bind_run _ _ _ _ _ H), (bind_run _ _ _ _ _ IH). reflexivity.
Qed.

Lemma mapM_make_vector {St} (str_hash : string -> Z)
    (docs : list (gmap string value)) (texts : list string) (k : nat)
    (s : St) :
  Forall2 (fun d t => d !! "text" = Some (VStr t)) docs texts ->
  mapM (EmbeddingServiceVercel.make_vector str_hash)
       (imap (fun i x => ((k + i)%nat, x))
             (zip docs (map surrogate_vector texts))) s
  = (Returned (imap (fun i entry =>
                       record_of str_hash (k + i) (fst entry) (snd entry))
                    (zip docs texts)), s).
Proof.
  intros H. revert k. induction H as [|d t docs texts Hd _ IH]; intros k;
    [reflexivity|].
  cbn [map zip_with]. rewrite !imap_cons. cbn [mapM].
  assert (Hv : EmbeddingServiceVercel.make_vector str_hash
                 ((k + 0)%nat, (d, surrogate_vector t)) s
               = (Returned (record_of str_hash (k + 0) d t), s)).
  { unfold EmbeddingServiceVercel.make_vector.
    assert (Hs : subscript d "text" s = (Returned (VStr t), s))
      by (unfold subscript; now rewrite Hd).
    now rewrite (bind_run _ _ _ _ _ Hs). }
  rewrite (bind_run _ _ _ _ _ Hv).
  rewrite (imap_ext _ (fun i x => ((S k + i)%nat, x)))
    by (intros; unfold compose; f_equal; lia).
  rewrite (bind_run _ _ _ _ _ (IH (S k))). unfold mret, M_ret.
  cbn [fst snd]. f_equal. f_equal. f_equal.
  apply imap_ext. intros i x _. unfold compose. f_equal. lia.
Qed.

Section UpsertFacts.

Import EmbeddingServiceVercel.

Context {St : Type}.
Variable client : Type.
Variable index_upsert : client -> string -> list vector_record -> M St unit.
Variable str_hash : string -> Z.

Lemma index_documents_run (c : client)
    (documents : list (gmap string value)) (texts : list string) (st : St) :
  documents <> [] ->
  Forall2 (fun d t => d !! "text" = Some (VStr t)) documents texts ->
  index_documents client index_upsert str_hash (Some c) documents st
  = (match fst (index_upsert c index_name
                  (records_of str_hash (zip documents texts)) st) with
     | Returned _ => Returned true
     | Raised _ => Returned false
     end,
     snd (index_upsert c index_name
            (records_of str_hash (zip documents texts)) st)).
Proof.
  intros Hne Hall. unfold index_documents, try_except.
  rewrite (bind_run _ _ _ _ _ (mapM_subscript_strings documents texts st Hall)).
  rewrite get_embeddings_strings.
  pose proof Hall as Hall0.
  destruct Hall as [|d t ds ts Hd Hall]; [contradiction|].
  cbn [map]. change (surrogate_vector t :: map surrogate_vector ts)
    with (map surrogate_vector (t :: ts)).
  pose proof (mapM_make_vector str_hash (d :: ds) (t :: ts) 0 st Hall0)
    as Hv.
  cbn [Nat.add] in Hv. unfold enumerate. rewrite (bind_run _ _ _ _ _ Hv).
  unfold records_of, mbind, M_bind.
  destruct (index_upsert c index_name _ st) as [[[]|e] s']; reflexivity.
Qed.

(** X12. For a non-empty batch whose documents all have a string under
    "text", the backend is called once, with one record per document in
    batch order: id "doc_<position>_<hash of the first 100 characters>",
    the surrogate vector of the whole text as values, and as metadata the
    first 1000 characters of the text, the "source" of the document or
    "unknown", its "timestamp" or "". The result is True when that call
    returns and False when it raises. *)
Theorem index_documents_upserts_once (c : client)
    (documents : list (gmap string value)) (texts : list string) (st : St) :
  documents <> [] ->
  Forall2 (fun d t => d !! "text" = Some (VStr t)) documents texts ->
  index_documents client index_upsert str_hash (Some c) documents st
  = (match fst (index_upsert c index_name
                  (records_of str_hash (zip documents texts)) st) with
     | Returned _ => Returned true
     | Raised _ => Returned false
     end,
     snd (index_upsert c index_name
            (records_of str_hash (zip documents texts)) st))
  /\ length (records_of str_hash (zip documents texts)) = length documents.
Proof.
  intros Hne Hall. split; [now apply index_documents_run|].
  unfold records_of. rewrite length_imap, length_zip.
  apply Forall2_length in Hall. lia.
Qed.

End UpsertFacts.

(** ** Record ids within a batch *)

Lemma str_of_nat_inj (i j : nat) : str_of_nat i = str_of_nat j -> i = j.
Proof.
  unfold str_of_nat. intros H.
  apply DecimalNat.Unsigned.to_uint_inj.
  pose proof (NilEmpty.usu (Nat.to_uint i)) as Hi.
  rewrite H, NilEmpty.usu in Hi. now injection Hi.
Qed.

Lemma string_of_uint_no_underscore (d : Decimal.uint) :
  has_char "_" (NilEmpty.string_of_uint d) = false.
Proof. induction d; simpl; auto. Qed.

Lemma append_split_at (c : ascii) (a b x y : string) :
  has_char c a = false -> has_char c b = false ->
  a +:+ String c x = b +:+ String c y -> a = b.
Proof.
  revert b. induction a as [|p a IH]; intros [|q b] Ha Hb H.
  - reflexivity.
  - rewrite append_nil_l, append_cons in H. injection H as <- _.
    simpl in Hb. now rewrite Ascii.eqb_refl in Hb.
  - rewrite append_nil_l, append_cons in H. injection H as -> _.
    simpl in Ha. now rewrite Ascii.eqb_refl in Ha.
  - rewrite !append_cons in H. injection H as -> H.
    simpl in Ha, Hb. apply orb_false_iff in Ha as [_ Ha].
    apply orb_false_iff in Hb as [_ Hb]. f_equal. eauto.
Qed.

Lemma record_id_inj (str_hash : string -> Z) (i j : nat)
    (d d' : gmap string value) (t t' : string) :
  EmbeddingServiceVercel.vec_id (record_of str_hash i d t)
  = EmbeddingServiceVercel.vec_id (record_of str_hash j d' t') ->
  i = j.
Proof.
  cbn [record_of EmbeddingServiceVercel.vec_id]. intros H.
  apply (inj (String.append "doc_")) in H.
  apply str_of_nat_inj.
  eapply (append_split_at "_"); [| |exact H];
    apply string_of_uint_no_underscore.
Qed.

Lemma records_of_ids_distinct (str_hash : string -> Z)
    (entries : list (gmap string value * string)) :
  NoDup (map EmbeddingServiceVercel.vec_id (records_of str_hash entries)).
Proof.
  apply NoDup_alt. intros i j x Hi Hj. unfold records_of in *.
  change (map ?f ?l) with (f <$> l) in Hi, Hj.
  rewrite list_lookup_fmap, list_lookup_imap in Hi, Hj.
  destruct (entries !! i) as [ei|]; [|discriminate].
  destruct (entries !! j) as [ej|]; [|discriminate].
  cbn [fmap option_fmap option_map] in Hi, Hj.
  apply (inj Some) in Hi. apply (inj Some) in Hj.
  eapply record_id_inj. rewrite Hi, Hj. reflexivity.
Qed.

Lemma store_upsert_fresh (vs : list EmbeddingServiceVercel.vector_record)
    (store : gmap string EmbeddingServiceVercel.vector_record) :
  NoDup (map EmbeddingServiceVercel.vec_id vs) ->
  Forall (fun v => store !! EmbeddingServiceVercel.vec_id v = None) vs ->
  size (store_upsert vs store) = (size store + length vs)%nat.
Proof.
  revert store. induction vs as [|v vs IH]; intros store Hnd Hfresh.
  - simpl. lia.
  - inversion Hfresh as [|? ? Hv Hvs]; subst.
    cbn [map] in Hnd. apply NoDup_cons in Hnd as [Hnotin Hnd].
    unfold store_upsert. cbn [fold_left]. fold (store_upsert vs).
    rewrite IH; [| exact Hnd |].
    + rewrite map_size_insert_None by exact Hv. simpl. lia.
    + rewrite Forall_forall in Hvs. apply Forall_forall. intros w Hw.
      rewrite lookup_insert_ne; [now apply Hvs|].
      intros E. apply Hnotin. rewrite E.
      change (map ?f ?l) with (f <$> l). now apply list_elem_of_fmap_2.
Qed.

(** X13. The records of one batch have pairwise different ids; so a run
    of [index_documents] on an empty store, for documents that all have a
    string under "text", leaves exactly one record per document. *)
Theorem index_run_one_record_per_document (str_hash : string -> Z)
    (documents : list (gmap string value)) (texts : list string) :
  Forall2 (fun d t => d !! "text" = Some (VStr t)) documents texts ->
  NoDup (map EmbeddingServiceVercel.vec_id
           (records_of str_hash (zip documents texts)))
  /\ size (index_run str_hash documents ∅) = length documents.
Proof.
  intros Hall. split; [apply records_of_ids_distinct|].
  unfold index_run.
  destruct (decide (documents = [])) as [->|Hne]; [reflexivity|].
  rewrite (index_documents_run unit stored_upsert str_hash tt
             documents texts ∅ Hne Hall).
  cbn [snd stored_upsert].
  rewrite store_upsert_fresh.
  - rewrite map_size_empty. unfold records_of.
    rewrite length_imap, length_zip.
    apply Forall2_length in Hall. lia.
  - apply records_of_ids_distinct.
  - apply Forall_forall. intros v _. apply lookup_empty.
Qed.

(** ** What is stored for a processed document *)

Section StoredMetadataFacts.

Context {St : Type}.
Variable count_tokens : string -> nat.
Variable max_tokens : Z.
Variable http_get : string -> M St (Z * list Z).
Variable tmp_write : list Z -> string -> M St string.
Variable tmp_remove : string -> M St unit.
Variable fitz_text : string -> M St string.
Variable docx_text : string -> M St string.
Variable decode_utf8_ignore : list Z -> string.
Variable str_hash : string -> Z.

(** X14. The documents a processing returns all have a string under
    "text", so that they can be indexed; and the record of each holds as
    metadata the first 1000 characters of the chunk, the source "unknown"
    and an empty timestamp: the URL of the document, kept by the parser
    under "doc_source", is not stored. *)
Theorem processed_documents_records (url : string) (st st' : St)
    (docs : list (gmap string value)) :
  DocumentParser.process_document_from_url count_tokens max_tokens http_get
    tmp_write tmp_remove fitz_text docx_text decode_utf8_ignore url st
  = (Returned docs, st') ->
  exists texts : list string,
    Forall2 (fun d t => d !! "text" = Some (VStr t)) docs texts
    /\ forall (i : nat) (d : gmap string value) (t : string),
         zip docs texts !! i = Some (d, t) ->
         EmbeddingServiceVercel.vec_metadata (record_of str_hash i d t)
         = <["text" := VStr (Py.slice_to 1000 t)]>
           (<["source" := VStr "unknown"]>
           (<["timestamp" := VStr ""]> ∅)).
Proof.
  intros Hp.
  destruct (process_document_returns count_tokens max_tokens http_get
              tmp_write tmp_remove fitz_text docx_text decode_utf8_ignore
              url st st' docs Hp) as [text ->].
  set (chunks := DocumentParser.split_into_chunks count_tokens max_tokens text).
  assert (Hall : Forall2 (fun d t => d !! "text" = Some (VStr t))
                   (imap (DocumentParser.chunk_metadata_entry count_tokens url
                            (DocumentParser.file_extension_of url)
                            (length chunks)) chunks) chunks).
  { apply Forall2_same_length_lookup_2; [now rewrite length_imap|].
    intros i d t Hd Ht. rewrite list_lookup_imap, Ht in Hd.
    apply (inj Some) in Hd. subst d. now vm_compute. }
  exists chunks. split; [exact Hall|].
  intros i d t Hz. apply lookup_zip_with_Some in Hz
    as (d' & t' & E & Hd & Ht). injection E as <- <-.
  rewrite list_lookup_imap, Ht in Hd. apply (inj Some) in Hd. subst d.
  unfold record_of, dict_get. cbn [EmbeddingServiceVercel.vec_metadata].
  replace (DocumentParser.chunk_metadata_entry count_tokens url
             (DocumentParser.file_extension_of url) (length chunks) i t
           !! "source") with (@None value) by now vm_compute.
  replace (DocumentParser.chunk_metadata_entry count_tokens url
             (DocumentParser.file_extension_of url) (length chunks) i t
           !! "timestamp") with (@None value) by now vm_compute.
  reflexivity.
Qed.

End StoredMetadataFacts.

(** ** Searching and starting up *)

Section SearchFacts.

Import EmbeddingServiceVercel.

Context {St : Type}.
Variable client : Type.
Variable Pinecone : string -> M St client.
Variable list_indexes : client -> M St (list string).
Variable create_index : client -> string -> Z -> string -> M St unit.
Variable index_query :
  client -> string -> list Q -> Z -> M St (list query_match).

Lemma mapM_format_match (ms : list query_match) (s : St) :
  (Forall (fun m => match_metadata m <> None) ms ->
   exists docs,
     mapM format_match ms s = (Returned docs, s)
     /\ Forall2 (fun m d =>
                   exists md, match_metadata m = Some md
                              /\ d = {| doc_id := match_id m;
                                        doc_score := match_score m;
                                        doc_text := dict_get md "text" (VStr "");
                                        doc_source := dict_get md "source" (VStr "");
                                        doc_timestamp :=
                                          dict_get md "timestamp" (VStr "") |})
                ms docs)
  /\ (Exists (fun m => match_metadata m = None) ms ->
      exists e, mapM format_match ms s = (Raised e, s)).
Proof.
  induction ms as [|m ms [IHok IHbad]].
  - split; [intros _; exists []; split; [reflexivity | constructor]|].
    intros H. inversion H.
  - cbn [mapM]. destruct (match_metadata m) as [md|] eqn:Em.
    + assert (Hm : format_match m s = (Returned _, s))
        by (unfold format_match; rewrite Em; reflexivity).
      rewrite (bind_run _ _ _ _ _ Hm). split.
      * intros Hall. inversion Hall as [|? ? _ Hms]; subst.
        destruct (IHok Hms) as (docs & Hd & Hf).
        eexists. rewrite (bind_run _ _ _ _ _ Hd). split; [reflexivity|].
        constructor; [eauto | exact Hf].
      * intros Hex. inversion Hex as [? ? Hn | ? ? Hms]; subst;
          [congruence|].
        destruct (IHbad Hms) as (e & He). exists e.
        now rewrite (bind_raise _ _ _ _ _ He).
    + split; [intros Hall; inversion Hall; congruence|].
      intros _. eexists. apply bind_raise.
      unfold format_match. rewrite Em. reflexivity.
Qed.

(** X15. When the backend answers a search with matches that all carry
    metadata, the result has one entry per match, in the order of the
    matches, with the id and score of the match and the text, source and
    timestamp of its metadata, "" standing for a missing key. When some
    match carries no metadata the result is empty, the other matches
    being dropped with it. *)
Theorem search_similar_formats (c : client) (query : string) (top_k : Z)
    (matches : list query_match) (st st' : St) :
  index_query c index_name (surrogate_vector query) top_k st
  = (Returned matches, st') ->
  (Forall (fun m => match_metadata m <> None) matches ->
   exists docs,
     search_similar client index_query (Some c) query top_k st
     = (Returned docs, st')
     /\ Forall2 (fun m d =>
                   exists md, match_metadata m = Some md
                              /\ d = {| doc_id := match_id m;
                                        doc_score := match_score m;
                                        doc_text := dict_get md "text" (VStr "");
                                        doc_source := dict_get md "source" (VStr "");
                                        doc_timestamp :=
                                          dict_get md "timestamp" (VStr "") |})
                matches docs)
  /\ (Exists (fun m => match_metadata m = None) matches ->
      search_similar client index_query (Some c) query top_k st
      = (Returned [], st')).
Proof.
  intros Hq. unfold search_similar, try_except.
  change [VStr query] with (map VStr [query]).
  rewrite get_embeddings_strings. cbn [map].
  rewrite (bind_run _ _ _ _ _ Hq).
  destruct (mapM_format_match matches st') as [Hok Hbad]. split.
  - intros Hall. destruct (Hok Hall) as (docs & Hd & Hf).
    exists docs. now rewrite Hd.
  - intros Hex. destruct (Hbad Hex) as (e & He). now rewrite He.
Qed.

(** X16. When the credentials are set and the client constructor
    returns, the service is enabled, whatever listing or creating the
    index does: with the index listed nothing is created, and otherwise
    an index of dimension 128 with the cosine metric is requested, a
    failure of that request being swallowed. *)
Theorem init_enables_service (key : string) (env : option string)
    (pc : client) (st s1 : St) :
  Py.truthy key && env_truthy env = true ->
  Pinecone key st = (Returned pc, s1) ->
  (exists s2,
     __init__ client Pinecone list_indexes create_index (Some key) env st
     = (Returned (Some pc), s2))
  /\ (forall names s2,
        list_indexes pc s1 = (Returned names, s2) ->
        __init__ client Pinecone list_indexes create_index (Some key) env st
        = (Returned (Some pc),
           if bool_decide (index_name ∈ names) then s2
           else snd (create_index pc index_name 128 "cosine" s2))).
Proof.
  intros Hc Hp.
  assert (Hun : __init__ client Pinecone list_indexes create_index
                  (Some key) env st
                = (Returned (Some pc),
                   snd (_ensure_index_exists client list_indexes create_index
                          pc s1))).
  { unfold __init__. rewrite Hc. unfold try_except.
    rewrite (bind_run _ _ _ _ _ Hp).
    destruct (try_except_default
                (existing_indexes ← list_indexes pc;
                 if negb (bool_decide (index_name ∈ existing_indexes))
                 then create_index pc index_name 128 "cosine"
                 else mret ()) tt s1) as ([] & s2 & He).
    unfold _ensure_index_exists. unfold mbind at 1, M_bind at 1.
    rewrite He. reflexivity. }
  split; [eauto|].
  intros names s2 Hl. rewrite Hun. f_equal.
  unfold _ensure_index_exists, try_except.
  rewrite (bind_run _ _ _ _ _ Hl).
  destruct (bool_decide (index_name ∈ names)).
  - reflexivity.
  - change (negb false) with true. cbv beta iota.
    now destruct (create_index pc index_name 128 "cosine" s2) as [[[]|e] s3].
Qed.

End SearchFacts.

(** ** The LLM paths of the Groq service *)

Lemma mapM_returns {St A B} (f : A -> M St B) (l : list A) (s : St) :
  (forall x s, exists r s', f x s = (Returned r, s')) ->
  exists rs s',
    mapM f l s = (Returned rs, s')
    /\ Forall2 (fun x r => exists s1 s2, f x s1 = (Returned r, s2)) l rs.
Proof.
  intros Hf. revert s. induction l as [|x l IH]; intros s.
  - exists [], s. split; [reflexivity | constructor].
  - destruct (Hf x s) as (r & s1 & Hr).
    destruct (IH s1) as (rs & s2 & Hrs & Hall).
    exists (r :: rs), s2. split.
    + cbn [mapM]. now rewrite (bind_run _ _ _ _ _ Hr), (bind_run _ _ _ _ _ Hrs).
    + constructor; [eauto | exact Hall].
Qed.

Section GroqFacts.

Import GroqService.

Context {St : Type}.
Variable groq_client : Type.
Variable Json : Type.
Variable chat_completion : groq_client -> llm_request -> Z -> M St string.
Variable json_loads : string -> option Json.

(** X17. Parsing a query and evaluating a clause never raise. Without a
    client the result is the fallback and the state is untouched. With a
    client the result is the JSON value of the model only when the call
    returned and its stripped text parsed as JSON; when the call raised or
    the text did not parse, the result is the fallback. *)
Theorem llm_results_or_fallback (client : option groq_client)
    (query clause : string) (st : St) :
  (exists r st',
     parse_query groq_client Json chat_completion json_loads client query st
     = (Returned r, st')
     /\ (client = None -> st' = st)
     /\ (r = FromFallback (_fallback_parse_query query)
         \/ exists c content j,
              client = Some c
              /\ chat_completion c (ParsePrompt query) 200 st
                 = (Returned content, st')
              /\ json_loads (Py.strip content) = Some j
              /\ r = FromLLM j))
  /\ (exists r st',
        evaluate_clause groq_client Json chat_completion json_loads client
          query clause st = (Returned r, st')
        /\ (client = None -> st' = st)
        /\ (r = FromFallback (_fallback_evaluate_clause query clause)
            \/ exists c content j,
                 client = Some c
                 /\ chat_completion c (EvaluatePrompt query clause) 300 st
                    = (Returned content, st')
                 /\ json_loads (Py.strip content) = Some j
                 /\ r = FromLLM j)).
Proof.
  split.
  - unfold parse_query. destruct client as [c|].
    + unfold try_except, mbind, M_bind.
      destruct (chat_completion c (ParsePrompt query) 200 st)
        as [[content|e] s1] eqn:Hc.
      * cbv zeta. destruct (json_loads (Py.strip content)) as [j|] eqn:Hj.
        -- eexists _, _. split; [reflexivity|]. split; [discriminate|].
           right. exists c, content, j. auto.
        -- eexists _, _. split; [reflexivity|]. split; [discriminate|]. now left.
      * eexists _, _. split; [reflexivity|]. split; [discriminate|]. now left.
    + eexists _, _. split; [reflexivity|]. split; [reflexivity|]. now left.
  - unfold evaluate_clause. destruct client as [c|].
    + unfold try_except, mbind, M_bind.
      destruct (chat_completion c (EvaluatePrompt query clause) 300 st)
        as [[content|e] s1] eqn:Hc.
      * cbv zeta. destruct (json_loads (Py.strip content)) as [j|] eqn:Hj.
        -- eexists _, _. split; [reflexivity|]. split; [discriminate|].
           right. exists c, content, j. auto.
        -- eexists _, _. split; [reflexivity|]. split; [discriminate|]. now left.
      * eexists _, _. split; [reflexivity|]. split; [discriminate|]. now left.
    + eexists _, _. split; [reflexivity|]. split; [reflexivity|]. now left.
Qed.

Lemma str_items_strs (texts : list string) :
  str_items (map VStr texts) = Some texts.
Proof.
  unfold str_items. apply mapM_Some.
  induction texts as [|t ts IH]; constructor; [reflexivity | exact IH].
Qed.

Lemma str_items_firstn (n : nat) (l : list value) :
  str_items (firstn n l) = None -> str_items l = None.
Proof.
  unfold str_items. rewrite !mapM_None, !Exists_exists.
  intros (x & Hin & Hx). exists x. split; [|exact Hx].
  now apply (subseteq_take n l).
Qed.

Lemma fallback_generate_answer_of_strs (query : string)
    (texts : list string) :
  fallback_generate_answer_of (St := St) query (map VStr texts)
  = mret (_fallback_generate_answer query texts).
Proof.
  unfold fallback_generate_answer_of. now rewrite str_items_strs.
Qed.

(** X18. Generating an answer from texts that are all strings never
    raises. The model is shown the first five texts at most, joined by
    blank lines, and its reply is returned stripped; when there is no
    client or the call raises, the answer is the fallback answer, computed
    from all the texts. When one of the first five texts is not a string,
    generating raises TypeError, with or without a client, and the model
    is not called. *)
Theorem generate_detailed_answer_paths (client : option groq_client)
    (query : string) (st : St) :
  (forall texts : list string,
     exists answer st',
       generate_detailed_answer groq_client chat_completion client query
         (map VStr texts) st = (Returned answer, st')
       /\ (client = None -> st' = st)
       /\ (answer = _fallback_generate_answer query texts
           \/ exists c content,
                client = Some c
                /\ chat_completion c
                     (AnswerPrompt query
                        (Py.join (String Py.nl (String Py.nl EmptyString))
                                 (firstn 5 texts))) 500 st
                   = (Returned content, st')
                /\ answer = Py.strip content
                /\ Py.strip answer = answer))
  /\ (forall relevant_texts : list value,
        str_items (firstn 5 relevant_texts) = None ->
        generate_detailed_answer groq_client chat_completion client query
          relevant_texts st = (Raised (OtherException "TypeError"), st)).
Proof.
  split.
  - intros texts. unfold generate_detailed_answer. destruct client as [c|].
    + rewrite fallback_generate_answer_of_strs.
      unfold try_except, Py.list_slice_to.
      rewrite firstn_map, str_items_strs. cbv zeta.
      unfold mbind, M_bind.
      destruct (chat_completion c _ 500 st) as [[content|e] s1] eqn:Hc.
      * eexists _, _. split; [reflexivity|]. split; [discriminate|].
        right. exists c, content. split; [reflexivity|]. split; [exact Hc|].
        split; [reflexivity|]. unfold Py.strip at 1 2.
        rewrite rstrip_lstrip_fixed by apply rstrip_idem. apply lstrip_idem.
      * eexists _, _. split; [reflexivity|]. split; [discriminate|]. now left.
    + rewrite fallback_generate_answer_of_strs.
      eexists _, _. split; [reflexivity|]. split; [reflexivity|]. now left.
  - intros relevant_texts Hn.
    pose proof (str_items_firstn 5 relevant_texts Hn) as Hall.
    unfold generate_detailed_answer, fallback_generate_answer_of.
    destruct client as [c|].
    + unfold try_except, Py.list_slice_to. now rewrite Hn, Hall.
    + now rewrite Hall.
Qed.

Lemma generate_detailed_answer_total (client : option groq_client)
    (entry : string * list string) (s : St) :
  exists r s',
    (let '(query, relevant_texts) := entry in
     generate_detailed_answer groq_client chat_completion client query
       (map VStr relevant_texts)) s = (Returned r, s').
Proof.
  destruct entry as [q ts]. unfold generate_detailed_answer.
  rewrite fallback_generate_answer_of_strs.
  destruct client as [c|]; [apply try_except_default | eauto].
Qed.

Lemma parse_query_total (client : option groq_client) (query : string)
    (s : St) :
  exists r s',
    parse_query groq_client Json chat_completion json_loads client query s
    = (Returned r, s').
Proof.
  unfold parse_query.
  destruct client as [c|]; [apply try_except_default | eauto].
Qed.

Lemma evaluate_clause_total (client : option groq_client)
    (query clause : string) (s : St) :
  exists r s',
    evaluate_clause groq_client Json chat_completion json_loads client query
      clause s = (Returned r, s').
Proof.
  unfold evaluate_clause.
  destruct client as [c|]; [apply try_except_default | eauto].
Qed.

Lemma zip_map_strs (queries : list string) (texts_list : list (list string)) :
  zip queries (map (map VStr) texts_list)
  = map (fun entry => (fst entry, map VStr (snd entry)))
        (zip queries texts_list).
Proof.
  revert texts_list. induction queries as [|q qs IH]; intros [|ts tss];
    try reflexivity.
  cbn [map zip zip_with fst snd]. f_equal. apply IH.
Qed.

Lemma mapM_map {A B C} (f : B -> M St C) (g : A -> B) (l : list A) :
  mapM f (map g l) = mapM (fun x => f (g x)) l.
Proof.
  induction l as [|x l IH]; [reflexivity|]. cbn [map mapM]. now rewrite IH.
Qed.

(** X19. The batch operations on queries and clauses never raise and
    give one result each, in order. Answers are generated for the pairs
    of a query and a list of texts at the same position only, so that,
    the texts being strings, the number of answers is the smaller of the
    two lengths and surplus queries get none. *)
Theorem batch_operations_lengths (client : option groq_client)
    (queries : list string) (query : string) (clauses : list string)
    (texts_list : list (list string)) (st : St) :
  (exists rs st',
     batch_parse_queries groq_client Json chat_completion json_loads client
       queries st = (Returned rs, st')
     /\ length rs = length queries)
  /\ (exists rs st',
        batch_evaluate_clauses groq_client Json chat_completion json_loads
          client query clauses st = (Returned rs, st')
        /\ length rs = length clauses)
  /\ (exists answers st',
        batch_generate_answers groq_client chat_completion client queries
          (map (map VStr) texts_list) st = (Returned answers, st')
        /\ length answers = Nat.min (length queries) (length texts_list)
        /\ Forall2 (fun entry a =>
                      exists s1 s2,
                        generate_detailed_answer groq_client chat_completion
                          client (fst entry) (map VStr (snd entry)) s1
                        = (Returned a, s2))
                   (zip queries texts_list) answers).
Proof.
  split; [|split].
  - destruct (mapM_returns
                (parse_query groq_client Json chat_completion json_loads
                   client) queries st) as (rs & s' & H & Hall).
    { intros q s. apply parse_query_total. }
    exists rs, s'. split; [exact H|].
    symmetry. eapply Forall2_length; eauto.
  - destruct (mapM_returns
                (evaluate_clause groq_client Json chat_completion json_loads
                   client query) clauses st) as (rs & s' & H & Hall).
    { intros cl s. apply evaluate_clause_total. }
    exists rs, s'. split; [exact H|].
    symmetry. eapply Forall2_length; eauto.
  - unfold batch_generate_answers. rewrite zip_map_strs, mapM_map.
    destruct (mapM_returns
                (fun entry : string * list string =>
                   let '(q, ts) := (fst entry, map VStr (snd entry)) in
                   generate_detailed_answer groq_client chat_completion
                     client q ts)
                (zip queries texts_list) st)
      as (rs & s' & H & Hall).
    { intros entry s.
      destruct (generate_detailed_answer_total client entry s)
        as (r & s1 & Hr).
      destruct entry as [q ts]. eauto. }
    exists rs, s'. split; [exact H|]. split.
    + rewrite <- (Forall2_length _ _ _ Hall). apply length_zip.
    + eapply Forall2_impl; [exact Hall|].
      intros [q ts] a (s1 & s2 & Ha). eauto.
Qed.

End GroqFacts.

(** ** More on the fallbacks *)

Lemma prefix_app_l (a b q : string) :
  String.prefix (a +:+ b) q = true -> String.prefix a q = true.
Proof.
  revert q. induction a as [|c a IH]; intros q H; [now destruct q|].
  rewrite append_cons in H. destruct q as [|d q]; [discriminate|].
  simpl in *. destruct (ascii_dec c d); [eauto | discriminate].
Qed.

Lemma contains_nil (a : string) :
  Py.contains a "" = String.prefix a "" || false.
Proof. reflexivity. Qed.

Lemma contains_cons (a : string) (d : ascii) (q : string) :
  Py.contains a (String d q)
  = String.prefix a (String d q) || Py.contains a q.
Proof. reflexivity. Qed.

Lemma contains_app_l (a b q : string) :
  Py.contains (a +:+ b) q = true -> Py.contains a q = true.
Proof.
  induction q as [|d q IH]; intros H.
  - rewrite contains_nil, orb_false_r in *. now apply (prefix_app_l a b).
  - rewrite contains_cons in *.
    apply orb_true_iff in H as [H|H]; apply orb_true_iff;
      [left; now apply (prefix_app_l a b) | right; auto].
Qed.

Lemma contains_prefix (b q : string) :
  String.prefix b q = true -> Py.contains b q = true.
Proof.
  intros H. destruct q; [rewrite contains_nil | rewrite contains_cons];
    now rewrite H.
Qed.

Lemma prefix_app_r (a b q : string) :
  String.prefix (a +:+ b) q = true -> Py.contains b q = true.
Proof.
  revert q. induction a as [|c a IH]; intros q H.
  - now apply contains_prefix.
  - rewrite append_cons in H. destruct q as [|d q]; [discriminate|].
    simpl in H. destruct (ascii_dec c d); [|discriminate].
    rewrite contains_cons. apply orb_true_iff. right. auto.
Qed.

Lemma contains_app_r (a b q : string) :
  Py.contains (a +:+ b) q = true -> Py.contains b q = true.
Proof.
  induction q as [|d q IH]; intros H.
  - rewrite contains_nil, orb_false_r in H. now apply prefix_app_r in H.
  - rewrite contains_cons in H. apply orb_true_iff in H as [H|H].
    + apply prefix_app_r in H. exact H.
    + rewrite contains_cons. apply orb_true_iff. right. auto.
Qed.

(** X20. The intent and the entities of the fallback parser agree: a
    question that lists "grace period" or "waiting period" has intent
    find_period, and a question with intent general_query lists none of
    "grace period", "waiting period", "premium", "coverage", "benefit",
    "claim" and "ncd". *)
Theorem fallback_intent_entities (query : string) :
  let r := GroqService._fallback_parse_query query in
  (In "grace period" (GroqService.entities r)
   \/ In "waiting period" (GroqService.entities r) ->
   GroqService.intent r = "find_period")
  /\ (GroqService.intent r = "general_query" ->
      GroqService.entities r
      = List.filter (listed query)
          [ "hospital"; "maternity"; "deductible"; "exclusion"; "policy";
            "term"; "renewal"; "cancellation" ]).
Proof.
  intros r. subst r. rewrite fallback_entities, fallback_intent.
  assert (Hgp : listed query "grace period" = true -> found "grace" query = true).
  { unfold listed, found. cbn [String.eqb Ascii.eqb Bool.eqb].
    apply (contains_app_l "grace" " period"). }
  assert (Hwp : listed query "waiting period" = true ->
                found "waiting" query = true).
  { unfold listed, found. cbn [String.eqb Ascii.eqb Bool.eqb].
    apply (contains_app_l "waiting" " period"). }
  assert (Hncd : listed query "ncd" = true ->
                 found "claim" query || found "ncd" query = true).
  { unfold listed, found. cbn [String.eqb Ascii.eqb Bool.eqb].
    intros H. apply orb_true_iff in H as [H|H]; apply orb_true_iff;
      [now right | left].
    apply (contains_app_l "claim" " discount").
    now apply (contains_app_r "no " "claim discount"). }
  split.
  - intros H.
    assert (Hg : found "grace" query || found "waiting" query = true).
    { apply orb_true_iff.
      destruct H as [H|H]; apply filter_In in H as [_ H]; auto. }
    unfold first_intent, intent_table. cbn [existsb].
    rewrite orb_false_r. now rewrite Hg.
  - unfold first_intent, intent_table, vocabulary. cbn [existsb List.filter].
    change (listed query "premium") with (found "premium" query).
    change (listed query "coverage") with (found "coverage" query).
    change (listed query "benefit") with (found "benefit" query).
    change (listed query "claim") with (found "claim" query).
    destruct (found "grace" query) eqn:E1; [discriminate|].
    destruct (found "waiting" query) eqn:E2; [discriminate|].
    destruct (found "premium" query) eqn:E3; [discriminate|].
    destruct (found "payment" query) eqn:E4; [discriminate|].
    destruct (found "coverage" query) eqn:E5; [discriminate|].
    destruct (found "benefit" query) eqn:E6; [discriminate|].
    destruct (found "claim" query) eqn:E7; [discriminate|].
    destruct (found "ncd" query) eqn:E8; [discriminate|].
    intros _.
    destruct (listed query "grace period"); [now specialize (Hgp eq_refl)|].
    destruct (listed query "waiting period"); [now specialize (Hwp eq_refl)|].
    destruct (listed query "ncd"); [now specialize (Hncd eq_refl)|].
    reflexivity.
Qed.

Lemma length_append (a b : string) :
  String.length (a +:+ b) = (String.length a + String.length b)%nat.
Proof.
  induction a as [|c a IH]; [reflexivity|].
  rewrite append_cons. simpl. now rewrite IH.
Qed.

Lemma length_slice_to (n : nat) (s : string) :
  (String.length (Py.slice_to n s) <= n)%nat.
Proof.
  revert s. induction n as [|n IH]; intros [|c s]; simpl; try lia.
  specialize (IH s). lia.
Qed.

Lemma slice_to_short (n : nat) (s : string) :
  (String.length s <= n)%nat -> Py.slice_to n s = s.
Proof.
  revert s. induction n as [|n IH]; intros [|c s]; simpl; intros H;
    try reflexivity; try lia.
  rewrite IH; [reflexivity | lia].
Qed.

Lemma truncate_length (n : nat) (s : string) :
  (String.length
     (if Py.len s >? Z.of_nat n then Py.slice_to n s +:+ "..." else s)
   <= n + 3)%nat.
Proof.
  unfold Py.len. destruct (Z.gtb_spec (Z.of_nat (String.length s)) (Z.of_nat n)).
  - rewrite length_append. pose proof (length_slice_to n s). simpl. lia.
  - lia.
Qed.

Lemma word_set_lower (s : string) : word_set (Py.lower s) = word_set s.
Proof. unfold word_set. now rewrite lower_idem. Qed.

(** X21. The fallback evaluation at its edges. A question with at least
    one word, evaluated against itself, is answered "yes" with confidence
    1; a question without words is answered "no" with confidence 0,
    whatever the clause; the direct answer is never longer than 203
    characters; and the answer and the confidence do not change when the
    question and the clause are lowercased. *)
Theorem fallback_evaluate_clause_edges (query clause : string) :
  let eval := GroqService._fallback_evaluate_clause in
  (Py.split (Py.lower query) <> [] ->
   GroqService.answer (eval query query) = "yes"
   /\ (GroqService.confidence (eval query query) == 1)%Q)
  /\ (Py.split (Py.lower query) = [] ->
      GroqService.answer (eval query clause) = "no"
      /\ GroqService.confidence (eval query clause) = 0%Q)
  /\ (String.length (GroqService.direct_answer (eval query clause)) <= 203)%nat
  /\ GroqService.answer (eval (Py.lower query) (Py.lower clause))
     = GroqService.answer (eval query clause)
  /\ GroqService.confidence (eval (Py.lower query) (Py.lower clause))
     = GroqService.confidence (eval query clause).
Proof.
  cbv zeta. split; [|split; [|split; [|split]]].
  - intros Hne. rewrite fallback_evaluate_clause_unfold. cbv zeta.
    assert (Hsize : (0 < size (word_set query))%nat).
    { unfold word_set. destruct (Py.split (Py.lower query)) as [|w ws];
        [contradiction|].
      cbn [list_to_set]. apply Nat.neq_0_lt_0. intros E.
      apply size_empty_inv in E. set_solver. }
    assert (Hr : overlap_ratio query query
                 = Z.of_nat (size (word_set query))
                   # Pos.of_nat (size (word_set query))).
    { unfold overlap_ratio. rewrite (idemp_L (∩)).
      destruct (Nat.eqb_spec (size (word_set query)) 0); [lia | reflexivity]. }
    assert (Hone : (overlap_ratio query query == 1)%Q).
    { rewrite Hr. unfold Qeq. cbn [Qnum Qden].
      rewrite Z.mul_1_r, Z.mul_1_l.
      rewrite <- positive_nat_Z, Nat2Pos.id by lia. reflexivity. }
    assert (Hgt : GroqService.gt_0_3 (overlap_ratio query query) = true).
    { apply gt_0_3_iff. rewrite Hone. reflexivity. }
    rewrite Hgt. split; [reflexivity | exact Hone].
  - intros He. rewrite fallback_evaluate_clause_unfold. cbv zeta.
    assert (Hr : overlap_ratio query clause = 0%Q).
    { unfold overlap_ratio, word_set. rewrite He. reflexivity. }
    rewrite Hr. split; reflexivity.
  - rewrite fallback_evaluate_clause_unfold. cbv zeta.
    destruct (GroqService.gt_0_3 _); cbn [GroqService.direct_answer].
    + apply (truncate_length 200).
    + vm_compute. lia.
  - rewrite !fallback_evaluate_clause_unfold. cbv zeta.
    unfold overlap_ratio. rewrite !word_set_lower.
    now destruct (GroqService.gt_0_3 _).
  - rewrite !fallback_evaluate_clause_unfold. cbv zeta.
    unfold overlap_ratio. rewrite !word_set_lower.
    now destruct (GroqService.gt_0_3 _).
Qed.

(** X22. The fallback answer at its edges. For a question without words
    no sentence is selected and the answer is the joined text, cut at 500
    characters; and whenever no sentence matches, the answer is at most
    503 characters long. *)
Theorem fallback_generate_answer_edges (query : string)
    (texts : list string) :
  texts <> [] ->
  (Py.split (Py.lower query) = [] ->
   GroqService._fallback_generate_answer query texts
   = if Py.len (Py.join " " texts) >? 500
     then Py.slice_to 500 (Py.join " " texts) +:+ "..."
     else Py.join " " texts)
  /\ (matching_sentences query texts = [] ->
      (String.length (GroqService._fallback_generate_answer query texts)
       <= 503)%nat).
Proof.
  intros Hne.
  assert (Hcut : texts <> [] -> matching_sentences query texts = [] ->
    GroqService._fallback_generate_answer query texts
    = if Py.len (Py.join " " texts) >? 500
      then Py.slice_to 500 (Py.join " " texts) +:+ "..."
      else Py.join " " texts).
  { intros _ Hm. destruct texts as [|t ts]; [contradiction|].
    unfold GroqService._fallback_generate_answer. cbv zeta.
    rewrite collect_sentence_fold. cbn [app].
    unfold matching_sentences in Hm. now rewrite Hm. }
  assert (Hnone : Py.split (Py.lower query) = [] ->
                  matching_sentences query texts = []).
  { intros He. unfold matching_sentences.
    induction (Py.split_on Py.dot (Py.join " " texts)) as [|x l IH];
      [reflexivity|].
    simpl. unfold mentions at 1. rewrite He. exact IH. }
  split.
  - intros He. apply Hcut; auto.
  - intros Hm. rewrite (Hcut Hne Hm). apply (truncate_length 500).
Qed.

(** ** What a request leaves behind *)

Section Preservation.

Context {St : Type} (R : St -> St -> Prop) `{!PreOrder R}.

Lemma preserves_ret {A} (a : A) : preserves R (mret a : M St A).
Proof. intros s r s' H. injection H as _ <-. reflexivity. Qed.

Lemma preserves_raise {A} (e : exn) : preserves R (raise e : M St A).
Proof. intros s r s' H. injection H as _ <-. reflexivity. Qed.

Lemma preserves_bind {A B} (m : M St A) (f : A -> M St B) :
  preserves R m -> (forall a, preserves R (f a)) -> preserves R (m ≫= f).
Proof.
  intros Hm Hf s r s' H. unfold mbind, M_bind in H.
  destruct (m s) as [[a|e] s1] eqn:E.
  - etransitivity; [eapply Hm; eauto | eapply Hf; eauto].
  - injection H as _ <-. eapply Hm; eauto.
Qed.

Lemma preserves_try_except {A} (body : M St A) (handler : exn -> M St A) :
  preserves R body -> (forall e, preserves R (handler e)) ->
  preserves R (try_except body handler).
Proof.
  intros Hb Hh s r s' H. unfold try_except in H.
  destruct (body s) as [[a|e] s1] eqn:E.
  - injection H as _ <-. eapply Hb; eauto.
  - etransitivity; [eapply Hb; eauto | eapply Hh; eauto].
Qed.

Lemma preserves_try_finally {A} (body : M St A) (cleanup : M St unit) :
  preserves R body -> preserves R cleanup ->
  preserves R (try_finally body cleanup).
Proof.
  intros Hb Hc s r s' H. unfold try_finally in H.
  destruct (body s) as [rb s1] eqn:E.
  destruct (cleanup s1) as [[[]|e] s2] eqn:E2; injection H as _ <-;
    (etransitivity; [eapply Hb; eauto | eapply Hc; eauto]).
Qed.

Lemma preserves_mapM {A B} (f : A -> M St B) (l : list A) :
  (forall a, preserves R (f a)) -> preserves R (mapM f l).
Proof.
  intros Hf. induction l as [|a l IH]; cbn [mapM].
  - apply preserves_ret.
  - apply preserves_bind; [apply Hf|]. intros b.
    apply preserves_bind; [exact IH|]. intros k. apply preserves_ret.
Qed.

Lemma preserves_subscript (d : gmap string value) (key : string) :
  preserves R (subscript d key : M St value).
Proof.
  unfold subscript. destruct (d !! key);
    [apply preserves_ret | apply preserves_raise].
Qed.

Lemma preserves_process (count_tokens : string -> nat) (max_tokens : Z)
    (http_get : string -> M St (Z * list Z))
    (tmp_write : list Z -> string -> M St string)
    (tmp_remove : string -> M St unit)
    (fitz_text docx_text : string -> M St string)
    (decode : list Z -> string) (url : string) :
  (forall u, preserves R (http_get u)) ->
  (forall c x, preserves R (tmp_write c x)) ->
  (forall x, preserves R (tmp_remove x)) ->
  (forall x, preserves R (fitz_text x)) ->
  (forall x, preserves R (docx_text x)) ->
  preserves R
    (DocumentParser.process_document_from_url count_tokens max_tokens
       http_get tmp_write tmp_remove fitz_text docx_text decode url).
Proof.
  intros Hg Hw Hr Hf Hd. unfold DocumentParser.process_document_from_url.
  apply preserves_bind.
  { unfold DocumentParser.download_document.
    apply preserves_bind; [apply Hg|]. intros [status body].
    destruct (negb (status =? 200));
      [apply preserves_raise | apply preserves_ret]. }
  intros content. cbv zeta. apply preserves_bind; [apply Hw|]. intros path.
  apply preserves_try_finally; [|apply Hr].
  apply preserves_bind; [|intros text; apply preserves_ret].
  destruct (String.eqb _ "pdf").
  { apply preserves_try_except; [apply Hf | intros e; apply preserves_raise]. }
  destruct (_ || _).
  { apply preserves_try_except; [apply Hd | intros e; apply preserves_raise]. }
  apply preserves_ret.
Qed.

Lemma preserves_index_documents (client : Type)
    (index_upsert :
       client -> string -> list EmbeddingServiceVercel.vector_record
       -> M St unit)
    (str_hash : string -> Z) (pc : option client)
    (documents : list (gmap string value)) :
  (forall c n vs, preserves R (index_upsert c n vs)) ->
  preserves R
    (EmbeddingServiceVercel.index_documents client index_upsert str_hash pc
       documents).
Proof.
  intros Hu. unfold EmbeddingServiceVercel.index_documents.
  destruct pc as [c|]; [|apply preserves_ret].
  apply preserves_try_except; [|intros e; apply preserves_ret].
  apply preserves_bind.
  { apply preserves_mapM. intros d. apply preserves_subscript. }
  intros texts. destruct (EmbeddingServiceVercel.get_embeddings texts);
    [apply preserves_ret|].
  apply preserves_bind.
  { apply preserves_mapM. intros [i [d e]].
    unfold EmbeddingServiceVercel.make_vector.
    apply preserves_bind; [apply preserves_subscript|].
    intros [t|z]; [apply preserves_ret | apply preserves_raise]. }
  intros vs. apply preserves_bind; [apply Hu | intros; apply preserves_ret].
Qed.

Lemma preserves_search_similar (client : Type)
    (index_query :
       client -> string -> list Q -> Z
       -> M St (list EmbeddingServiceVercel.query_match))
    (pc : option client) (query : string) (top_k : Z) :
  (forall c n v k, preserves R (index_query c n v k)) ->
  preserves R
    (EmbeddingServiceVercel.search_similar client index_query pc query top_k).
Proof.
  intros Hq. unfold EmbeddingServiceVercel.search_similar.
  destruct pc as [c|]; [|apply preserves_ret].
  apply preserves_try_except; [|intros e; apply preserves_ret].
  destruct (EmbeddingServiceVercel.get_embeddings _); [apply preserves_ret|].
  apply preserves_bind; [apply Hq|]. intros ms.
  apply preserves_mapM. intros m. unfold EmbeddingServiceVercel.format_match.
  destruct (EmbeddingServiceVercel.match_metadata m);
    [apply preserves_ret | apply preserves_raise].
Qed.

Lemma preserves_parse_query (groq_client Json : Type)
    (chat : groq_client -> GroqService.llm_request -> Z -> M St string)
    (json_loads : string -> option Json) (client : option groq_client)
    (query : string) :
  (forall c r n, preserves R (chat c r n)) ->
  preserves R
    (GroqService.parse_query groq_client Json chat json_loads client query).
Proof.
  intros Hc. unfold GroqService.parse_query.
  destruct client as [c|]; [|apply preserves_ret].
  apply preserves_try_except; [|intros e; apply preserves_ret].
  apply preserves_bind; [apply Hc|]. intros content. cbv zeta.
  destruct (json_loads _); apply preserves_ret.
Qed.

Lemma preserves_generate_detailed_answer (groq_client : Type)
    (chat : groq_client -> GroqService.llm_request -> Z -> M St string)
    (client : option groq_client) (query : string) (texts : list value) :
  (forall c r n, preserves R (chat c r n)) ->
  preserves R
    (GroqService.generate_detailed_answer groq_client chat client query texts).
Proof.
  intros Hc. unfold GroqService.generate_detailed_answer.
  assert (Hf : preserves R
                 (GroqService.fallback_generate_answer_of (St := St) query
                    texts)).
  { unfold GroqService.fallback_generate_answer_of.
    destruct (str_items texts); [apply preserves_ret | apply preserves_raise]. }
  destruct client as [c|]; [|exact Hf].
  apply preserves_try_except; [|intros e; exact Hf].
  destruct (str_items _); [|apply preserves_raise].
  cbv zeta. apply preserves_bind; [apply Hc | intros; apply preserves_ret].
Qed.

End Preservation.

#[local] Instance same_bookkeeping_preorder {W} :
  PreOrder (@same_bookkeeping W).
Proof.
  split.
  - intros s. split; reflexivity.
  - intros a b c [H1 H2] [H3 H4]. split; congruence.
Qed.

Lemma preserves_on_world {W A} (m : M W A) :
  preserves same_bookkeeping (ApiRoutes.on_world m).
Proof.
  intros s r s' H. unfold ApiRoutes.on_world in H.
  destruct (m (ApiRoutes.world s)) as [o w']. injection H as _ <-.
  split; reflexivity.
Qed.

Lemma bind_raised {St A B} (m : M St A) (f : A -> M St B) (s s2 : St)
    (e : exn) :
  (m ≫= f) s = (Raised e, s2) ->
  m s = (Raised e, s2)
  \/ exists a s1, m s = (Returned a, s1) /\ f a s1 = (Raised e, s2).
Proof.
  unfold mbind, M_bind. destruct (m s) as [[a|e0] s1]; intros H.
  - right. eauto.
  - left. injection H as -> ->. reflexivity.
Qed.

Lemma deque_append_length (n : nat) (x : Q) (d : list Q) :
  (length d <= n)%nat -> (length (Utils.deque_append n x d) <= n)%nat.
Proof.
  intros H. unfold Utils.deque_append. cbv zeta.
  destruct (Nat.ltb_spec n (length (d ++ [x]))) as [Hlt|Hge].
  - rewrite length_tl, length_app. simpl. lia.
  - exact Hge.
Qed.

Section HandlerBookkeeping.

Import ApiRoutes.

Context {W : Type}.
Variable count_tokens : string -> nat.
Variable http_get : string -> M W (Z * list Z).
Variable tmp_write : list Z -> string -> M W string.
Variable tmp_remove : string -> M W unit.
Variable fitz_text : string -> M W string.
Variable docx_text : string -> M W string.
Variable decode_utf8_ignore : list Z -> string.
Variable client : Type.
Variable index_upsert :
  client -> string -> list EmbeddingServiceVercel.vector_record -> M W unit.
Variable index_query :
  client -> string -> list Q -> Z
  -> M W (list EmbeddingServiceVercel.query_match).
Variable str_hash : string -> Z.
Variable groq_client : Type.
Variable Json : Type.
Variable chat_completion :
  groq_client -> GroqService.llm_request -> Z -> M W string.
Variable json_loads : string -> option Json.
Variable time_time : W -> Q * W.
Variable pc : option client.
Variable groq : option groq_client.

Abbreviation the_handler :=
  (hackrx_run count_tokens http_get tmp_write tmp_remove fitz_text docx_text
     decode_utf8_ignore client index_upsert index_query str_hash groq_client
     Json chat_completion json_loads time_time pc groq).
Abbreviation the_route :=
  (post_hackrx_run count_tokens http_get tmp_write tmp_remove fitz_text
     docx_text decode_utf8_ignore client index_upsert index_query str_hash
     groq_client Json chat_completion json_loads time_time pc groq).
Abbreviation the_loop :=
  (question_loop client index_query groq_client Json chat_completion
     json_loads pc groq).

Lemma preserves_clock : preserves same_bookkeeping (clock time_time).
Proof. apply preserves_on_world. Qed.

Lemma preserves_the_process (url : string) :
  preserves same_bookkeeping
    (document_parser_process count_tokens http_get tmp_write tmp_remove
       fitz_text docx_text decode_utf8_ignore url).
Proof.
  apply (preserves_process same_bookkeeping); intros; apply preserves_on_world.
Qed.

Lemma preserves_the_index (docs : list (gmap string value)) :
  preserves same_bookkeeping
    (embedding_index_documents client index_upsert str_hash pc docs).
Proof.
  apply (preserves_index_documents same_bookkeeping).
  intros; apply preserves_on_world.
Qed.

Lemma preserves_the_loop (questions answers : list string) :
  preserves same_bookkeeping (the_loop questions answers).
Proof.
  revert answers. induction questions as [|q qs IH]; intros answers;
    cbn [question_loop].
  - apply (preserves_ret same_bookkeeping).
  - apply (preserves_bind same_bookkeeping); [|intros a; apply IH].
    unfold answer_question.
    apply (preserves_bind same_bookkeeping).
    { apply (preserves_parse_query same_bookkeeping).
      intros; apply preserves_on_world. }
    intros parsed. apply (preserves_bind same_bookkeeping).
    { apply (preserves_search_similar same_bookkeeping).
      intros; apply preserves_on_world. }
    intros [|d ds]; [apply (preserves_ret same_bookkeeping)|].
    apply (preserves_generate_detailed_answer same_bookkeeping).
    intros; apply preserves_on_world.
Qed.

Lemma the_loop_returned (questions answers : list string) (s s' : app W)
    (l : list string) :
  the_loop questions answers s = (Returned l, s') ->
  exists new, l = answers ++ new /\ length new = length questions.
Proof.
  revert answers s. induction questions as [|q qs IH]; intros answers s H.
  - injection H as <- _. exists []. now rewrite app_nil_r.
  - cbn [question_loop] in H.
    apply bind_returned in H as (a & s1 & _ & H).
    apply IH in H as (new & -> & Hlen).
    exists (a :: new). rewrite <- app_assoc. split; [reflexivity|].
    simpl. now rewrite Hlen.
Qed.

(** The part of the handler after the loop: it cannot raise. *)
Lemma handler_tail (answers : list string) (start : Q) (s : app W) :
  exists duration,
    (create_webhook_task answers ≫= fun _ =>
     end_timer time_time start ≫= fun processing_time =>
     record_request processing_time ≫= fun _ =>
     mret {| ApiRoutes.answers := answers |}) s
    = (Returned {| ApiRoutes.answers := answers |},
       App (time_time (world s)).2
           (Utils.recorded duration
              (Utils.timed duration (performance_monitor s)))
           (webhook_tasks s ++ [answers])).
Proof.
  unfold create_webhook_task, end_timer, record_request, update_monitor,
    clock, on_world, mbind, M_bind, mret, M_ret.
  cbn [world performance_monitor webhook_tasks].
  destruct (time_time (world s)) as [t w']. eexists. reflexivity.
Qed.

(** How the handler ends, read off its body. *)
Lemma handler_cases (request : HackrxRequest) (token : string)
    (st : app W) (r : outcome HackrxResponse) (st' : app W) :
  the_handler request token st = (r, st') ->
  (exists code detail,
     r = Raised (HTTPException code detail) /\ same_bookkeeping st st')
  \/ (exists answers s3 duration,
        r = Returned {| ApiRoutes.answers := answers |}
        /\ same_bookkeeping st s3
        /\ length answers = length (questions request)
        /\ st' = App (time_time (world s3)).2
                   (Utils.recorded duration
                      (Utils.timed duration (performance_monitor s3)))
                   (webhook_tasks s3 ++ [answers])).
Proof.
  unfold hackrx_run. intros H.
  unfold mbind at 1, M_bind at 1 in H.
  destruct (start_timer time_time st) as [[start|e] s0] eqn:Hstart.
  2: { unfold start_timer, clock, on_world in Hstart.
       destruct (time_time (world st)); discriminate. }
  assert (H0 : same_bookkeeping st s0)
    by (eapply preserves_clock; eauto).
  unfold try_except in H.
  match type of H with
  | (match ?body s0 with _ => _ end) = _ =>
      destruct (body s0) as [[resp|e] s1] eqn:Hbody
  end.
  - (* the body returned *)
    injection H as <- <-. right.
    apply bind_returned in Hbody as (chunks & sa & Hp & Hbody).
    destruct chunks as [|c cs]; [discriminate|].
    apply bind_returned in Hbody as (ok & sb & Hi & Hbody).
    destruct ok; [|discriminate]. change (negb true) with false in Hbody.
    cbv iota in Hbody.
    apply bind_returned in Hbody as (answers & sc & Hl & Hbody).
    destruct (handler_tail answers start sc) as [duration Htail].
    rewrite Htail in Hbody. injection Hbody as <- <-.
    destruct (the_loop_returned _ _ _ _ _ Hl) as (new & -> & Hlen).
    exists new, sc, duration. split; [reflexivity|]. split; [|split].
    + etransitivity; [exact H0|].
      etransitivity; [eapply preserves_the_process; eauto|].
      etransitivity; [eapply preserves_the_index; eauto|].
      eapply preserves_the_loop; eauto.
    + exact Hlen.
    + reflexivity.
  - (* the body raised *)
    left.
    assert (Hs1 : same_bookkeeping st s1).
    { etransitivity; [exact H0|].
      apply bind_raised in Hbody as [Hp | (chunks & sa & Hp & Hbody)];
        [eapply preserves_the_process; eauto|].
      etransitivity; [eapply preserves_the_process; eauto|].
      destruct chunks as [|c cs];
        [injection Hbody as _ <-; reflexivity|].
      apply bind_raised in Hbody as [Hi | (ok & sb & Hi & Hbody)];
        [eapply preserves_the_index; eauto|].
      etransitivity; [eapply preserves_the_index; eauto|].
      destruct ok; [|injection Hbody as _ <-; reflexivity].
      change (negb true) with false in Hbody. cbv iota in Hbody.
      apply bind_raised in Hbody as [Hl | (answers & sc & Hl & Hbody)].
      - eapply preserves_the_loop; eauto.
      - destruct (handler_tail answers start sc) as [duration Htail].
        rewrite Htail in Hbody. discriminate. }
    destruct e as [code detail | msg]; injection H as <- <-; eauto.
Qed.

Lemma route_cases (credentials : string) (request : HackrxRequest)
    (st : app W) (r : outcome HackrxResponse) (st' : app W) :
  the_route credentials request st = (r, st') ->
  (r = Raised (HTTPException 401 "Invalid API key") /\ st' = st
   /\ credentials <> expected_key)
  \/ (credentials = expected_key
      /\ the_handler request credentials st = (r, st')).
Proof.
  unfold post_hackrx_run, get_current_user, mbind, M_bind.
  destruct (String.eqb_spec credentials expected_key) as [->|Hne].
  - intros H. right. split; [reflexivity | exact H].
  - intros H. injection H as <- <-. left. auto.
Qed.

(** X23. A request that fails fails with an HTTP error, never with
    another exception, and leaves the performance monitor and the list of
    scheduled webhook submissions as they were: no request is counted, no
    duration recorded, no submission scheduled. *)
Theorem failed_request_leaves_no_trace (credentials : string)
    (request : HackrxRequest) (st st' : app W) (e : exn) :
  the_route credentials request st = (Raised e, st') ->
  (exists code detail, e = HTTPException code detail)
  /\ performance_monitor st' = performance_monitor st
  /\ webhook_tasks st' = webhook_tasks st.
Proof.
  intros H. apply route_cases in H as [(He & -> & _) | (_ & H)].
  - injection He as ->. split; [eauto | split; reflexivity].
  - apply handler_cases in H
      as [(code & detail & He & Hb1 & Hb2) | (a & s3 & d & He & _)];
      [|discriminate].
    injection He as ->. split; [eauto | split; assumption].
Qed.

(** X24. A request that succeeds bore the valid token, gets one answer
    per question, schedules exactly one webhook submission, carrying the
    answers returned, counts one request, leaves the error count alone and
    records its duration twice in the bounded list of request times (once
    when the timer ends and once when the request is recorded). *)
Theorem successful_request_bookkeeping (credentials : string)
    (request : HackrxRequest) (st st' : app W) (response : HackrxResponse) :
  the_route credentials request st = (Returned response, st') ->
  credentials = expected_key
  /\ length (answers response) = length (questions request)
  /\ webhook_tasks st' = webhook_tasks st ++ [answers response]
  /\ Utils.request_count (performance_monitor st')
     = Utils.request_count (performance_monitor st) + 1
  /\ Utils.error_count (performance_monitor st')
     = Utils.error_count (performance_monitor st)
  /\ exists duration : Q,
       Utils.request_times (performance_monitor st')
       = Utils.deque_append 1000 duration
           (Utils.deque_append 1000 duration
              (Utils.request_times (performance_monitor st))).
Proof.
  intros H. apply route_cases in H as [(He & _) | (Hc & H)]; [discriminate|].
  apply handler_cases in H
    as [(code & detail & He & _) | (a & s3 & d & He & [Hb1 Hb2] & Hlen & ->)];
    [discriminate|].
  injection He as ->. cbn [answers webhook_tasks performance_monitor].
  rewrite Hb1, Hb2. split; [exact Hc|]. split; [exact Hlen|].
  split; [reflexivity|]. split; [reflexivity|]. split; [reflexivity|].
  exists d. reflexivity.
Qed.

(** X25. Whatever a request does, the list of request times stays
    within its bound of 1000 entries, the error count does not change (the
    handler never records an error), the request count does not decrease
    and no scheduled webhook submission is lost. *)
Theorem request_keeps_monitor_invariants (credentials : string)
    (request : HackrxRequest) (st st' : app W)
    (r : outcome HackrxResponse) :
  (length (Utils.request_times (performance_monitor st)) <= 1000)%nat ->
  the_route credentials request st = (r, st') ->
  (length (Utils.request_times (performance_monitor st')) <= 1000)%nat
  /\ Utils.error_count (performance_monitor st')
     = Utils.error_count (performance_monitor st)
  /\ Utils.request_count (performance_monitor st)
     <= Utils.request_count (performance_monitor st')
  /\ exists added, webhook_tasks st' = webhook_tasks st ++ added.
Proof.
  intros Hlen H. apply route_cases in H as [(_ & -> & _) | (_ & H)].
  { split; [exact Hlen|]. split; [reflexivity|]. split; [lia|].
    exists []. now rewrite app_nil_r. }
  apply handler_cases in H
    as [(code & detail & _ & Hp & Ht)
       | (a & s3 & d & _ & [Hp Ht] & _ & ->)].
  - rewrite Hp, Ht. split; [exact Hlen|]. split; [reflexivity|].
    split; [lia|]. exists []. now rewrite app_nil_r.
  - cbn [webhook_tasks performance_monitor Utils.recorded Utils.timed
         Utils.request_times Utils.request_count Utils.error_count].
    rewrite Hp, Ht. split; [|split; [|split]]; try lia; eauto.
    apply (deque_append_length Utils.max_requests),
          (deque_append_length Utils.max_requests), Hlen.
Qed.

End HandlerBookkeeping.
